(** * md2pdf: front matter, fenced diagrams, image assets, metadata, numbering

    A shallow embedding of the document-assembly functions of [md2pdf.mjs]
    (the first, current script of the file): [parseYamlFrontMatter], the
    fence rule installed by [buildMarkdownIt], [generateMetaInfo],
    [insertAfterFirstH1], [processImages], [buildHeadingNumberCSS] and
    [buildHtml], together with the part of [main] that connects them; and
    of the functions around them: [parseArgs], [buildConfig], [makeLogger]
    (as [Program.info]), [convertPdfToSvg], [renderPDF] and [main].

    Modelling conventions.
    - A JavaScript string is a [string]: a sequence of code units, here
      restricted to the range 0..255.
    - The regular expressions of the script are written in a small syntax
      ([Regex.node]) whose matcher backtracks in the order of the ECMAScript
      semantics: greedy quantifiers try the longest repetition first, lazy
      ones the shortest first, and a search tries start positions from left
      to right.
    - Libraries the script calls (js-yaml, markdown-it's stock fence
      renderer, [fs], [path], [URL], [pdftocairo]) are Section variables.
      The base64 conversion of [Buffer] is modelled concretely (RFC 4648).
    - Code that calls the outside world and may throw is written in a small
      monad ([Trace.M]): the calls made, in order, and the value or the
      exception the computation ends with.
    - A call of [processImages] is the list of the calls of [fs] and of
      [convertPdfToSvg] it makes and of the warnings it logs, with the way
      it ends: it returns, its promise rejects, or the process ends on the
      rejection of a task that nothing handles yet.  Whether a rejection
      comes that early depends on the time the calls take, and is a
      parameter.
    - The child process of [convertPdfToSvg] is the list of the events it
      emits, and the handlers of the script are folded over it.  The browser
      of [renderPDF] is a record that tells, for each call, whether it
      succeeds or throws, and whether the page is closed at each place
      where the script asks.
    - In comments, patterns are quoted with a blank between a star and a
      closing parenthesis, and with DQ and SQ for the two quote characters. *)

From Stdlib Require Import String Ascii List Bool Arith Lia NArith ZArith ZifyNat
  DecimalString.
Import ListNotations.
Open Scope string_scope.
Set Warnings "-register-all".

(** ** Strings *)

Module Str.

Definition nl : string := String "010"%char "".
Definition dq : string := String "034"%char "".
Definition sq : string := String "039"%char "".

Definition code (a : ascii) : nat := nat_of_ascii a.

Definition in_range (lo hi : nat) (a : ascii) : bool :=
  Nat.leb lo (code a) && Nat.leb (code a) hi.

(** WhiteSpace and LineTerminator code units below 256: TAB, LF, VT, FF, CR,
    SP and NBSP.  This is the class [\s] and the set removed by [trim]. *)
Definition is_space (a : ascii) : bool :=
  in_range 9 13 a || Nat.eqb (code a) 32 || Nat.eqb (code a) 160.

(** [\w] *)
Definition is_word (a : ascii) : bool :=
  in_range 48 57 a || in_range 65 90 a || in_range 97 122 a || Nat.eqb (code a) 95.

Definition is_digit (a : ascii) : bool := in_range 48 57 a.

Definition any_char (_ : ascii) : bool := true.

Definition not_char (x : ascii) (a : ascii) : bool := negb (Ascii.eqb a x).

(** The class of every character but the two quote characters. *)
Definition not_quote (a : ascii) : bool :=
  negb (Ascii.eqb a "034") && negb (Ascii.eqb a "039").

(** The class of the two quote characters. *)
Definition is_quote (a : ascii) : bool :=
  Ascii.eqb a "034" || Ascii.eqb a "039".

(** Simple case mapping of one code unit, as [String.prototype.toLowerCase]
    does it below 256: A-Z and the Latin-1 capitals except the times sign. *)
Definition lower_char (a : ascii) : ascii :=
  if in_range 65 90 a || (in_range 192 222 a && negb (Nat.eqb (code a) 215))
  then ascii_of_nat (code a + 32) else a.

(** Canonicalisation of the [i] flag restricted to what can equal an ASCII
    pattern character: only A-Z fold. *)
Definition fold_char (a : ascii) : ascii :=
  if in_range 65 90 a then ascii_of_nat (code a + 32) else a.

Fixpoint map (f : ascii -> ascii) (s : string) : string :=
  match s with
  | "" => ""
  | String a s' => String (f a) (map f s')
  end.

Definition toLowerCase (s : string) : string := map lower_char s.

Fixpoint all (c : ascii -> bool) (s : string) : bool :=
  match s with
  | "" => true
  | String a s' => c a && all c s'
  end.

Fixpoint rev_onto (s acc : string) : string :=
  match s with
  | "" => acc
  | String a s' => rev_onto s' (String a acc)
  end.

Definition rev (s : string) : string := rev_onto s "".

Fixpoint trimStart (s : string) : string :=
  match s with
  | "" => ""
  | String a s' => if is_space a then trimStart s' else s
  end.

Definition trimEnd (s : string) : string := rev (trimStart (rev s)).

Definition trim (s : string) : string := trimEnd (trimStart s).

Fixpoint skip (n : nat) (s : string) : string :=
  match n, s with
  | 0, _ => s
  | S _, "" => ""
  | S k, String _ s' => skip k s'
  end.

Definition char_eq (ci : bool) (x a : ascii) : bool :=
  if ci then Ascii.eqb (fold_char x) (fold_char a) else Ascii.eqb x a.

(** Literal text [p] at the head of [s], compared without case when [ci]:
    the text of [s] that matched it, and what follows. *)
Fixpoint lit (ci : bool) (p s : string) : option (string * string) :=
  match p, s with
  | "", _ => Some ("", s)
  | String _ _, "" => None
  | String x p', String a s' =>
      if char_eq ci x a then
        match lit ci p' s' with
        | Some (w, s'') => Some (String a w, s'')
        | None => None
        end
      else None
  end.

(** [starts p s]: [p] is a prefix of [s]; gives back what follows it. *)
Definition starts (p s : string) : option string :=
  option_map snd (lit false p s).

(** [indexOf]-style split at the first occurrence of [p] in [s]. *)
Fixpoint split_first (p s : string) : option (string * string) :=
  match starts p s with
  | Some post => Some ("", post)
  | None =>
      match s with
      | "" => None
      | String a s' =>
          match split_first p s' with
          | Some (pre, post) => Some (String a pre, post)
          | None => None
          end
      end
  end.

Definition includes (p s : string) : bool :=
  match split_first p s with Some _ => true | None => false end.

Fixpoint join (sep : string) (l : list string) : string :=
  match l with
  | [] => ""
  | [x] => x
  | x :: l' => x ++ sep ++ join sep l'
  end.

End Str.

(** ** Regular expressions *)

Module Regex.

(** The constructs that occur in the script's patterns.  A quantifier always
    applies to a single character class there, and a capture group encloses
    exactly one quantified class; [cap] says whether the node is such a
    group.  [ci] is the [i] flag. *)
Inductive node : Type :=
| Lit (ci : bool) (text : string)
| One (c : ascii -> bool)
| Opt (c : ascii -> bool)
| Star (greedy cap : bool) (c : ascii -> bool)
| Plus (cap : bool) (c : ascii -> bool)
| Eos.

Definition regex := list node.

(** A successful match: the text it consumed, the captures in order of
    their groups, and the input that follows. *)
Record hit : Type := Hit { whole : string; groups : list string; rest : string }.

Definition eat (w : string) (cap : bool) (h : hit) : hit :=
  Hit (w ++ whole h) (if cap then w :: groups h else groups h) (rest h).

Definition eat1 (a : ascii) (h : hit) : hit :=
  Hit (String a (whole h)) (groups h) (rest h).

Definition grow (a : ascii) (r : string * hit) : string * hit :=
  (String a (fst r), snd r).

(** [c*] followed by the continuation [k]: longest repetition first. *)
Fixpoint greedy (c : ascii -> bool) (k : string -> option hit) (s : string)
  : option (string * hit) :=
  let stop := option_map (pair "") (k s) in
  match s with
  | "" => stop
  | String a s' =>
      if c a then
        match greedy c k s' with
        | Some r => Some (grow a r)
        | None => stop
        end
      else stop
  end.

(** [c*?] followed by the continuation [k]: shortest repetition first. *)
Fixpoint lazy (c : ascii -> bool) (k : string -> option hit) (s : string)
  : option (string * hit) :=
  match k s with
  | Some h => Some ("", h)
  | None =>
      match s with
      | "" => None
      | String a s' => if c a then option_map (grow a) (lazy c k s') else None
      end
  end.

Definition close (cap : bool) (r : option (string * hit)) : option hit :=
  option_map (fun wh => eat (fst wh) cap (snd wh)) r.

(** Anchored match of a pattern at the head of the input. *)
Fixpoint run (r : regex) (s : string) {struct r} : option hit :=
  match r with
  | [] => Some (Hit "" [] s)
  | Lit ci p :: r' =>
      match Str.lit ci p s with
      | Some (w, s') => option_map (eat w false) (run r' s')
      | None => None
      end
  | One c :: r' =>
      match s with
      | String a s' => if c a then option_map (eat1 a) (run r' s') else None
      | "" => None
      end
  | Opt c :: r' =>
      match s with
      | String a s' =>
          if c a then
            match run r' s' with
            | Some h => Some (eat1 a h)
            | None => run r' s
            end
          else run r' s
      | "" => run r' s
      end
  | Star true cap c :: r' => close cap (greedy c (run r') s)
  | Star false cap c :: r' => close cap (lazy c (run r') s)
  | Plus cap c :: r' =>
      match s with
      | String a s' =>
          if c a then close cap (option_map (grow a) (greedy c (run r') s'))
          else None
      | "" => None
      end
  | Eos :: r' =>
      match s with
      | "" => run r' ""
      | String _ _ => None
      end
  end.

(** The leftmost match: what precedes it, and the match. *)
Fixpoint search (r : regex) (s : string) : option (string * hit) :=
  match run r s with
  | Some h => Some ("", h)
  | None =>
      match s with
      | "" => None
      | String a s' => option_map (grow a) (search r s')
      end
  end.

Definition test (r : regex) (s : string) : bool :=
  match search r s with Some _ => true | None => false end.

(** All matches of a pattern with the [g] flag, left to right, each with
    the text between the previous match and itself; and the text after the
    last one.  A match that consumes nothing would leave [lastIndex] where
    it is; no pattern of the script can produce one (each begins with a
    literal), and the scan stops there. *)
Fixpoint scan_fuel (fuel : nat) (r : regex) (s : string)
  : list (string * hit) * string :=
  match fuel with
  | 0 => ([], s)
  | S fuel' =>
      match search r s with
      | None => ([], s)
      | Some (pre, h) =>
          match whole h with
          | "" => ([], s)
          | String _ _ =>
              let '(l, tl) := scan_fuel fuel' r (rest h) in ((pre, h) :: l, tl)
          end
      end
  end.

Definition scan (r : regex) (s : string) : list (string * hit) * string :=
  scan_fuel (String.length s) r s.

End Regex.

Import Str Regex.

(** ** Front matter *)

(** [/^---\s*\n([\s\S]*?)\n---\s*\n([\s\S]* )$/] *)
Definition yamlRegex : regex :=
  [ Lit false "---"; Star true false is_space; Lit false nl;
    Star false true any_char;
    Lit false (nl ++ "---"); Star true false is_space; Lit false nl;
    Star true true any_char; Eos ].


(** Values that [yaml.load] can return, as far as the script looks at them.
    [VNum] is an integral number (below 2^53 in absolute value, so that its
    string conversion is its decimal notation); [VOther] stands for any
    other truthy value (an array, a Date, a fractional number) with the
    string a template literal shows for it. *)
Inductive value : Type :=
| VUndefined
| VNull
| VBool (b : bool)
| VNum (z : Z)
| VNaN
| VStr (s : string)
| VObj (fields : list (string * value))
| VOther (shown : string).

Definition empty_object : value := VObj [].

(** ToBoolean *)
Definition truthy (v : value) : bool :=
  match v with
  | VUndefined | VNull | VNaN => false
  | VBool b => b
  | VNum z => negb (Z.eqb z 0)
  | VStr s => negb (String.eqb s "")
  | VObj _ | VOther _ => true
  end.

(** [a || b] *)
Definition js_or (a b : value) : value := if truthy a then a else b.

Fixpoint lookup {A : Type} (k : string) (l : list (string * A)) : option A :=
  match l with
  | [] => None
  | (k', v) :: l' => if String.eqb k k' then Some v else lookup k l'
  end.

(** Property read [v.k] for a key that no prototype defines: own fields of
    an object, [undefined] on anything else. *)
Definition prop (v : value) (k : string) : value :=
  match v with
  | VObj fields => match lookup k fields with Some x => x | None => VUndefined end
  | _ => VUndefined
  end.

Definition is_undefined (v : value) : bool :=
  match v with VUndefined => true | _ => false end.

(** [v === false] and [v === s] for a string [s] *)
Definition is_false (v : value) : bool :=
  match v with VBool false => true | _ => false end.

Definition is_string (s : string) (v : value) : bool :=
  match v with VStr s' => String.eqb s' s | _ => false end.

(** What [console.warn] and [log.warn] print, by message; the argument is
    the text interpolated into it. *)
Inductive warning : Type :=
| YamlParseFailed (message : string)
| ImageNotFound (absPath : string)
| UnsupportedFormat (ext : string)
| PdfEmbedRecommended (absPath : string)
| PdfConversionFailed (absPath : string)
| TempDirFailed (tempDir : string)
| TempFileNotRemoved (tempFile : string).

(** Outcome of [yaml.load]: a value, or a thrown exception. *)
Inductive loaded : Type :=
| Loaded (v : value)
| Thrown (message : string).

Record split : Type :=
  Split { frontMatter : value; body : string; warned : list warning }.

Section FrontMatter.

Variable yaml_load : string -> loaded.

Definition parseYamlFrontMatter (content : string) : split :=
  match run yamlRegex content with
  | None => Split empty_object content []
  | Some m =>
      match yaml_load (nth 0 (groups m) "") with
      | Loaded v => Split (js_or v empty_object) (nth 1 (groups m) "") []
      | Thrown message => Split empty_object content [YamlParseFailed message]
      end
  end.

End FrontMatter.

(** What [\s*\n] takes from the head of a text when anything may follow:
    the white space up to and including the last line feed of the leading
    run of white space.  [None] when that run holds no line feed. *)
Fixpoint after_blank (s : string) : option string :=
  match s with
  | "" => None
  | String a s' =>
      if is_space a then
        match after_blank s' with
        | Some t => Some t
        | None => if Ascii.eqb a "010" then Some s' else None
        end
      else None
  end.

(** A text without its leading blank lines. *)
Definition drop_blank_lines (s : string) : string :=
  match after_blank s with Some t => t | None => s end.

(** The text begins with a character that is not white space. *)
Definition begins_with_text (s : string) : bool :=
  match s with
  | "" => false
  | String a _ => negb (is_space a)
  end.

(** ** Fenced blocks *)

Record token : Type := Token { info : string; content : string }.

(** The element returned for a diagram: the text between two line feeds
    inside a [div] of class [mermaid], and a line feed. *)
Definition container (text : string) : string :=
  "<div class=" ++ dq ++ "mermaid" ++ dq ++ ">" ++ nl ++ text ++ nl
  ++ "</div>" ++ nl.

Section Fence.

(** The fence rule that was installed before, which escapes or
    highlights the block. *)
Variable baseFence : token -> string.

Definition fence (t : token) : string :=
  if String.eqb (toLowerCase (trim (info t))) "mermaid"
  then "<div class=" ++ dq ++ "mermaid" ++ dq ++ ">" ++ nl
       ++ content t ++ nl ++ "</div>" ++ nl
  else baseFence t.

End Fence.

(** ** String.prototype.replace *)

Module Replace.

Definition digit_value (a : ascii) : nat := code a - 48.

(** The characters that give a dollar sign in front of them a meaning. *)
Definition special (a : ascii) : bool :=
  Ascii.eqb a "$" || Ascii.eqb a "&" || Ascii.eqb a "`" || Ascii.eqb a "039"
  || is_digit a.

(** GetSubstitution for a pattern without named groups: [tpl] is the
    replacement text, [matched] the matched text, [before] and [after] the
    subject around it, [caps] the captures. *)
Section Substitution.

Variables (matched before after : string) (caps : list string).

Definition capture (n : nat) : option string :=
  if (1 <=? n)%nat && (n <=? List.length caps)%nat
  then Some (nth (n - 1) caps "") else None.

Fixpoint expand (tpl : string) : string :=
  match tpl with
  | "" => ""
  | String a t =>
      if negb (Ascii.eqb a "$") then String a (expand t) else
      match t with
      | "" => "$"
      | String b t' =>
          if Ascii.eqb b "$" then String "$" (expand t')
          else if Ascii.eqb b "&" then matched ++ expand t'
          else if Ascii.eqb b "`" then before ++ expand t'
          else if Ascii.eqb b "039" then after ++ expand t'
          else if is_digit b then
            let one :=
              match capture (digit_value b) with
              | Some c => c ++ expand t'
              | None => String "$" (expand t)
              end in
            match t' with
            | "" => one
            | String d t'' =>
                if is_digit d then
                  let index := (10 * digit_value b + digit_value d)%nat in
                  if (List.length caps <? index)%nat then one
                  else match capture index with
                       | Some c => c ++ expand t''
                       | None => String "$" (String b (String d (expand t'')))
                       end
                else one
            end
          else String "$" (expand t)
      end
  end.

End Substitution.

(** The second argument of [replace]: a replacement text or a function of
    the match. *)
Inductive replacement : Type :=
| Text (tpl : string)
| Fn (f : hit -> string).

Definition substitute (r : replacement) (before : string) (h : hit) : string :=
  match r with
  | Text tpl => expand (whole h) before (rest h) (groups h) tpl
  | Fn f => f h
  end.

(** [s.replace(pat, tpl)] for a string [pat]: the first occurrence only. *)
Definition replace_string (pat tpl s : string) : string :=
  match split_first pat s with
  | Some (pre, post) => pre ++ expand pat pre post [] tpl ++ post
  | None => s
  end.

(** [s.replace(re, r)] for a pattern without the [g] flag. *)
Definition replace_first (re : regex) (r : replacement) (s : string) : string :=
  match search re s with
  | Some (pre, h) => pre ++ substitute r pre h ++ rest h
  | None => s
  end.

(** [s.replace(re, r)] for a pattern with the [g] flag; [before] is the part
    of the subject already passed. *)
Fixpoint replace_all_fuel (fuel : nat) (re : regex) (r : replacement)
    (before s : string) : string :=
  match fuel with
  | 0 => s
  | S fuel' =>
      match search re s with
      | None => s
      | Some (pre, h) =>
          match whole h with
          | "" => s
          | String _ _ =>
              pre ++ substitute r (before ++ pre) h
              ++ replace_all_fuel fuel' re r (before ++ pre ++ whole h) (rest h)
          end
      end
  end.

Definition replace_all (re : regex) (r : replacement) (s : string) : string :=
  replace_all_fuel (String.length s) re r "" s.

End Replace.

Import Replace.

(** ** Metadata block *)

(** Template literal interpolation of a value *)
Definition toString (v : value) : string :=
  match v with
  | VUndefined => "undefined"
  | VNull => "null"
  | VBool true => "true"
  | VBool false => "false"
  | VNum z => DecimalString.NilZero.string_of_int (Z.to_int z)
  | VNaN => "NaN"
  | VStr s => s
  | VObj _ => "[object Object]"
  | VOther shown => shown
  end.

(** The label of the student number: the characters U+5B66 U+7C4D U+756A
    U+53F7, a colon and a blank.  The four characters lie above 255 and are
    written by their UTF-8 bytes. *)
Definition student_id_label : string := "学籍番号: ".

Definition meta_div (class : string) (text : string) : string :=
  "<div class=" ++ dq ++ class ++ dq ++ ">" ++ text ++ "</div>".

Definition generateMetaInfo (frontMatter : value) : string :=
  let fm := js_or frontMatter empty_object in
  let author := prop fm "author" in
  let affiliation := prop fm "affiliation" in
  let student_id := prop fm "student_id" in
  if negb (truthy author) && negb (truthy affiliation) && negb (truthy student_id)
  then ""
  else
    nl ++ "  <div class=" ++ dq ++ "document-meta" ++ dq ++ ">" ++ nl ++ "    "
    ++ (if truthy student_id
        then meta_div "meta-student-id" (student_id_label ++ toString student_id)
        else "")
    ++ nl ++ "    "
    ++ (if truthy author then meta_div "meta-author" (toString author) else "")
    ++ nl ++ "    "
    ++ (if truthy affiliation
        then meta_div "meta-affiliation" (toString affiliation) else "")
    ++ nl ++ "  </div>".

(** [/(<h1[^>]*>.*?<\/h1>)/s].  The only group encloses the whole pattern,
    so its capture is the matched text. *)
Definition h1Regex : regex :=
  [ Lit false "<h1"; Star true false (not_char ">"); Lit false ">";
    Star false false any_char; Lit false "</h1>" ].

Definition h1_captures (h : hit) : hit := Hit (whole h) [whole h] (rest h).

Definition insertAfterFirstH1 (html metaHtml : string) : string :=
  if String.eqb metaHtml "" then html
  else
    match search h1Regex html with
    | Some (pre, h) =>
        pre ++ substitute (Text ("$1" ++ metaHtml)) pre (h1_captures h) ++ rest h
    | None => html
    end.

(** ** Base64 (RFC 4648), as [Buffer.toString] writes it *)

Module Base64.

Definition alphabet : string :=
  "ABCDEFGHIJKLMNOPQRSTUVWXYZabcdefghijklmnopqrstuvwxyz0123456789+/".

Definition digit (n : nat) : ascii :=
  match String.get n alphabet with Some a => a | None => "="%char end.

Definition digit_index (a : ascii) : option nat :=
  if in_range 65 90 a then Some (code a - 65)
  else if in_range 97 122 a then Some (code a - 71)
  else if in_range 48 57 a then Some (code a + 4)
  else if Nat.eqb (code a) 43 then Some 62
  else if Nat.eqb (code a) 47 then Some 63
  else None.

Definition pad : ascii := "="%char.

Fixpoint encode (bytes : string) : string :=
  match bytes with
  | "" => ""
  | String a "" =>
      String (digit (code a / 4)) (String (digit (code a mod 4 * 16))
        (String pad (String pad "")))
  | String a (String b "") =>
      String (digit (code a / 4))
        (String (digit (code a mod 4 * 16 + code b / 16))
           (String (digit (code b mod 16 * 4)) (String pad "")))
  | String a (String b (String c bytes')) =>
      String (digit (code a / 4))
        (String (digit (code a mod 4 * 16 + code b / 16))
           (String (digit (code b mod 16 * 4 + code c / 64))
              (String (digit (code c mod 64)) (encode bytes'))))
  end.

Definition byte (n : nat) : ascii := ascii_of_nat n.

Fixpoint decode (text : string) : option string :=
  match text with
  | "" => Some ""
  | String p (String q (String r (String t text'))) =>
      match digit_index p, digit_index q with
      | Some i, Some j =>
          let b1 := byte (i * 4 + j / 16) in
          if Ascii.eqb r pad then
            if Ascii.eqb t pad && String.eqb text' "" then Some (String b1 "")
            else None
          else
            match digit_index r with
            | None => None
            | Some k =>
                let b2 := byte (j mod 16 * 16 + k / 4) in
                if Ascii.eqb t pad then
                  if String.eqb text' "" then Some (String b1 (String b2 ""))
                  else None
                else
                  match digit_index t with
                  | None => None
                  | Some l =>
                      let b3 := byte (k mod 4 * 64 + l) in
                      option_map (fun d => String b1 (String b2 (String b3 d)))
                        (decode text')
                  end
            end
      | _, _ => None
      end
  | _ => None
  end.

End Base64.

(** ** Image assets *)

Module Images.

Inductive kind : Type := svg | base64 | file.

(** A value of [imageMap].  The script also stores a field [attributes],
    always empty and never read. *)
Record imageInfo : Type := ImageInfo { type : kind; content : string }.

Record imageMatch : Type :=
  ImageMatch { fullMatch : string; beforeSrc : string; src : string;
               afterSrc : string }.

(** What [fsp.stat] tells about a path. *)
Record stats : Type := Stats { isFile : bool; size : N }.

(** [/<img\s+([^>]*?)src=[DQ SQ]([^DQ SQ]+)[DQ SQ]([^>]*?)>/g] *)
Definition imgRegex : regex :=
  [ Lit false "<img"; Plus false is_space; Star false true (not_char ">");
    Lit false "src="; One is_quote; Plus true not_quote; One is_quote;
    Star false true (not_char ">"); Lit false ">" ].

(** [/^https?:\/\//i] *)
Definition remoteRegex : regex :=
  [ Lit true "http"; Opt (char_eq true "s"); Lit false "://" ].

Definition is_remote (s : string) : bool :=
  match run remoteRegex s with Some _ => true | None => false end.

(** [/(\w+)=[DQ SQ]([^DQ SQ]+)[DQ SQ]/g] *)
Definition attrRegex : regex :=
  [ Plus true is_word; Lit false "="; One is_quote; Plus true not_quote;
    One is_quote ].

(** [/<svg([^>]*?)>/i] *)
Definition svgRegex : regex :=
  [ Lit true "<svg"; Star false true (not_char ">"); Lit false ">" ].

(** [/width\s*=/i], [/height\s*=/i] *)
Definition definesRegex (name : string) : regex :=
  [ Lit true name; Star true false is_space; Lit false "=" ].

(** [/<title>/i] *)
Definition titleRegex : regex := [ Lit true "<title>" ].

Definition supportedExts : list string :=
  ["png"; "jpg"; "jpeg"; "gif"; "svg"; "webp"].

Definition has (l : list string) (x : string) : bool :=
  existsb (String.eqb x) l.

(** The matches of the collecting loop, in document order. *)
Definition to_match (h : hit) : imageMatch :=
  ImageMatch (whole h) (nth 0 (groups h) "") (nth 1 (groups h) "")
             (nth 2 (groups h) "").

Definition imageMatches (html : string) : list imageMatch :=
  List.map (fun ph => to_match (snd ph)) (fst (scan imgRegex html)).

(** A [Map] keeps its keys in order of first insertion; setting a key that
    is present changes its value in place. *)
Fixpoint set {A : Type} (k : string) (v : A) (m : list (string * A))
  : list (string * A) :=
  match m with
  | [] => [(k, v)]
  | (k', v') :: m' =>
      if String.eqb k k' then (k, v) :: m' else (k', v') :: set k v m'
  end.

Definition sources (ms : list imageMatch) : list string :=
  List.map fst (fold_left (fun m x => set (src x) tt m) ms []).

(** [stat.size / 1024 / 1024 > 1.0].  The size is an integer below 2^53
    and both divisions are by a power of two, hence exact. *)
Definition over_1MB (bytes : N) : bool := (1048576 <? bytes)%N.

Definition mimeType (ext : string) : string :=
  "image/" ++ (if String.eqb ext "jpg" then "jpeg" else ext).

(** The raster formats and their registered media types, as the
    specification has them: the tag that is correct for a file of the
    format. *)
Definition rasterExts : list string := ["png"; "jpg"; "jpeg"; "gif"; "webp"].

Definition media_type (ext : string) : string :=
  if String.eqb ext "png" then "image/png"
  else if String.eqb ext "jpg" then "image/jpeg"
  else if String.eqb ext "jpeg" then "image/jpeg"
  else if String.eqb ext "gif" then "image/gif"
  else if String.eqb ext "webp" then "image/webp"
  else "application/octet-stream".

Definition data_url (mime bytes : string) : string :=
  "data:" ++ mime ++ ";base64," ++ Base64.encode bytes.

(** How the resolution of one source ends: the entry stays [null], it is
    set, it is deleted, or a read rejects and with it [Promise.all]. *)
Inductive outcome : Type :=
| Untouched (w : list warning)
| Entry (w : list warning) (i : imageInfo)
| Deleted (w : list warning)
| Rejected.

(** The calls of [fsp] that [processImages] makes, and the call of
    [convertPdfToSvg], which stands for the process it starts and the
    [stat] it makes itself. *)
Inductive call : Type :=
| Mkdir (dir : string)
| Stat (path : string)
| ReadFile (path : string)
| Convert (pdfPath outputDir : string)
| Unlink (path : string)
| Readdir (dir : string)
| Rmdir (dir : string).

(** What a call of [processImages] does, in order: the calls it makes and
    the warnings it logs.  The calls and warnings of the task of a source
    are listed with the source; in time they may fall between the lookups
    of later sources.  The lines of [log.info], which are printed in
    verbose mode only, are left out. *)
Inductive event : Type :=
| Called (c : call)
| Logged (w : warning).

(** How the call ends: it returns the markup; its promise rejects, which
    the caller can catch; or a task rejects while nothing handles it yet,
    and the runtime ends the process. *)
Inductive ending : Type :=
| Returned (html : string)
| Rejects
| Dies.

Section Resolver.

(** [fsp.stat(p).catch(() => null)], with [None] for [null] *)
Variable fs_stat : string -> option stats.
(** [fsp.readFile(p)]: the bytes, or [None] when the promise rejects.  A
    file read as [utf8] is taken to be its bytes (exact for ASCII). *)
Variable fs_read : string -> option string.
Variable isAbsolute : string -> bool.
Variable resolve : string -> string -> string.
Variable extname : string -> string.
(** [new URL("file://" + p).href] *)
Variable file_href : string -> string.
(** [convertPdfToSvg]: the path of the converted file, or [None] for
    [null] (the function has then logged why). *)
Variable convertPdfToSvg : string -> option string.
(** [path.join(a, b)] *)
Variable path_join : string -> string -> string.
(** [fsp.mkdir(p, { recursive: true })] and [fsp.unlink(p)]: whether the
    promise is fulfilled *)
Variable mkdir : string -> bool.
Variable unlink : string -> bool.
(** [fsp.readdir(p)]: the names, or [None] when the promise rejects *)
Variable readdir : string -> option (list string).
(** [interrupts p k]: the task created for the source [p] rejects while
    the loop awaits the [stat] of the later source [k], no handler is
    attached to it yet, and the runtime ends the process on the unhandled
    rejection (the default of Node.js since version 15).  Whether this
    happens depends on the time the calls take. *)
Variable interrupts : string -> string -> bool.

Variables (baseDir : string) (embedBase64 : bool).

Definition tempDir : string := path_join baseDir ".md2pdf_temp".

Definition read_as (f : string -> imageInfo) (path : string) : outcome :=
  match fs_read path with
  | Some bytes => Entry [] (f bytes)
  | None => Rejected
  end.

Definition svg_data (bytes : string) : imageInfo :=
  ImageInfo base64 (data_url "image/svg+xml" bytes).

Definition resolve_pdf (absPath : string) : outcome :=
  if embedBase64 then
    match convertPdfToSvg absPath with
    | Some svgPath =>
        match fs_stat svgPath with
        | Some svgStat =>
            if over_1MB (size svgStat) then read_as svg_data svgPath
            else read_as (ImageInfo svg) svgPath
        | None => Rejected
        end
    | None => Deleted [PdfConversionFailed absPath]
    end
  else Entry [PdfEmbedRecommended absPath] (ImageInfo file (file_href absPath)).

Definition resolve_src (src : string) : outcome :=
  if is_remote src then Untouched [] else
  let absPath := if isAbsolute src then src else resolve baseDir src in
  match fs_stat absPath with
  | None => Untouched [ImageNotFound absPath]
  | Some stat =>
      if negb (isFile stat) then Untouched [ImageNotFound absPath] else
      let ext := toLowerCase (skip 1 (extname absPath)) in
      if String.eqb ext "pdf" then resolve_pdf absPath
      else if negb (has supportedExts ext) then Untouched [UnsupportedFormat ext]
      else if String.eqb ext "svg" then
        if over_1MB (size stat) then
          if embedBase64 then read_as svg_data absPath
          else Entry [] (ImageInfo file (file_href absPath))
        else read_as (ImageInfo svg) absPath
      else if embedBase64 then
        read_as (fun bytes => ImageInfo base64 (data_url (mimeType ext) bytes))
                absPath
      else Entry [] (ImageInfo file (file_href absPath))
  end.

(** *** Substitution pass *)

Definition group (n : nat) (h : hit) : string := nth n (groups h) "".

(** The attributes of the image element, by lower-cased name. *)
Definition attrMap (allAttributes : string) : list (string * string) :=
  fold_left
    (fun m ph => set (toLowerCase (group 0 (snd ph))) (group 1 (snd ph)) m)
    (fst (scan attrRegex allAttributes)) [].

Definition attribute (name value : string) : string :=
  name ++ "=" ++ dq ++ value ++ dq.

(** The steps for [width] and for [height] *)
Definition add_dimension (name : string) (attrs : list (string * string))
    (svgContent : string) : string :=
  match lookup name attrs with
  | Some value =>
      replace_first svgRegex
        (Fn (fun h =>
               if negb (test (definesRegex name) (group 0 h))
               then "<svg" ++ group 0 h ++ " " ++ attribute name value ++ ">"
               else whole h))
        svgContent
  | None => svgContent
  end.

Definition add_title (attrs : list (string * string)) (svgContent : string)
  : string :=
  match lookup "alt" attrs with
  | Some altText =>
      if negb (test titleRegex svgContent)
      then replace_first svgRegex
             (Text ("<svg$1><title>" ++ altText ++ "</title>")) svgContent
      else svgContent
  | None => svgContent
  end.

Definition otherAttrs (attrs : list (string * string)) : list string :=
  List.map (fun kv => attribute (fst kv) (snd kv))
    (filter (fun kv => negb (has ["width"; "height"; "alt"; "src"] (fst kv)))
       attrs).

Definition add_others (attrs : list (string * string)) (svgContent : string)
  : string :=
  match otherAttrs attrs with
  | [] => svgContent
  | others =>
      replace_first svgRegex
        (Fn (fun h => "<svg" ++ group 0 h ++ " " ++ join " " others ++ ">"))
        svgContent
  end.

(** The markup that takes the place of an image element whose entry is of
    type [svg]. *)
Definition splice (m : imageMatch) (svgText : string) : string :=
  let attrs := attrMap (trim (beforeSrc m ++ afterSrc m)) in
  add_others attrs
    (add_title attrs
       (add_dimension "height" attrs (add_dimension "width" attrs svgText))).

(** The splice in the words of the amended claim.  A text whose first
    opening tag of the drawing has the attribute text [rootAttrs]; what the
    image element adds for a dimension, which is nothing when that attribute
    text defines the dimension; the other attributes it passes through; and
    the title element for its alternative text, which is omitted when the
    text has a title already. *)
Definition svg_text (pre rootAttrs rest : string) : string :=
  pre ++ "<svg" ++ rootAttrs ++ ">" ++ rest.

Definition carried (name : string) (attrs : list (string * string))
    (rootAttrs : string) : string :=
  match lookup name attrs with
  | Some value =>
      if test (definesRegex name) rootAttrs then ""
      else " " ++ attribute name value
  | None => ""
  end.

Definition passed_through (attrs : list (string * string)) : string :=
  match otherAttrs attrs with
  | [] => ""
  | others => " " ++ join " " others
  end.

Definition title_for (attrs : list (string * string)) (svgContent : string)
  : string :=
  match lookup "alt" attrs with
  | Some altText =>
      if test titleRegex svgContent then ""
      else "<title>" ++ altText ++ "</title>"
  | None => ""
  end.

(** The match of the pattern at an opening tag with attribute text [a]. *)
Definition opening (a : string) (post : string) : hit :=
  Hit ("<svg" ++ a ++ ">") [a] post.

(** No attribute name or value holds the character that closes a tag. *)
Definition tag_safe (attrs : list (string * string)) : bool :=
  forallb (fun kv => all (not_char ">") (fst kv) && all (not_char ">") (snd kv))
    attrs.

(** The root's attribute text holds [attribute name value] behind a blank. *)
Definition root_has (name value : string) (svgContent : string) : bool :=
  match search svgRegex svgContent with
  | Some (_, h) => includes (" " ++ attribute name value) (group 0 h)
  | None => false
  end.

Definition rewritten (m : imageMatch) (i : imageInfo) : string :=
  "<img" ++ beforeSrc m ++ "src=" ++ dq ++ content i ++ dq ++ afterSrc m ++ ">".

(** One turn of the substitution loop; [get] is [imageMap.get]. *)
Definition replace_image (get : string -> option imageInfo) (result : string)
    (m : imageMatch) : string :=
  match get (src m) with
  | None => result
  | Some i =>
      match type i with
      | svg => replace_string (fullMatch m) (splice m (content i)) result
      | _ => replace_string (fullMatch m) (rewritten m i) result
      end
  end.

(** [imageMap] once every task has settled.  Each source is the key of one
    entry and is written by its own resolution only, so the order in which
    the tasks complete does not show. *)
Definition imageMap (ms : list imageMatch) : list (string * outcome) :=
  List.map (fun k => (k, resolve_src k)) (sources ms).

Definition get (im : list (string * outcome)) (k : string)
  : option imageInfo :=
  match lookup k im with
  | Some (Entry _ i) => Some i
  | _ => None
  end.

Definition warnings_of (o : outcome) : list warning :=
  match o with
  | Untouched w | Entry w _ | Deleted w => w
  | Rejected => []
  end.

Definition is_rejected (o : outcome) : bool :=
  match o with Rejected => true | _ => false end.

(** *** Calls *)

(** The calls made for a PDF figure, and for any source: the ones of
    [resolve_src], branch by branch.  The calls of a task are listed where
    the task is created; in a run they may come later, up to the point
    where [Promise.all] is awaited. *)
Definition calls_pdf (absPath : string) : list call :=
  if embedBase64 then
    Convert absPath tempDir
    :: match convertPdfToSvg absPath with
       | Some svgPath =>
           Stat svgPath
           :: match fs_stat svgPath with
              | Some _ => [ReadFile svgPath]
              | None => []
              end
       | None => []
       end
  else [].

Definition calls_src (src : string) : list call :=
  if is_remote src then [] else
  let absPath := if isAbsolute src then src else resolve baseDir src in
  Stat absPath
  :: match fs_stat absPath with
     | None => []
     | Some stat =>
         if negb (isFile stat) then [] else
         let ext := toLowerCase (skip 1 (extname absPath)) in
         if String.eqb ext "pdf" then calls_pdf absPath
         else if negb (has supportedExts ext) then []
         else if String.eqb ext "svg" then
           if over_1MB (size stat) then
             if embedBase64 then [ReadFile absPath] else []
           else [ReadFile absPath]
         else if embedBase64 then [ReadFile absPath] else []
     end.

(** What the loop does for one source: its calls, then its warnings. *)
Definition events_src (src : string) : list event :=
  (List.map Called (calls_src src)
   ++ List.map Logged (warnings_of (resolve_src src)))%list.

(** The file that the task of a source pushes to [tempFiles]: the drawing
    converted from a PDF figure. *)
Definition converted (src : string) : option string :=
  if is_remote src then None else
  let absPath := if isAbsolute src then src else resolve baseDir src in
  match fs_stat absPath with
  | None => None
  | Some stat =>
      if isFile stat
         && String.eqb (toLowerCase (skip 1 (extname absPath))) "pdf"
         && embedBase64
      then convertPdfToSvg absPath else None
  end.

(** [tempFiles], in the order of the keys; the order in which the
    conversions complete does not show in the markup. *)
Definition tempFiles (keys : list string) : list string :=
  flat_map (fun k => match converted k with Some p => [p] | None => [] end)
    keys.

(** The loop over the keys.  [pending] holds the sources passed whose task
    rejects.  The loop awaits one call for each source that is not remote,
    its [stat]; when a pending rejection interrupts that, the process ends
    there ([true]), before anything else is done for the source. *)
Fixpoint visit (pending keys : list string) : list event * bool :=
  match keys with
  | [] => ([], false)
  | k :: keys' =>
      if negb (is_remote k) && existsb (fun p => interrupts p k) pending
      then ([Called (Stat (if isAbsolute k then k else resolve baseDir k))],
            true)
      else
        let later :=
          visit (if is_rejected (resolve_src k)
                 then (pending ++ [k])%list else pending) keys' in
        ((events_src k ++ fst later)%list, snd later)
  end.

(** After the substitution: the converted files are removed, and the
    temporary directory when it is empty.  A failure of [readdir] or of
    [rmdir] is caught and ignored. *)
Definition cleanup (keys : list string) : list event :=
  (flat_map (fun p => Called (Unlink p)
                      :: if unlink p then []
                         else [Logged (TempFileNotRemoved p)])
     (tempFiles keys)
   ++ Called (Readdir tempDir)
      :: match readdir tempDir with
         | Some [] => [Called (Rmdir tempDir)]
         | _ => []
         end)%list.

(** The call as a whole.  It begins with the creation of the temporary
    directory, whatever the markup holds.  When a task rejects, the call
    rejects at [Promise.all] and leaves the converted files where they
    are. *)
Definition processImages (html : string) : list event * ending :=
  let ms := imageMatches html in
  let im := imageMap ms in
  let start :=
    Called (Mkdir tempDir)
    :: if mkdir tempDir then [] else [Logged (TempDirFailed tempDir)] in
  let loop := visit [] (sources ms) in
  if snd loop then ((start ++ fst loop)%list, Dies)
  else if existsb (fun ko => is_rejected (snd ko)) im
  then ((start ++ fst loop)%list, Rejects)
  else ((start ++ fst loop ++ cleanup (sources ms))%list,
        Returned (fold_left (replace_image (get im)) ms html)).

End Resolver.

Definition logged (events : list event) : list warning :=
  flat_map (fun e => match e with Logged w => [w] | Called _ => [] end) events.

(** The markup a call returns and the warnings it has logged; [None] when
    it does not return. *)
Definition returned (r : list event * ending)
  : option (string * list warning) :=
  match snd r with
  | Returned html => Some (html, logged (fst r))
  | Rejects | Dies => None
  end.

End Images.

(** ** Assembly *)

Definition headingNumberRules : string :=
  nl ++ ".markdown-body { counter-reset: h2counter; }" ++ nl ++
  ".markdown-body h2 { counter-increment: h2counter; counter-reset: h3counter; }" ++ nl ++
  ".markdown-body h2::before { content: counter(h2counter) " ++ dq ++ ". " ++ dq ++ "; }" ++ nl ++
  ".markdown-body h3 { counter-increment: h3counter; counter-reset: h4counter; }" ++ nl ++
  ".markdown-body h3::before { content: counter(h2counter) " ++ dq ++ "." ++ dq ++ " counter(h3counter) " ++ dq ++ ". " ++ dq ++ "; }" ++ nl ++
  ".markdown-body h4 { counter-increment: h4counter; counter-reset: h5counter; }" ++ nl ++
  ".markdown-body h4::before { content: counter(h2counter) " ++ dq ++ "." ++ dq ++ " counter(h3counter) " ++ dq ++ "." ++ dq ++ " counter(h4counter) " ++ dq ++ ". " ++ dq ++ "; }" ++ nl ++
  ".markdown-body h5 { counter-increment: h5counter; counter-reset: h6counter; }" ++ nl ++
  ".markdown-body h5::before { content: counter(h2counter) " ++ dq ++ "." ++ dq ++ " counter(h3counter) " ++ dq ++ "." ++ dq ++ " counter(h4counter) " ++ dq ++ "." ++ dq ++ " counter(h5counter) " ++ dq ++ ". " ++ dq ++ "; }" ++ nl ++
  ".markdown-body h6 { counter-increment: h6counter; }" ++ nl ++
  ".markdown-body h6::before { content: counter(h2counter) " ++ dq ++ "." ++ dq ++ " counter(h3counter) " ++ dq ++ "." ++ dq ++ " counter(h4counter) " ++ dq ++ "." ++ dq ++ " counter(h5counter) " ++ dq ++ "." ++ dq ++ " counter(h6counter) " ++ dq ++ ". " ++ dq ++ "; }".

Definition buildHeadingNumberCSS (enabled : bool) : string :=
  if negb enabled then "" else headingNumberRules.

Record config : Type :=
  Config { FONT_SIZE : string; LINE_HEIGHT : string; PADDING_X : string;
           PADDING_Y : string; CODE_FONT_SCALE : string; PAGE_BG : string;
           CODE_BG : string; MAX_WIDTH : string; AUTO_NUMBER : bool }.

(** [/\/\*\{\{HEADING_NUMBER_CSS\}\}\*\//g] *)
Definition numberingPlaceholder : regex :=
  [ Lit false "/*{{HEADING_NUMBER_CSS}}*/" ].

(** [/\{\{NAME\}\}/g] *)
Definition placeholder (name : string) : regex :=
  [ Lit false ("{{" ++ name ++ "}}") ].

Definition fill (name value : string) (s : string) : string :=
  replace_all (placeholder name) (Text value) s.

(** [autoNumber !== undefined ? autoNumber : cfg.AUTO_NUMBER] *)
Definition enableNumbering (autoNumber : option bool) (cfg : config) : bool :=
  match autoNumber with
  | Some b => b
  | None => AUTO_NUMBER cfg
  end.

(** The chain of replacements applied to the template. *)
Definition fill_template (tmpl headingNumberCSS title body : string)
    (cfg : config) : string :=
  fill "MAX_WIDTH" (MAX_WIDTH cfg)
    (fill "CODE_BG" (CODE_BG cfg)
      (fill "PAGE_BG" (PAGE_BG cfg)
        (fill "CODE_FONT_SCALE" (CODE_FONT_SCALE cfg)
          (fill "PADDING_Y" (PADDING_Y cfg)
            (fill "PADDING_X" (PADDING_X cfg)
              (fill "LINE_HEIGHT" (LINE_HEIGHT cfg)
                (fill "FONT_SIZE" (FONT_SIZE cfg)
                  (fill "BODY" body
                    (fill "TITLE" title
                      (replace_all numberingPlaceholder (Text headingNumberCSS)
                         tmpl)))))))))).

(** The first candidate file that can be read. *)
Fixpoint first_read (candidates : list (option string)) : option string :=
  match candidates with
  | [] => None
  | Some text :: _ => Some text
  | None :: rest => first_read rest
  end.

(** [candidates] holds, for [template.html] in the working directory and
    next to the script, the text read or [None] when the read throws.  The
    result is [None] when [buildHtml] throws. *)
Definition buildHtml (candidates : list (option string))
    (title body : string) (cfg : config) (autoNumber : option bool)
  : option string :=
  let headingNumberCSS := buildHeadingNumberCSS (enableNumbering autoNumber cfg) in
  match first_read candidates with
  | None => None
  | Some tmpl =>
      if String.eqb tmpl "" then None
      else Some (fill_template tmpl headingNumberCSS title body cfg)
  end.



(** In [main]: the numbering setting of the front matter. *)
Definition autoNumber (frontMatter : value) : option bool :=
  let auto_number := prop frontMatter "auto_number" in
  if negb (is_undefined auto_number)
  then Some (negb (is_false auto_number) && negb (is_string "false" auto_number))
  else None.

(** ** Sample inputs *)

Module Sample.

(** What js-yaml returns for small documents: nothing for one of white
    space only, a mapping, nothing for a document that holds a comment
    only, and an exception for a flow sequence that is not closed. *)
Definition yaml_load (text : string) : loaded :=
  if all is_space text then Loaded VUndefined
  else if String.eqb text "a: 1" then Loaded (VObj [("a", VNum 1)])
  else if String.eqb text "# draft" then Loaded VUndefined
  else if String.eqb text "a: [" then
    Thrown "unexpected end of the stream within a flow collection"
  else Thrown "not a sample".

Definition fenced (metadata body : string) : string :=
  "---" ++ nl ++ metadata ++ nl ++ "---" ++ nl ++ body.

(** A directory [/doc] with a raster image, a small drawing, and a drawing
    of exactly one mebibyte. *)
Definition big_svg : string :=
  "<svg>" ++ N.iter 1048565 (String "x") "</svg>".

Definition logo_svg : string :=
  "<svg width=" ++ dq ++ "500" ++ dq ++ " class=" ++ dq ++ "logo" ++ dq
  ++ "><g/></svg>".

Definition contents : list (string * string) :=
  [ ("/doc/a.png", "PNG"); ("/doc/logo.svg", logo_svg);
    ("/doc/big.svg", big_svg) ].

Definition sizes : list (string * N) :=
  [ ("/doc/a.png", 3%N); ("/doc/logo.svg", 40%N);
    ("/doc/big.svg", 1048576%N) ].

Definition fs_stat (path : string) : option Images.stats :=
  match lookup path sizes with
  | Some n => Some (Images.Stats true n)
  | None =>
      if String.eqb path "/doc" then Some (Images.Stats false 4096%N) else None
  end.

Definition fs_read (path : string) : option string := lookup path contents.

Definition isAbsolute (path : string) : bool :=
  match path with
  | String a _ => Ascii.eqb a "/"
  | "" => false
  end.

(** [path.resolve] and [path.extname] on the plain file names of the
    samples. *)
Definition resolve (base name : string) : string := base ++ "/" ++ name.

Fixpoint from_last_dot (path : string) (found : option string) : option string :=
  match path with
  | "" => found
  | String a path' =>
      from_last_dot path'
        (if Ascii.eqb a "." then Some path
         else if Ascii.eqb a "/" then None else found)
  end.

Definition extname (path : string) : string :=
  match from_last_dot path None with Some e => e | None => "" end.

Definition file_href (path : string) : string := "file://" ++ path.

(** No Poppler on the machine. *)
Definition convertPdfToSvg (_ : string) : option string := None.

Definition path_join (a b : string) : string := a ++ "/" ++ b.

(** Every directory can be made and every file removed; the temporary
    directory is empty at the end; no rejection goes unhandled. *)
Definition mkdir (_ : string) : bool := true.
Definition unlink (_ : string) : bool := true.
Definition readdir (_ : string) : option (list string) := Some [].
Definition interrupts (_ _ : string) : bool := false.

Definition resolve_src : string -> Images.outcome :=
  Images.resolve_src fs_stat fs_read isAbsolute resolve extname file_href
    convertPdfToSvg "/doc" true.

Definition processImages : string -> list Images.event * Images.ending :=
  Images.processImages fs_stat fs_read isAbsolute resolve extname file_href
    convertPdfToSvg path_join mkdir unlink readdir interrupts "/doc" true.

Definition img (attributes : string) : string := "<img " ++ attributes ++ ">".

Definition attr (name value : string) : string :=
  name ++ "=" ++ dq ++ value ++ dq.

(** An image element for the small drawing, and its match. *)
Definition hero : string :=
  img (attr "src" "logo.svg" ++ " " ++ attr "alt" "Logo" ++ " "
       ++ attr "width" "100" ++ " " ++ attr "class" "hero").

Definition hero_match : Images.imageMatch :=
  Images.ImageMatch hero "" "logo.svg"
    (" " ++ attr "alt" "Logo" ++ " " ++ attr "width" "100" ++ " "
     ++ attr "class" "hero").

End Sample.

(** ** Command line *)

Module Cli.

(** The two errors [parseArgs] throws: an argument that begins with two
    hyphens and is no known flag, named in the message, and the usage
    line. *)
Inductive error : Type :=
| UnknownFlag (arg : string)
| Usage.

Record cli : Type :=
  Cli { input : string; output : option string; verbose : bool;
        saveHtml : bool }.

(** [flags.add(x)] on a [Set] *)
Definition add (x : string) (flags : list string) : list string :=
  if Images.has flags x then flags else (flags ++ [x])%list.

Definition startsWith (p s : string) : bool :=
  match starts p s with Some _ => true | None => false end.

(** The loop over [argv.slice(2)]: the flags seen and the positional
    arguments in order, or the error thrown on the way. *)
Fixpoint collect (args flags pos : list string)
  : error + (list string * list string) :=
  match args with
  | [] => inr (flags, pos)
  | arg :: args' =>
      if String.eqb arg "-v" || String.eqb arg "--verbose"
      then collect args' (add "verbose" flags) pos
      else if String.eqb arg "--save-html"
      then collect args' (add "saveHtml" flags) pos
      else if startsWith "--" arg then inl (UnknownFlag arg)
      else collect args' flags (pos ++ [arg])%list
  end.

(** [pos[1] || null] *)
Definition or_null (s : option string) : option string :=
  match s with
  | Some t => if String.eqb t "" then None else Some t
  | None => None
  end.

Definition parseArgs (argv : list string) : error + cli :=
  match collect (skipn 2 argv) [] [] with
  | inl e => inl e
  | inr (flags, pos) =>
      if (List.length pos <? 1)%nat || (2 <? List.length pos)%nat then inl Usage
      else inr (Cli (nth 0 pos "") (or_null (nth_error pos 1))
                    (Images.has flags "verbose") (Images.has flags "saveHtml"))
  end.

(** The kinds of argument the loop tells apart. *)
Definition is_verbose (arg : string) : bool :=
  String.eqb arg "-v" || String.eqb arg "--verbose".

Definition is_saveHtml (arg : string) : bool := String.eqb arg "--save-html".

Definition is_flag (arg : string) : bool := is_verbose arg || is_saveHtml arg.

Definition is_unknown (arg : string) : bool :=
  negb (is_flag arg) && startsWith "--" arg.

Definition is_positional (arg : string) : bool :=
  negb (is_flag arg) && negb (startsWith "--" arg).

End Cli.

(** ** Configuration *)

Module Config.

(** The settings [buildConfig] adds to those of the page ([config]): the
    object of the script is flat, and holds the fields of both records. *)
Record settings : Type :=
  Settings { page : config; SAVE_HTML : bool; VERBOSE : bool;
             PDF_FORMAT : string; PDF_SCALE : value;
             PDF_MARGIN_TOP : string; PDF_MARGIN_RIGHT : string;
             PDF_MARGIN_BOTTOM : string; PDF_MARGIN_LEFT : string;
             PDF_PRINT_BG : bool }.

Section Environment.

(** [process.env[key]], with [None] for [undefined] *)
Variable process_env : string -> option string.
(** [Number(text)] *)
Variable Number : string -> value.

(** [process.env[key] ?? defaultValue] *)
Definition env (key defaultValue : string) : string :=
  match process_env key with
  | Some text => text
  | None => defaultValue
  end.

(** [text !== DQ 0 DQ] *)
Definition is_on (text : string) : bool := negb (String.eqb text "0").

Definition buildConfig (cli : Cli.cli) : settings :=
  Settings
    (Config (env "MD2HTML_FONT_SIZE" "14px")
            (env "MD2HTML_LINE_HEIGHT" "1.6")
            (env "MD2HTML_PADDING_X" "32px")
            (env "MD2HTML_PADDING_Y" "24px")
            (env "MD2HTML_CODE_FONT_SCALE" "1em")
            (env "MD2HTML_PAGE_BG" "#fff")
            (env "MD2HTML_CODE_BG" "#f6f8fa")
            (env "MD2HTML_MAX_WIDTH" "auto")
            (is_on (env "MD2HTML_AUTO_NUMBER" "1")))
    (Cli.saveHtml cli || is_on (env "MD2PDF_SAVE_HTML" "0"))
    (Cli.verbose cli || is_on (env "MD2PDF_VERBOSE" "0"))
    (env "MD2PDF_FORMAT" "A4")
    (Number (env "MD2PDF_SCALE" "1"))
    (env "MD2PDF_MARGIN_TOP" "20mm")
    (env "MD2PDF_MARGIN_RIGHT" "12mm")
    (env "MD2PDF_MARGIN_BOTTOM" "16mm")
    (env "MD2PDF_MARGIN_LEFT" "12mm")
    (is_on (env "MD2PDF_PRINT_BG" "1")).

End Environment.

End Config.

(** ** Effects *)

(** A computation that performs external calls, may throw, and otherwise
    returns a value: the calls made in order, and how it ended. *)
Module Trace.

Definition M (E X A : Type) : Type := (list E * (X + A))%type.

Definition ret {E X A : Type} (a : A) : M E X A := ([], inr a).

Definition bind {E X A B : Type} (m : M E X A) (k : A -> M E X B) : M E X B :=
  match m with
  | (t, inl x) => (t, inl x)
  | (t, inr a) => ((t ++ fst (k a))%list, snd (k a))
  end.

Definition emit {E X : Type} (e : E) : M E X unit := ([e], inr tt).

Definition emit_all {E X : Type} (l : list E) : M E X unit := (l, inr tt).

Definition throw {E X A : Type} (x : X) : M E X A := ([], inl x).

(** [try { m } finally { cleanup }] for a cleanup that cannot throw: it
    runs however [m] ends, and [m]'s ending stands. *)
Definition finally {E X A : Type} (m : M E X A) (cleanup : list E) : M E X A :=
  ((fst m ++ cleanup)%list, snd m).

Definition trace {E X A : Type} (m : M E X A) : list E := fst m.

Definition ending {E X A : Type} (m : M E X A) : X + A := snd m.

End Trace.

Import Trace.

Declare Scope trace_scope.
Delimit Scope trace_scope with trace.
Notation "x <- m ;; k" := (bind m (fun x => k))
  (at level 61, m at next level, right associativity) : trace_scope.
Notation "m ;; k" := (bind m (fun _ => k))
  (at level 61, right associativity) : trace_scope.

(** ** Conversion of a PDF figure *)

Module Poppler.

(** What the child process emits: a chunk on its standard error, its end
    with an exit code ([None] for [null], when a signal ended it), or an
    [error] event with the code and the message of the error. *)
Inductive event : Type :=
| Data (chunk : string)
| Close (code : option Z)
| Failed (code : option string) (message : string).

(** What follows the path in the warning of a failed run: the trimmed error
    output, or the exit code when there is none. *)
Inductive detail : Type :=
| Stderr (text : string)
| ExitCode (code : option Z).

(** The lines given to [log.warn], by message. *)
Inductive notice : Type :=
| ConvertedFileMissing (svgPath : string)
| ConversionFailed (pdfPath : string) (d : detail)
| MaybeNotInstalled
| CommandNotFound
| HowToInstall
| MacHint
| LinuxHint
| ConversionError (pdfPath message : string).

(** The error output so far, the value the promise was resolved with (if it
    was), and the warnings. *)
Record state : Type :=
  State { stderr : string; settled : option (option string);
          logged : list notice }.

Section Conversion.

Variable fs_stat : string -> option Images.stats.
Variable join : string -> string -> string.
Variable basename : string -> string -> string.
(** [Date.now()], in decimal *)
Variable now : string.

Variables (pdfPath outputDir : string).

Definition svgPath : string :=
  join outputDir (basename pdfPath ".pdf" ++ "_" ++ now ++ ".svg").

Definition warn (l : list notice) (s : state) : state :=
  State (stderr s) (settled s) (logged s ++ l)%list.

(** [resolve(v)]: the first call settles the promise, a later one does
    nothing. *)
Definition resolve (v : option string) (s : state) : state :=
  match settled s with
  | None => State (stderr s) (Some v) (logged s)
  | Some _ => s
  end.

Definition is_zero (code : option Z) : bool :=
  match code with Some z => Z.eqb z 0 | None => false end.

Definition is_ENOENT (code : option string) : bool :=
  match code with Some c => String.eqb c "ENOENT" | None => false end.

Definition found (p : string) : bool :=
  match fs_stat p with Some st => Images.isFile st | None => false end.

Definition on_close (code : option Z) (s : state) : state :=
  if is_zero code then
    if found svgPath then resolve (Some svgPath) s
    else resolve None (warn [ConvertedFileMissing svgPath] s)
  else
    let d := if negb (String.eqb (trim (stderr s)) "")
             then Stderr (trim (stderr s)) else ExitCode code in
    let hints :=
      if includes "pdftocairo: not found" (stderr s)
         || includes "command not found" (stderr s)
      then [MaybeNotInstalled; MacHint; LinuxHint] else [] in
    resolve None (warn (ConversionFailed pdfPath d :: hints) s).

Definition on_error (code : option string) (message : string) (s : state)
  : state :=
  resolve None
    (warn (if is_ENOENT code
           then [CommandNotFound; HowToInstall; MacHint; LinuxHint]
           else [ConversionError pdfPath message]) s).

Definition handle (s : state) (e : event) : state :=
  match e with
  | Data chunk => State (stderr s ++ chunk) (settled s) (logged s)
  | Close code => on_close code s
  | Failed code message => on_error code message s
  end.

(** What an event other than a chunk of error output resolves a pending
    promise with. *)
Definition decided (e : event) : option string :=
  match e with
  | Close code => if is_zero code && found svgPath then Some svgPath else None
  | _ => None
  end.

(** The promise and the log after the events of the child process, in the
    order of their arrival.  [settled] is [None] while the promise is
    pending, [Some None] once it is resolved with [null].  The [stat] of
    the handler of [close] is taken to answer before the next event. *)
Definition convertPdfToSvg (events : list event) : state :=
  fold_left handle events (State "" None []).

End Conversion.

Definition is_data (e : event) : bool :=
  match e with Data _ => true | _ => false end.

End Poppler.

(** ** Printing *)

Module Render.

Import Config.

(** How an awaited call of the browser ends. *)
Inductive outcome : Type :=
| Done
| Throws (message : string).

(** The places where the function asks whether the page is closed
    ([pageClosed || page.isClosed()]), in the order of the source. *)
Inductive checkpoint : Type :=
| LoadCatch | AfterLoad | DomCatch | AfterDom | ImagesCatch | AfterImages
| TypesetCatch | AfterTypeset | Final | BeforePdf | PdfCatch | Cleanup.

(** Why the load failed: an exception of the browser, or neither a path
    nor a text to load. *)
Inductive cause : Type :=
| External (message : string)
| ContentRequired.

(** The errors the function rejects with, by message. *)
Inductive error : Type :=
| Raw (message : string)
| ClosedWhileLoading (c : cause)
| LoadFailed (c : cause)
| PageClosed (at_ : checkpoint)
| ClosedDuring (at_ : checkpoint)
| ClosedWhilePrinting (message : string).

(** The argument of [page.pdf], without its constant fields; [header] is
    the date shown by the header template. *)
Record options : Type :=
  Options { path : string; format : string; scale : value;
            printBackground : bool; top : string; right : string;
            bottom : string; left : string; header : string }.

Definition pdf_options (pdfPath : string) (cfg : settings) (dateStr : string)
  : options :=
  Options pdfPath (PDF_FORMAT cfg) (PDF_SCALE cfg) (PDF_PRINT_BG cfg)
          (PDF_MARGIN_TOP cfg) (PDF_MARGIN_RIGHT cfg) (PDF_MARGIN_BOTTOM cfg)
          (PDF_MARGIN_LEFT cfg) dateStr.

(** The lines given to [console.warn], by message. *)
Inductive notice : Type :=
| LargeHtml (hundredths : N)
| ImageWaitFailed (message : string)
| RenderingFailed (message : string).

Inductive call : Type :=
| Launch
| NewPage
| Goto (href : string)
| SetContent (html : string)
| WaitReady
| WaitImages
| Typeset
| Pdf (o : options)
| ClosePage
| CloseBrowser
| Warned (n : notice).

(** The browser of one run: how each call ends, and what the closed test
    gives at each place.  The [error] events of the page, which only print
    a warning, are left out. *)
Record browser : Type :=
  Browser { launch : outcome; newPage : outcome;
            goto : string -> outcome; setContent : string -> outcome;
            waitReady : outcome; waitImages : outcome; typeset : outcome;
            pdf : options -> outcome;
            closePage : outcome; closeBrowser : outcome;
            closed : checkpoint -> bool }.

(** The calls of the body of the [try] once the page is open, and those
    among them that come after the document was handed to the page. *)
Definition is_work (c : call) : Prop :=
  match c with
  | Launch | NewPage | ClosePage | CloseBrowser => False
  | _ => True
  end.

Definition is_later (c : call) : Prop :=
  match c with
  | WaitReady | WaitImages | Typeset | Pdf _
  | Warned (ImageWaitFailed _) | Warned (RenderingFailed _) => True
  | _ => False
  end.

Local Open Scope trace_scope.

Section Printing.

Variable b : browser.
(** [new URL("file://" + p).href], taken not to throw *)
Variable file_href : string -> string.

(** A string or [null], as a condition *)
Definition given (s : option string) : option string :=
  match s with
  | Some t => if String.eqb t "" then None else Some t
  | None => None
  end.

(** [(html.length / 1024 / 1024).toFixed(2)], in hundredths: the division
    is exact, and [toFixed] rounds to the nearest hundredth, upwards from
    the middle. *)
Definition size_hundredths (html : string) : N :=
  ((200 * N.of_nat (String.length html) + 1048576) / 2097152)%N.

(** [htmlSizeMB > 10] *)
Definition size_notice (html : string) : list call :=
  if (1000 <? size_hundredths html)%N
  then [Warned (LargeHtml (size_hundredths html))] else [].

Definition check (at_ : checkpoint) : M call error unit :=
  if closed b at_ then throw (PageClosed at_) else ret tt.

(** An awaited call inside a [try] whose [catch] first asks whether the
    page is closed. *)
Definition guarded (c : call) (o : outcome) (at_ : checkpoint)
    (when_closed : string -> error) (otherwise : string -> M call error unit)
  : M call error unit :=
  emit c ;;
  match o with
  | Done => ret tt
  | Throws message =>
      if closed b at_ then throw (when_closed message) else otherwise message
  end.

Definition load (html htmlPath : option string) : M call error unit :=
  let attempt : list call * option cause :=
    match given htmlPath with
    | Some p =>
        ([Goto (file_href p)],
         match goto b (file_href p) with
         | Done => None
         | Throws message => Some (External message)
         end)
    | None =>
        match given html with
        | Some text =>
            ((size_notice text ++ [SetContent text])%list,
             match setContent b text with
             | Done => None
             | Throws message => Some (External message)
             end)
        | None => ([], Some ContentRequired)
        end
    end in
  emit_all (fst attempt) ;;
  match snd attempt with
  | None => ret tt
  | Some c =>
      if closed b LoadCatch then throw (ClosedWhileLoading c)
      else throw (LoadFailed c)
  end.

(** The document was handed to the page: by its path when one is given, by
    its text otherwise. *)
Definition loaded_page (html htmlPath : option string) : Prop :=
  match given htmlPath with
  | Some p => goto b (file_href p) = Done
  | None =>
      match given html with
      | Some text => setContent b text = Done
      | None => False
      end
  end.

(** The body of the outer [try], after the page was opened. *)
Definition session (html htmlPath : option string) (pdfPath : string)
    (cfg : settings) (dateStr : string) : M call error unit :=
  load html htmlPath ;;
  check AfterLoad ;;
  guarded WaitReady (waitReady b) DomCatch (fun _ => ClosedDuring DomCatch)
    (fun message => throw (Raw message)) ;;
  check AfterDom ;;
  guarded WaitImages (waitImages b) ImagesCatch
    (fun _ => ClosedDuring ImagesCatch)
    (fun message => emit (Warned (ImageWaitFailed message))) ;;
  check AfterImages ;;
  guarded Typeset (typeset b) TypesetCatch (fun _ => ClosedDuring TypesetCatch)
    (fun message => emit (Warned (RenderingFailed message))) ;;
  check AfterTypeset ;;
  check Final ;;
  check BeforePdf ;;
  guarded (Pdf (pdf_options pdfPath cfg dateStr))
    (pdf b (pdf_options pdfPath cfg dateStr)) PdfCatch
    ClosedWhilePrinting (fun message => throw (Raw message)).

(** The [finally] of the function.  Both calls are inside a [try] with an
    empty [catch]: how they end does not show. *)
Definition cleanup (page : bool) : list call :=
  ((if page && negb (closed b Cleanup) then [ClosePage] else [])
   ++ [CloseBrowser])%list.

(** The calls made, and the error the promise rejects with ([inl]) or its
    fulfilment. *)
Definition renderPDF (html htmlPath : option string) (pdfPath : string)
    (cfg : settings) (dateStr : string) : M call error unit :=
  emit Launch ;;
  match launch b with
  | Throws message => throw (Raw message)
  | Done =>
      finally
        (emit NewPage ;;
         match newPage b with
         | Throws message => throw (Raw message)
         | Done => session html htmlPath pdfPath cfg dateStr
         end)
        (cleanup (match newPage b with Done => true | Throws _ => false end))
  end.

End Printing.

End Render.

(** ** The program *)

Module Program.

Import Config.

(** What ends the conversion: the error caught by [main], by origin; or
    the end of the process on a rejection that nothing handles, inside
    [processImages], which [main] does not catch. *)
Inductive failure : Type :=
| BadArguments (e : Cli.error)
| MkdirFailed (dir : string)
| ReadFailed (path : string)
| WriteFailed (path : string)
| ImagesRejected
| TemplateMissing
| PrintFailed (e : Render.error)
| UnhandledRejection.

(** The lines of [log.always]. *)
Inductive line : Type :=
| Started (baseName : string)
| HtmlGenerated (htmlOut : string)
| PdfGenerated (pdfOut : string)
| PrintHint
| PrintCommand (pdfOut : string).

(** The lines of [log.info], printed in verbose mode only. *)
Inductive progress : Type :=
| Mode (saveHtml : bool)
| Converting
| HtmlDone
| LargeHtmlSaved (length : nat)
| Launching
| LoadingFile (name : string)
| LoadingMemory
| Waiting
| Generating.

(** What [main] does to the world, in order: calls of [fs], its own and
    those of [processImages], the call of [convertPdfToSvg], lines printed,
    the calls of [renderPDF], the line of [console.error], and the report
    that the runtime prints when it ends the process on an unhandled
    rejection. *)
Inductive effect : Type :=
| Mkdir (dir : string)
| Stat (path : string)
| ReadFile (path : string)
| WriteFile (path text : string)
| Convert (pdfPath outputDir : string)
| Unlink (path : string)
| Readdir (dir : string)
| Rmdir (dir : string)
| Say (l : line)
| Info (p : progress)
| Warn (w : warning)
| UnlinkFailed (path : string)
| Browser (c : Render.call)
| Error (f : failure)
| Uncaught.

Definition is_info (e : effect) : bool :=
  match e with Info _ => true | _ => false end.

Definition is_error (e : effect) : Prop :=
  match e with Error _ => True | _ => False end.

(** The line that announces the PDF file. *)
Definition announces (e : effect) : Prop :=
  match e with Say (PdfGenerated _) => True | _ => False end.

(** The effects of the preparation: directories are made, files are read,
    figures converted, and the converted files and their directory removed;
    nothing is written, no closing line is printed, and the browser is not
    used. *)
Definition is_reading (e : effect) : Prop :=
  match e with
  | Mkdir _ | Stat _ | ReadFile _ | Convert _ _ | Unlink _ | Readdir _
  | Rmdir _ | Say (Started _) | Info _ | Warn _ => True
  | _ => False
  end.

(** An effect of [processImages] as an effect of [main]. *)
Definition asset (e : Images.event) : effect :=
  match e with
  | Images.Called (Images.Mkdir dir) => Mkdir dir
  | Images.Called (Images.Stat path) => Stat path
  | Images.Called (Images.ReadFile path) => ReadFile path
  | Images.Called (Images.Convert pdfPath outputDir) => Convert pdfPath outputDir
  | Images.Called (Images.Unlink path) => Unlink path
  | Images.Called (Images.Readdir dir) => Readdir dir
  | Images.Called (Images.Rmdir dir) => Rmdir dir
  | Images.Logged w => Warn w
  end.

(** What can follow the removal of the temporary file: the warning that it
    failed, the closing lines, the error line. *)
Definition is_closing (e : effect) : Prop :=
  match e with
  | UnlinkFailed _ | Say _ | Error _ => True
  | _ => False
  end.

Local Open Scope trace_scope.

(** The world of one run: the environment, the functions of [path] and
    [fs] ([mkdir], [writeFile] and [unlink] tell whether the call succeeds,
    [readFile] gives the content or [None] when it rejects, [stat] gives
    [None] when it rejects, [readdir] the names or [None]), the libraries,
    the clock and the browser. *)
Record world : Type :=
  World {
    process_env : string -> option string;
    Number : string -> value;
    (** [path.basename(p, ext)], [path.join(a, b)], [path.dirname(p)],
        [path.resolve(p)], [path.resolve(base, p)], [path.isAbsolute(p)] and
        [path.extname(p)] *)
    basename : string -> string -> string;
    join : string -> string -> string;
    dirname : string -> string;
    resolve : string -> string;
    resolve_from : string -> string -> string;
    isAbsolute : string -> bool;
    extname : string -> string;
    mkdir : string -> bool;
    stat : string -> option Images.stats;
    readFile : string -> option string;
    writeFile : string -> string -> bool;
    unlink : string -> bool;
    readdir : string -> option (list string);
    (** [convertPdfToSvg(pdfPath, tempDir, log)], by the path of the
        figure *)
    convertPdfToSvg : string -> option string;
    (** whether the rejection of the task of one image source ends the
        process while the [stat] of a later one is awaited *)
    interrupts : string -> string -> bool;
    yaml_load : string -> loaded;
    (** [md.render] *)
    render : string -> string;
    (** the template files tried by [buildHtml] *)
    candidates : list (option string);
    (** [Date.now()] in decimal, [new Date(v).toLocaleDateString("ja-JP")]
        and the same for the current date *)
    now : string;
    toLocaleDateString : value -> string;
    today : string;
    browser : Render.browser;
    file_href : string -> string }.

Section Run.

Variable w : world.

(** [makeLogger(cfg.VERBOSE).info] *)
Definition info (cfg : settings) (p : progress) : M effect failure unit :=
  if VERBOSE cfg then emit (Info p) else ret tt.

(** An awaited call of [fs] that may reject. *)
Definition io (e : effect) (ok : bool) (f : failure) : M effect failure unit :=
  emit e ;; if ok then ret tt else throw f.

(** [html.length / 1024 / 1024 > 50.0]; both divisions are exact. *)
Definition over_50MB (html : string) : bool :=
  (52428800 <? N.of_nat (String.length html))%N.

(** [cli.output || path.join("out-pdf", baseName + ".pdf")] *)
Definition pdfOut (cli : Cli.cli) : string :=
  match Cli.output cli with
  | Some out => out
  | None => join w "out-pdf" (basename w (Cli.input cli) ".md" ++ ".pdf")
  end.

Definition htmlOut (cli : Cli.cli) : string :=
  join w "out-html" (basename w (Cli.input cli) ".md" ++ ".html").

(** The path of the temporary file for a large document. *)
Definition tempHtml (cli : Cli.cli) : string :=
  join w (join w (dirname w (resolve w (Cli.input cli))) ".md2pdf_temp")
         (basename w (Cli.input cli) ".md" ++ "_" ++ now w ++ ".html").

(** [processImages(bodyHtml, baseDir, true, log)] in this world. *)
Definition images (baseDir html : string)
  : list Images.event * Images.ending :=
  Images.processImages (stat w) (readFile w) (isAbsolute w) (resolve_from w)
    (extname w) (file_href w) (convertPdfToSvg w) (join w) (mkdir w)
    (unlink w) (readdir w) (interrupts w) baseDir true html.

(** The body of the [try] of [main] once the arguments are parsed, in
    three parts.  The first one reads the source and builds the document;
    it returns the front matter and the document.  The progress lines that
    [processImages] prints itself are not among the effects.  When the
    process ends inside [processImages], nothing after it is done. *)
Definition prepare (cli : Cli.cli) (cfg : settings)
  : M effect failure (value * string) :=
  let inPath := Cli.input cli in
  let baseName := basename w inPath ".md" in
  io (Mkdir (dirname w (pdfOut cli))) (mkdir w (dirname w (pdfOut cli)))
     (MkdirFailed (dirname w (pdfOut cli))) ;;
  emit (Say (Started baseName)) ;;
  info cfg (Mode (SAVE_HTML cfg)) ;;
  emit (ReadFile inPath) ;;
  src <- match readFile w inPath with
         | Some text => ret text
         | None => throw (ReadFailed inPath)
         end ;;
  let fm := parseYamlFrontMatter (yaml_load w) src in
  emit_all (List.map Warn (warned fm)) ;;
  info cfg Converting ;;
  let bodyHtml := render w (body fm) in
  let assets := images (dirname w (resolve w inPath)) bodyHtml in
  emit_all (List.map asset (fst assets)) ;;
  processedBodyHtml <-
    match snd assets with
    | Images.Returned out => ret out
    | Images.Rejects => throw ImagesRejected
    | Images.Dies => throw UnhandledRejection
    end ;;
  let metaInfo := generateMetaInfo (frontMatter fm) in
  let finalBodyHtml := insertAfterFirstH1 processedBodyHtml metaInfo in
  html <- match buildHtml (candidates w) baseName finalBodyHtml (page cfg)
                  (autoNumber (frontMatter fm)) with
          | Some text => ret text
          | None => throw TemplateMissing
          end ;;
  info cfg HtmlDone ;;
  ret (frontMatter fm, html).

(** The second part stores the document for the browser where it has to:
    the result is [tempHtmlPath]. *)
Definition store (cli : Cli.cli) (cfg : settings) (html : string)
  : M effect failure (option string) :=
  if SAVE_HTML cfg then
    io (Mkdir (dirname w (htmlOut cli))) (mkdir w (dirname w (htmlOut cli)))
       (MkdirFailed (dirname w (htmlOut cli))) ;;
    io (WriteFile (htmlOut cli) html) (writeFile w (htmlOut cli) html)
       (WriteFailed (htmlOut cli)) ;;
    emit (Say (HtmlGenerated (htmlOut cli))) ;;
    ret (Some (resolve w (htmlOut cli)))
  else if over_50MB html then
    let tempDir := join w (dirname w (resolve w (Cli.input cli))) ".md2pdf_temp" in
    io (Mkdir tempDir) (mkdir w tempDir) (MkdirFailed tempDir) ;;
    io (WriteFile (tempHtml cli) html) (writeFile w (tempHtml cli) html)
       (WriteFailed (tempHtml cli)) ;;
    info cfg (LargeHtmlSaved (String.length html)) ;;
    ret (Some (tempHtml cli))
  else ret None.

(** The [finally] around [renderPDF]. *)
Definition remove_temporary (cfg : settings) (tempHtmlPath : option string)
  : list effect :=
  match Render.given tempHtmlPath with
  | Some p =>
      if negb (SAVE_HTML cfg)
      then (Unlink p :: if unlink w p then [] else [UnlinkFailed p])
      else []
  | None => []
  end.

(** [renderPDF] as [main] awaits it. *)
Definition print (html htmlPath : option string) (pdfPath : string)
    (cfg : settings) (dateStr : string) : M effect failure unit :=
  let r := Render.renderPDF (browser w) (file_href w) html htmlPath pdfPath
             cfg dateStr in
  (List.map Browser (trace r),
   match ending r with
   | inl e => inl (PrintFailed e)
   | inr u => inr u
   end).

Definition dateStr (frontMatter : value) : string :=
  if truthy (prop frontMatter "date")
  then toLocaleDateString w (prop frontMatter "date") else today w.

(** The request [main] makes of [renderPDF]. *)
Definition printing (cli : Cli.cli) (cfg : settings) (frontMatter : value)
    (html : string) (tempHtmlPath : option string)
  : M Render.call Render.error unit :=
  Render.renderPDF (browser w) (file_href w)
    (match Render.given tempHtmlPath with Some _ => None | None => Some html end)
    tempHtmlPath (pdfOut cli) cfg (dateStr frontMatter).

(** The third part prints the document and removes the temporary file. *)
Definition present (cli : Cli.cli) (cfg : settings) (frontMatter : value)
    (html : string) (tempHtmlPath : option string) : M effect failure unit :=
  info cfg Launching ;;
  match Render.given tempHtmlPath with
  | Some p => info cfg (LoadingFile (basename w p ""))
  | None => info cfg LoadingMemory
  end ;;
  info cfg Waiting ;;
  info cfg Generating ;;
  finally
    (print (match Render.given tempHtmlPath with
            | Some _ => None
            | None => Some html
            end)
           tempHtmlPath (pdfOut cli) cfg (dateStr frontMatter))
    (remove_temporary cfg tempHtmlPath) ;;
  emit (Say (PdfGenerated (pdfOut cli))) ;;
  emit (Say PrintHint) ;;
  emit (Say (PrintCommand (pdfOut cli))).

Definition convert (cli : Cli.cli) (cfg : settings) : M effect failure unit :=
  built <- prepare cli cfg ;;
  tempHtmlPath <- store cli cfg (snd built) ;;
  present cli cfg (fst built) (snd built) tempHtmlPath.

(** What [main] does, and the exit code of the process.  An error thrown
    in the [try] is caught: its line is printed and the exit code set to 1.
    When the process ends on an unhandled rejection, neither the [catch]
    nor the [finally] of [main] runs: the runtime prints its report and
    exits with code 1. *)
Definition main (argv : list string) : list effect * nat :=
  let run :=
    cli <- match Cli.parseArgs argv with
           | inr cli => ret cli
           | inl e => throw (BadArguments e)
           end ;;
    convert cli (buildConfig (process_env w) (Number w) cli) in
  match ending run with
  | inl UnhandledRejection => ((trace run ++ [Uncaught])%list, 1)
  | inl f => ((trace run ++ [Error f])%list, 1)
  | inr _ => (trace run, 0)
  end.

End Run.

End Program.

(** ** Metadata fields *)

(** The fields shown in the block. *)
Definition shown (frontMatter : value) : list string :=
  List.map (fun k => toString (prop (js_or frontMatter empty_object) k))
    ["student_id"; "author"; "affiliation"].

(** ** Sample runs *)

Module Cases.

(** The sample directory with more files: a drawing of two mebibytes, a
    PDF figure and the drawing converted from it, a bitmap, an icon whose
    root has a class and a stroke width, and a raster image that cannot be
    read. *)
Definition huge_svg : string :=
  "<svg>" ++ N.iter 2097141 (String "x") "</svg>".

Definition icon_svg : string :=
  "<svg class=" ++ dq ++ "icon" ++ dq ++ " stroke-width=" ++ dq ++ "2" ++ dq
  ++ "><path/></svg>".

Definition fig_svg : string := "/doc/.md2pdf_temp/fig_1700000000000.svg".

Definition fs_stat (path : string) : option Images.stats :=
  if String.eqb path "/doc/huge.svg" then Some (Images.Stats true 2097152%N)
  else if String.eqb path "/doc/fig.pdf" then Some (Images.Stats true 1200%N)
  else if String.eqb path "/doc/photo.bmp" then Some (Images.Stats true 70%N)
  else if String.eqb path "/doc/icon.svg" then Some (Images.Stats true 48%N)
  else if String.eqb path "/doc/locked.png" then Some (Images.Stats true 3%N)
  else if String.eqb path fig_svg then Some (Images.Stats true 15%N)
  else Sample.fs_stat path.

Definition fs_read (path : string) : option string :=
  if String.eqb path "/doc/huge.svg" then Some huge_svg
  else if String.eqb path "/doc/fig.pdf" then Some "%PDF-1.4"
  else if String.eqb path "/doc/photo.bmp" then Some "BM"
  else if String.eqb path "/doc/icon.svg" then Some icon_svg
  else if String.eqb path "/doc/locked.png" then None
  else if String.eqb path fig_svg then Some "<svg><g/></svg>"
  else Sample.fs_read path.

(** A machine with Poppler: the figure is converted. *)
Definition convertPdfToSvg (pdfPath : string) : option string :=
  if String.eqb pdfPath "/doc/fig.pdf" then Some fig_svg else None.

(** The read of the locked image is refused while the next image is looked
    up. *)
Definition interrupts (p k : string) : bool :=
  String.eqb p "locked.png" && String.eqb k "a.png".

Definition processImages : string -> list Images.event * Images.ending :=
  Images.processImages fs_stat fs_read Sample.isAbsolute Sample.resolve
    Sample.extname Sample.file_href convertPdfToSvg Sample.path_join
    Sample.mkdir Sample.unlink Sample.readdir interrupts "/doc" true.

(** The resolution of a source on a machine without Poppler, where no
    figure is converted. *)
Definition resolve_src (embedBase64 : bool) : string -> Images.outcome :=
  Images.resolve_src fs_stat fs_read Sample.isAbsolute Sample.resolve
    Sample.extname Sample.file_href Sample.convertPdfToSvg "/doc" embedBase64.

(** A browser in which every call succeeds and the page stays open. *)
Definition browser : Render.browser :=
  Render.Browser Render.Done Render.Done (fun _ => Render.Done)
    (fun _ => Render.Done) Render.Done Render.Done Render.Done
    (fun _ => Render.Done) Render.Done Render.Done (fun _ => false).

(** [path.basename], [path.dirname] and [path.resolve] on the plain
    relative paths of the samples. *)
Fixpoint after_slash (path : string) (name : string) : string :=
  match path with
  | "" => name
  | String a path' =>
      after_slash path' (if Ascii.eqb a "/" then path' else name)
  end.

Definition basename (path ext : string) : string :=
  let name := after_slash path path in
  match split_first ext name with
  | Some (stem, "") => stem
  | _ => name
  end.

Fixpoint last_slash (path : string) (seen : string) (found : option string)
  : option string :=
  match path with
  | "" => found
  | String a path' =>
      last_slash path' (seen ++ String a "")
        (if Ascii.eqb a "/" then Some seen else found)
  end.

Definition dirname (path : string) : string :=
  match last_slash path "" None with Some dir => dir | None => "." end.

Definition resolve (path : string) : string :=
  if Sample.isAbsolute path then path else "/doc/" ++ path.

Definition join (a b : string) : string := a ++ "/" ++ b.

(** Three source texts: a heading, a PDF figure, and two images. *)
Definition figure_md : string := "![f](fig.pdf)".
Definition images_md : string := "![l](locked.png) ![a](a.png)".

(** What markdown-it returns for them. *)
Definition render (body : string) : string :=
  if String.eqb body "# T" then "<h1>T</h1>" ++ nl
  else if String.eqb body figure_md then
    "<p>" ++ Sample.img (Sample.attr "src" "fig.pdf" ++ " "
                         ++ Sample.attr "alt" "f") ++ "</p>" ++ nl
  else if String.eqb body images_md then
    "<p>" ++ Sample.img (Sample.attr "src" "locked.png" ++ " "
                         ++ Sample.attr "alt" "l")
    ++ " " ++ Sample.img (Sample.attr "src" "a.png" ++ " "
                          ++ Sample.attr "alt" "a") ++ "</p>" ++ nl
  else "<p>" ++ body ++ "</p>" ++ nl.

Definition readFile (path : string) : option string :=
  if String.eqb path "doc.md" then Some "# T"
  else if String.eqb path "fig.md" then Some figure_md
  else if String.eqb path "two.md" then Some images_md
  else fs_read path.

Definition world : Program.world :=
  {| Program.process_env := fun _ => None;
     Program.Number := fun _ => VNum 1;
     Program.basename := basename;
     Program.join := join;
     Program.dirname := dirname;
     Program.resolve := resolve;
     Program.resolve_from := Sample.resolve;
     Program.isAbsolute := Sample.isAbsolute;
     Program.extname := Sample.extname;
     Program.mkdir := fun _ => true;
     Program.stat := fs_stat;
     Program.readFile := readFile;
     Program.writeFile := fun _ _ => true;
     Program.unlink := fun _ => true;
     Program.readdir := fun _ => Some [];
     Program.convertPdfToSvg := convertPdfToSvg;
     Program.interrupts := interrupts;
     Program.yaml_load := Sample.yaml_load;
     Program.render := render;
     Program.candidates := [None; Some ("<body>{{BODY}}</body>")];
     Program.now := "1700000000000";
     Program.toLocaleDateString := fun _ => "2024/1/1";
     Program.today := "2026/11/2";
     Program.browser := browser;
     Program.file_href := Sample.file_href |}.

Definition argv : list string := ["node"; "md2pdf.mjs"; "doc.md"].

End Cases.

(** * Properties *)

(** ** Strings *)

Module StrFacts.

Lemma app_nil_r (s : string) : s ++ "" = s.
Proof. induction s as [|a s IH]; simpl; [reflexivity | now rewrite IH]. Qed.

Lemma app_assoc (s t u : string) : (s ++ t) ++ u = s ++ t ++ u.
Proof. induction s as [|a s IH]; simpl; [reflexivity | now rewrite IH]. Qed.

Lemma length_app (s t : string) :
  String.length (s ++ t) = String.length s + String.length t.
Proof. induction s as [|a s IH]; simpl; [reflexivity | now rewrite IH]. Qed.

Lemma app_inv_head (s t u : string) : s ++ t = s ++ u -> t = u.
Proof.
  induction s as [|a s IH]; simpl; intros H; [exact H | injection H; auto].
Qed.

Lemma all_app (c : ascii -> bool) (s t : string) :
  all c (s ++ t) = all c s && all c t.
Proof.
  induction s as [|a s IH]; simpl; [reflexivity |].
  now rewrite IH, andb_assoc.
Qed.

Lemma all_any (s : string) : all any_char s = true.
Proof. induction s; simpl; auto. Qed.

Lemma char_eq_refl (x : ascii) : char_eq false x x = true.
Proof. apply Ascii.eqb_refl. Qed.

(** An exact literal consumes itself. *)
Lemma lit_app (p s : string) : lit false p (p ++ s) = Some (p, s).
Proof.
  induction p as [|x p IH]; simpl; [reflexivity |].
  now rewrite Ascii.eqb_refl, IH.
Qed.

Lemma lit_exact (p s w t : string) :
  lit false p s = Some (w, t) -> w = p /\ s = p ++ t.
Proof.
  revert s w t; induction p as [|x p IH]; intros [|a s] w t; simpl; intros H;
    try discriminate; try (injection H as <- <-; now split).
  destruct (Ascii.eqb_spec x a) as [->|]; [|discriminate].
  destruct (lit false p s) as [[w' t']|] eqn:E; [|discriminate].
  injection H as <- <-. destruct (IH _ _ _ E) as [-> ->]. now split.
Qed.

(** What a literal consumed is as long as the literal, whatever the case. *)
Lemma lit_sound (ci : bool) (p s w t : string) :
  lit ci p s = Some (w, t) ->
  s = w ++ t /\ String.length w = String.length p.
Proof.
  revert s w t; induction p as [|x p IH]; intros [|a s] w t; simpl; intros H;
    try discriminate; try (injection H as <- <-; now split).
  destruct (char_eq ci x a); [|discriminate].
  destruct (lit ci p s) as [[w' t']|] eqn:E; [|discriminate].
  injection H as <- <-. destruct (IH _ _ _ E) as [-> Hl].
  simpl; now rewrite Hl.
Qed.

(** A literal that fails on the first characters fails whatever follows. *)
Lemma lit_first_None (ci : bool) (x a : ascii) (p s : string) :
  char_eq ci x a = false -> lit ci (String x p) (String a s) = None.
Proof. intros H; simpl; now rewrite H. Qed.

Lemma starts_app (p s : string) : starts p (p ++ s) = Some s.
Proof. unfold starts; now rewrite lit_app. Qed.

Lemma starts_Some (p s t : string) : starts p s = Some t -> s = p ++ t.
Proof.
  unfold starts; destruct (lit false p s) as [[w u]|] eqn:E; [|discriminate].
  simpl; intros [= <-]. now destruct (lit_exact _ _ _ _ E).
Qed.

Lemma split_first_sound (p s pre post : string) :
  split_first p s = Some (pre, post) -> s = pre ++ p ++ post.
Proof.
  revert pre post; induction s as [|a s IH]; intros pre post; simpl.
  - destruct (starts p "") eqn:E; [|discriminate].
    intros [= <- <-]. simpl. now apply starts_Some.
  - destruct (starts p (String a s)) eqn:E.
    + intros [= <- <-]. simpl. now apply starts_Some.
    + destruct (split_first p s) as [[pre' post']|]; [|discriminate].
      intros [= <- <-]. simpl. now rewrite (IH _ _ eq_refl).
Qed.

End StrFacts.

(** ** The matcher *)

Module RegexFacts.

Import StrFacts.

Section Quantifiers.

Variables (c : ascii -> bool) (k : string -> option hit).

(** A greedy repetition stops behind characters of the class, where the
    continuation succeeds. *)
Lemma greedy_inv (s w : string) (h : hit) :
  greedy c k s = Some (w, h) ->
  exists s', s = w ++ s' /\ all c w = true /\ k s' = Some h.
Proof.
  revert w h; induction s as [|a s IH]; intros w h; simpl.
  - destruct (k "") eqn:E; simpl; [|discriminate].
    intros [= <- <-]. now exists "".
  - assert (Hstop : option_map (pair "") (k (String a s)) = Some (w, h) ->
                    exists s', String a s = w ++ s' /\ all c w = true
                               /\ k s' = Some h).
    { destruct (k (String a s)) eqn:E; simpl; [|discriminate].
      intros [= <- <-]. now exists (String a s). }
    destruct (c a) eqn:Ca; [|exact Hstop].
    destruct (greedy c k s) as [[w' h']|] eqn:G; [|exact Hstop].
    unfold grow; simpl. intros [= <- <-].
    destruct (IH _ _ eq_refl) as (s' & -> & Hw & Hk).
    exists s'. simpl. now rewrite Ca, Hw.
Qed.

(** It stops at once when the continuation fails behind every longer
    repetition. *)
Lemma greedy_stop (s : string) :
  (forall u v, u <> "" -> all c u = true -> s = u ++ v -> k v = None) ->
  greedy c k s = option_map (pair "") (k s).
Proof.
  intros Hlater. destruct s as [|a s]; simpl; [reflexivity |].
  destruct (c a) eqn:Ca; [|reflexivity].
  destruct (greedy c k s) as [[w h]|] eqn:G; [|reflexivity].
  destruct (greedy_inv _ _ _ G) as (s' & -> & Hw & Hk).
  rewrite (Hlater (String a w) s') in Hk; [discriminate | discriminate | |].
  - simpl; now rewrite Ca, Hw.
  - reflexivity.
Qed.

(** The longest repetition behind which the continuation succeeds. *)
Lemma greedy_pick (w s : string) (h : hit) :
  all c w = true ->
  k s = Some h ->
  (forall u v, u <> "" -> all c u = true -> s = u ++ v -> k v = None) ->
  greedy c k (w ++ s) = Some (w, h).
Proof.
  intros Hw Hk Hlater. induction w as [|a w IH]; simpl.
  - rewrite (greedy_stop s Hlater), Hk. reflexivity.
  - simpl in Hw. apply andb_true_iff in Hw as [Ca Hw].
    rewrite Ca, (IH Hw). reflexivity.
Qed.

Lemma lazy_inv (s w : string) (h : hit) :
  lazy c k s = Some (w, h) ->
  exists s', s = w ++ s' /\ all c w = true /\ k s' = Some h.
Proof.
  revert w h; induction s as [|a s IH]; intros w h; simpl.
  - destruct (k "") eqn:E; [|discriminate].
    intros [= <- <-]. now exists "".
  - destruct (k (String a s)) eqn:E.
    + intros [= <- <-]. now exists (String a s).
    + destruct (c a) eqn:Ca; [|discriminate].
      destruct (lazy c k s) as [[w' h']|] eqn:L; [|discriminate].
      unfold grow; simpl. intros [= <- <-].
      destruct (IH _ _ eq_refl) as (s' & -> & Hw & Hk).
      exists s'. simpl. now rewrite Ca, Hw.
Qed.

(** The shortest repetition behind which the continuation succeeds. *)
Lemma lazy_pick (w s : string) (h : hit) :
  all c w = true ->
  (forall u v, w = u ++ v -> v <> "" -> k (v ++ s) = None) ->
  k s = Some h ->
  lazy c k (w ++ s) = Some (w, h).
Proof.
  intros Hw Hearlier Hk. induction w as [|a w IH].
  - simpl. destruct s; simpl; now rewrite Hk.
  - simpl in Hw. apply andb_true_iff in Hw as [Ca Hw].
    assert (H0 : k (String a w ++ s) = None)
      by (apply (Hearlier "" (String a w)); [reflexivity | discriminate]).
    simpl in H0 |- *. rewrite H0, Ca, IH; [reflexivity | exact Hw |].
    intros u v -> Hv. apply (Hearlier (String a u) v); [reflexivity | exact Hv].
Qed.

(** Before the place where a lazy repetition stopped the continuation
    fails. *)
Lemma lazy_first (s w : string) (h : hit) :
  lazy c k s = Some (w, h) ->
  forall u v, w = u ++ v -> v <> "" ->
  forall s', s = w ++ s' -> k (v ++ s') = None.
Proof.
  revert w h; induction s as [|a s IH]; intros w h; simpl.
  - destruct (k "") eqn:E; [|discriminate].
    intros [= <- <-] u v Huv Hv. destruct u, v; try discriminate. now elim Hv.
  - destruct (k (String a s)) eqn:E.
    + intros [= <- <-] u v Huv Hv. destruct u, v; try discriminate. now elim Hv.
    + destruct (c a) eqn:Ca; [|discriminate].
      destruct (lazy c k s) as [[w' h']|] eqn:L; [|discriminate].
      unfold grow; simpl. intros [= <- <-] u v Huv Hv s' Hs.
      injection Hs as ->.
      destruct u as [|b u]; simpl in Huv.
      * subst v. simpl. exact E.
      * injection Huv as <- ->. now apply (IH _ _ eq_refl u v).
Qed.

End Quantifiers.

Lemma eat_sound (w : string) (cap : bool) (h : hit) (s : string) :
  s = whole h ++ rest h -> w ++ s = whole (eat w cap h) ++ rest (eat w cap h).
Proof. intros ->. simpl. now rewrite app_assoc. Qed.

(** A match splits the input into what it consumed and what follows. *)
Lemma run_sound (r : regex) (s : string) (h : hit) :
  run r s = Some h -> s = whole h ++ rest h.
Proof.
  revert s h; induction r as [|n r IH]; intros s h; simpl.
  - now intros [= <-].
  - destruct n as [ci p|c|c|[|] cap c|cap c|].
    + destruct (lit ci p s) as [[w s']|] eqn:L; [|discriminate].
      destruct (run r s') as [h'|] eqn:R; [|discriminate].
      simpl; intros [= <-]. destruct (lit_sound _ _ _ _ _ L) as [-> _].
      apply eat_sound, IH, R.
    + destruct s as [|a s]; [discriminate|].
      destruct (c a); [|discriminate].
      destruct (run r s) as [h'|] eqn:R; [|discriminate].
      simpl; intros [= <-]. simpl. now rewrite <- (IH _ _ R).
    + destruct s as [|a s]; [apply IH|].
      destruct (c a); [|apply IH].
      destruct (run r s) as [h'|] eqn:R; [|apply IH].
      intros [= <-]. simpl. now rewrite <- (IH _ _ R).
    + destruct (greedy c (run r) s) as [[w h']|] eqn:G; [|discriminate].
      simpl; intros [= <-].
      destruct (greedy_inv _ _ _ _ _ G) as (s' & -> & _ & R).
      apply eat_sound, IH, R.
    + destruct (lazy c (run r) s) as [[w h']|] eqn:G; [|discriminate].
      simpl; intros [= <-].
      destruct (lazy_inv _ _ _ _ _ G) as (s' & -> & _ & R).
      apply eat_sound, IH, R.
    + destruct s as [|a s]; [discriminate|].
      destruct (c a); [|discriminate].
      destruct (greedy c (run r) s) as [[w h']|] eqn:G; [|discriminate].
      simpl; intros [= <-].
      destruct (greedy_inv _ _ _ _ _ G) as (s' & -> & _ & R).
      simpl. f_equal. rewrite app_assoc. f_equal. apply IH, R.
    + destruct s; [apply IH | discriminate].
Qed.

(** The leftmost match: no match starts earlier. *)
Lemma search_pick (r : regex) (pre s : string) (h : hit) :
  (forall u v, pre = u ++ v -> v <> "" -> run r (v ++ s) = None) ->
  run r s = Some h ->
  search r (pre ++ s) = Some (pre, h).
Proof.
  intros Hearlier Hr. induction pre as [|a pre IH].
  - simpl. destruct s; simpl; now rewrite Hr.
  - assert (H0 : run r (String a pre ++ s) = None)
      by (apply (Hearlier "" (String a pre)); [reflexivity | discriminate]).
    simpl in H0 |- *. rewrite H0, IH; [reflexivity |].
    intros u v -> Hv. apply (Hearlier (String a u) v); [reflexivity | exact Hv].
Qed.

Lemma search_inv (r : regex) (s pre : string) (h : hit) :
  search r s = Some (pre, h) ->
  exists s', s = pre ++ s' /\ run r s' = Some h.
Proof.
  revert pre h; induction s as [|a s IH]; intros pre h; simpl.
  - destruct (run r "") eqn:R; [|discriminate].
    intros [= <- <-]. now exists "".
  - destruct (run r (String a s)) eqn:R.
    + intros [= <- <-]. now exists (String a s).
    + destruct (search r s) as [[pre' h']|] eqn:S; [|discriminate].
      unfold grow; simpl. intros [= <- <-].
      destruct (IH _ _ eq_refl) as (s' & -> & Hr). now exists s'.
Qed.

Lemma search_sound (r : regex) (s pre : string) (h : hit) :
  search r s = Some (pre, h) -> s = pre ++ whole h ++ rest h.
Proof.
  intros H. destruct (search_inv _ _ _ _ H) as (s' & -> & R).
  now rewrite (run_sound _ _ _ R).
Qed.

(** [(c* )$] for the class of all characters takes the rest of the input. *)
Lemma run_rest (cap : bool) (s : string) :
  run [Star true cap any_char; Eos] s
  = Some (Hit s (if cap then [s] else []) "").
Proof.
  simpl. rewrite <- (app_nil_r s) at 1.
  rewrite (greedy_pick any_char _ s "" (Hit "" [] "")).
  - simpl. unfold eat; simpl. now rewrite app_nil_r.
  - apply all_any.
  - reflexivity.
  - intros [|b u] v Hu _ Huv; [now elim Hu | discriminate].
Qed.

End RegexFacts.

(** ** Scans and replacements of a whole text *)

Module FuelFacts.

Import StrFacts RegexFacts.

(** A match that consumed something leaves less than it found. *)
Lemma search_shorter (r : regex) (s pre : string) (h : hit) (a : ascii)
    (w : string) :
  search r s = Some (pre, h) -> whole h = String a w ->
  String.length (Regex.rest h) < String.length s.
Proof.
  intros Hs Hw. rewrite (search_sound _ _ _ _ Hs), Hw, !length_app. simpl. lia.
Qed.

Lemma search_empty (r : regex) (pre : string) (h : hit) :
  search r "" = Some (pre, h) -> whole h = "".
Proof.
  intros Hs. pose proof (search_sound _ _ _ _ Hs) as H.
  destruct pre; [|discriminate]. now destruct (whole h).
Qed.

(** The scan of a text never runs out of the fuel it is given, the length
    of the text: more fuel gives the same matches. *)
Lemma scan_fuel_enough (r : regex) (n m : nat) (s : string) :
  String.length s <= n -> String.length s <= m ->
  scan_fuel n r s = scan_fuel m r s.
Proof.
  revert m s; induction n as [|n IH]; intros [|m] s Hn Hm; try reflexivity.
  - destruct s; [|simpl in Hn; lia]. cbn [scan_fuel replace_all_fuel].
    destruct (search r "") as [[pre h]|] eqn:Hs; [|reflexivity].
    now rewrite (search_empty _ _ _ Hs).
  - destruct s; [|simpl in Hm; lia]. cbn [scan_fuel replace_all_fuel].
    destruct (search r "") as [[pre h]|] eqn:Hs; [|reflexivity].
    now rewrite (search_empty _ _ _ Hs).
  - cbn [scan_fuel replace_all_fuel]. destruct (search r s) as [[pre h]|] eqn:Hs; [|reflexivity].
    destruct (whole h) as [|a w] eqn:W; [reflexivity |].
    pose proof (search_shorter _ _ _ _ _ _ Hs W) as Hlt.
    rewrite (IH m (Regex.rest h)) by lia. reflexivity.
Qed.

Lemma replace_all_fuel_enough (re : regex) (r : replacement) (n m : nat)
    (before s : string) :
  String.length s <= n -> String.length s <= m ->
  replace_all_fuel n re r before s = replace_all_fuel m re r before s.
Proof.
  revert m before s; induction n as [|n IH]; intros [|m] before s Hn Hm;
    try reflexivity.
  - destruct s; [|simpl in Hn; lia]. cbn [scan_fuel replace_all_fuel].
    destruct (search re "") as [[pre h]|] eqn:Hs; [|reflexivity].
    now rewrite (search_empty _ _ _ Hs).
  - destruct s; [|simpl in Hm; lia]. cbn [scan_fuel replace_all_fuel].
    destruct (search re "") as [[pre h]|] eqn:Hs; [|reflexivity].
    now rewrite (search_empty _ _ _ Hs).
  - cbn [scan_fuel replace_all_fuel]. destruct (search re s) as [[pre h]|] eqn:Hs; [|reflexivity].
    destruct (whole h) as [|a w] eqn:W; [reflexivity |].
    pose proof (search_shorter _ _ _ _ _ _ Hs W) as Hlt.
    rewrite (IH m _ (Regex.rest h)) by lia. reflexivity.
Qed.

End FuelFacts.

(** ** Front matter *)

Module FrontMatterFacts.

Import StrFacts RegexFacts.

(** The line feed that ends a delimiter line, and the body behind it. *)
Lemma run_body (s : string) :
  run [Lit false nl; Star true true any_char; Eos] s
  = match s with
    | "" => None
    | String a t =>
        if Ascii.eqb "010" a then Some (Hit (String a t) [t] "") else None
    end.
Proof.
  destruct s as [|a t]; [reflexivity |].
  change (run [Lit false nl; Star true true any_char; Eos] (String a t))
    with (match (if Ascii.eqb "010" a then Some (String a "", t) else None) with
          | Some (w, s') =>
              option_map (eat w false) (run [Star true true any_char; Eos] s')
          | None => None
          end).
  destruct (Ascii.eqb "010" a); [|reflexivity].
  now rewrite run_rest.
Qed.

(** [\s*\n] before the body gives up white space down to the last line feed
    of the leading white space. *)
Lemma greedy_blank (s : string) :
  match after_blank s with
  | Some t =>
      exists w x,
        greedy is_space (run [Lit false nl; Star true true any_char; Eos]) s
        = Some (w, Hit x [t] "")
  | None =>
      greedy is_space (run [Lit false nl; Star true true any_char; Eos]) s
      = None
  end.
Proof.
  induction s as [|a s IH]; [reflexivity |].
  cbn [after_blank greedy]. rewrite run_body.
  destruct (is_space a) eqn:Sa.
  - destruct (after_blank s) as [t|].
    + destruct IH as (w & x & ->). now exists (String a w), x.
    + rewrite IH, (Ascii.eqb_sym a).
      destruct (Ascii.eqb "010" a); [|reflexivity].
      now exists "", (String a s).
  - destruct (Ascii.eqb_spec "010" a) as [<-|]; [discriminate | reflexivity].
Qed.

Lemma after_blank_nl (s : string) :
  after_blank (nl ++ s) = Some (drop_blank_lines s).
Proof. unfold drop_blank_lines; simpl. now destruct (after_blank s). Qed.

Lemma split_first_None (p s : string) :
  split_first p s = None ->
  forall u v, s = u ++ v -> starts p v = None.
Proof.
  intros H u; revert s H; induction u as [|a u IH]; intros s H v ->; simpl in H.
  - destruct v; simpl in H; destruct (starts p _); try discriminate; reflexivity.
  - destruct (starts p (String a (u ++ v))); [discriminate|].
    destruct (split_first p (u ++ v)) as [[? ?]|] eqn:E; [discriminate|].
    now apply (IH _ E).
Qed.

(** A delimiter cannot begin in the metadata and end in the line feed that
    follows it. *)
Lemma fence_straddle (v t : string) :
  v <> "" ->
  lit false (nl ++ "---") v = None ->
  lit false (nl ++ "---") (v ++ nl ++ t) = None.
Proof.
  intros Hv H.
  destruct v as [|a [|b [|c [|d v]]]]; [now elim Hv | | | |];
    cbn -[Ascii.eqb] in H |- *;
    change (Ascii.eqb "-" "010") with false;
    repeat match goal with
      | |- context [Ascii.eqb ?x ?y] =>
          is_var y; destruct (Ascii.eqb x y) eqn:?; cbn -[Ascii.eqb] in *;
          try congruence
      end.
Qed.

Lemma run_lit (p : string) (r : regex) (s : string) :
  run (Lit false p :: r) (p ++ s) = option_map (eat p false) (run r s).
Proof. simpl. now rewrite lit_app. Qed.

Lemma run_greedy (cap : bool) (c : ascii -> bool) (r : regex) (s : string) :
  run (Star true cap c :: r) s = close cap (greedy c (run r) s).
Proof. reflexivity. Qed.

Lemma run_lazy (cap : bool) (c : ascii -> bool) (r : regex) (s : string) :
  run (Star false cap c :: r) s = close cap (lazy c (run r) s).
Proof. reflexivity. Qed.

Lemma run_lit_inv (p : string) (r : regex) (s : string) (h : hit) :
  run (Lit false p :: r) s = Some h ->
  exists s' h', s = p ++ s' /\ run r s' = Some h' /\ h = eat p false h'.
Proof.
  simpl. destruct (lit false p s) as [[w s']|] eqn:L; [|discriminate].
  destruct (lit_exact _ _ _ _ L) as [-> ->].
  destruct (run r s') as [h'|] eqn:R; [|discriminate].
  intros [= <-]. now exists s', h'.
Qed.

Lemma close_inv (cap : bool) (o : option (string * hit)) (h : hit) :
  close cap o = Some h -> exists w h', o = Some (w, h') /\ h = eat w cap h'.
Proof.
  destruct o as [[w h']|]; [|discriminate].
  unfold close; simpl. intros [= <-]. exists w, h'. split; reflexivity.
Qed.

Lemma run_lit_None (p : string) (r : regex) (s : string) :
  lit false p s = None -> run (Lit false p :: r) s = None.
Proof. intros H. simpl. now rewrite H. Qed.

(** A text of the shape delimiter line, metadata, delimiter line, body:
    when the metadata begin with a character that is not white space and
    hold no line that begins with three hyphens behind the first, the two
    captures are the metadata and the body without its leading blank
    lines. *)
Lemma yaml_shape (c : ascii) (M' B : string) :
  is_space c = false ->
  includes (nl ++ "---") (String c M') = false ->
  exists x,
    run yamlRegex ("---" ++ nl ++ String c M' ++ nl ++ "---" ++ nl ++ B)
    = Some (Hit x [String c M'; drop_blank_lines B] "").
Proof.
  intros Hc Hfence. set (M := String c M') in *.
  unfold yamlRegex. rewrite run_lit.
  (* the white space behind the opening hyphens is the line feed alone *)
  rewrite run_greedy, greedy_stop.
  2:{ intros [|a [|b u]] v Hu Hall Huv; [now elim Hu | |].
      - injection Huv as <- <-. apply run_lit_None. unfold M; cbn -[Ascii.eqb].
        destruct (Ascii.eqb_spec "010" c) as [<-|]; [discriminate | reflexivity].
      - injection Huv as <- <- _. simpl in Hall. rewrite Hc in Hall.
        discriminate. }
  rewrite (run_lit nl).
  (* the lazy group stops at the first delimiter, which is behind M *)
  rewrite run_lazy.
  assert (Hk : exists w x,
             greedy is_space (run [Lit false nl; Star true true any_char; Eos])
               (nl ++ B) = Some (w, Hit x [drop_blank_lines B] "")).
  { generalize (greedy_blank (nl ++ B)). now rewrite after_blank_nl. }
  destruct Hk as (w & x & Hk).
  rewrite (lazy_pick any_char _ M (nl ++ "---" ++ nl ++ B)
             (eat (nl ++ "---") false (eat w false (Hit x [drop_blank_lines B] "")))).
  - simpl. eexists. reflexivity.
  - apply all_any.
  - intros u v HM Hv. apply run_lit_None.
    change (nl ++ "---" ++ nl ++ B) with (nl ++ ("---" ++ nl ++ B)).
    apply fence_straddle; [exact Hv |].
    unfold includes in Hfence.
    destruct (split_first (nl ++ "---") M) eqn:E; [discriminate |].
    generalize (split_first_None _ _ E u v HM). unfold starts.
    now destruct (lit false (nl ++ "---") v).
  - change (nl ++ "---" ++ nl ++ B) with ((nl ++ "---") ++ nl ++ B).
    rewrite run_lit, run_greedy. now rewrite Hk.
Qed.

(** What a match of the front matter pattern says about the text. *)
Lemma yaml_match_inv (T : string) (h : hit) :
  run yamlRegex T = Some h ->
  exists w1 m1 w2 m2,
    T = "---" ++ w1 ++ nl ++ m1 ++ nl ++ "---" ++ w2 ++ nl ++ m2
    /\ all is_space w1 = true /\ all is_space w2 = true
    /\ groups h = [m1; m2].
Proof.
  unfold yamlRegex. intros H.
  apply run_lit_inv in H as (T1 & h1 & -> & H & ->).
  rewrite run_greedy in H. apply close_inv in H as (w1 & h2 & H & ->).
  apply greedy_inv in H as (T2 & -> & Hw1 & H).
  apply run_lit_inv in H as (T3 & h3 & -> & H & ->).
  rewrite run_lazy in H. apply close_inv in H as (m1 & h4 & H & ->).
  apply lazy_inv in H as (T4 & -> & _ & H).
  apply run_lit_inv in H as (T5 & h5 & -> & H & ->).
  rewrite run_greedy in H. apply close_inv in H as (w2 & h6 & H & ->).
  apply greedy_inv in H as (T6 & -> & Hw2 & H).
  rewrite run_body in H. destruct T6 as [|a m2]; [discriminate|].
  destruct (Ascii.eqb_spec "010" a) as [<-|]; [|discriminate].
  injection H as <-.
  exists w1, m1, w2, m2. repeat split; try assumption.
Qed.

Lemma drop_blank_lines_text (s : string) :
  s = "" \/ begins_with_text s = true -> drop_blank_lines s = s.
Proof.
  unfold drop_blank_lines. intros [->|H]; [reflexivity |].
  destruct s as [|a s]; [discriminate |]. simpl in H |- *.
  now destruct (is_space a).
Qed.

(** *** Blank lines in front of the metadata *)

Lemma lazy_None (c : ascii -> bool) (k : string -> option hit) (s : string) :
  (forall u v, s = u ++ v -> k v = None) -> lazy c k s = None.
Proof.
  induction s as [|a s IH]; intros H; simpl.
  - now rewrite (H "" "").
  - rewrite (H "" (String a s)) by reflexivity.
    destruct (c a); [|reflexivity]. rewrite IH; [reflexivity |].
    intros u v ->. now apply (H (String a u) v).
Qed.

(** White space without a line feed that could end a line. *)
Lemma blank_no_line_feed (t : string) :
  all is_space t = true -> after_blank t = None ->
  all (not_char "010") t = true.
Proof.
  induction t as [|a t IH]; [reflexivity |]. cbn [all after_blank].
  intros Hs. apply andb_true_iff in Hs as [Ha Ht]. rewrite Ha.
  destruct (after_blank t); [discriminate |].
  unfold not_char at 1. destruct (Ascii.eqb a "010"); [discriminate |].
  intros _. now apply IH.
Qed.

Lemma suffix_cases (t text u v : string) :
  t ++ text = u ++ v ->
  (exists v1, v1 <> "" /\ t = u ++ v1 /\ v = v1 ++ text)
  \/ (exists u2, text = u2 ++ v).
Proof.
  revert u. induction t as [|a t IH]; intros u E.
  - right. now exists u.
  - destruct u as [|b u].
    + left. exists (String a t). cbn in E |- *. now repeat split.
    + cbn in E. injection E as <- E. destruct (IH _ E) as [(v1 & H1 & -> & ->)|H].
      * left. now exists v1.
      * now right.
Qed.

Lemma after_blank_suffix (s t : string) :
  after_blank s = Some t -> exists u, s = u ++ t /\ all is_space u = true.
Proof.
  revert t. induction s as [|a s IH]; intros t; [discriminate |].
  cbn [after_blank]. destruct (is_space a) eqn:Sa; [|discriminate].
  destruct (after_blank s) as [t'|].
  - intros [= <-]. destruct (IH _ eq_refl) as (u & -> & Hu).
    exists (String a u). split; [reflexivity |]. cbn [all]. now rewrite Sa, Hu.
  - destruct (Ascii.eqb a "010"); [|discriminate]. intros [= <-].
    exists (String a ""). split; [reflexivity |]. cbn [all]. now rewrite Sa.
Qed.

Lemma after_blank_last (s t : string) :
  after_blank s = Some t -> after_blank t = None.
Proof.
  revert t. induction s as [|a s IH]; intros t; [discriminate |].
  cbn [after_blank]. destruct (is_space a); [|discriminate].
  destruct (after_blank s) as [t'|] eqn:E.
  - intros [= <-]. now apply IH.
  - destruct (Ascii.eqb a "010"); [|discriminate]. now intros [= <-].
Qed.


(** The text splits into its leading white space and the rest. *)
Lemma leading_blank (s : string) :
  exists lead,
    s = lead ++ trimStart s /\ all is_space lead = true
    /\ (trimStart s = "" \/ begins_with_text (trimStart s) = true).
Proof.
  induction s as [|a s (lead & Hs & Hl & Ht)].
  - exists "". repeat split. now left.
  - cbn [trimStart]. destruct (is_space a) eqn:Sa.
    + exists (String a lead). cbn [append all]. rewrite Sa, Hl, <- Hs.
      now repeat split.
    + exists "". repeat split. right. cbn. now rewrite Sa.
Qed.

Lemma after_blank_text (lead text : string) :
  all is_space lead = true ->
  text = "" \/ begins_with_text text = true ->
  after_blank (lead ++ text)
  = option_map (fun t => t ++ text) (after_blank lead).
Proof.
  intros Hl Ht. induction lead as [|a lead IH].
  - destruct Ht as [->|Ht]; [reflexivity |].
    destruct text as [|c text]; [discriminate |]. cbn in Ht |- *.
    now destruct (is_space c).
  - cbn [all] in Hl. apply andb_true_iff in Hl as [Sa Hl].
    cbn [append after_blank]. rewrite Sa, (IH Hl).
    destruct (after_blank lead); [reflexivity |]. cbn [option_map].
    now destruct (Ascii.eqb a "010").
Qed.

Lemma drop_blank_lines_text_after (lead text : string) :
  all is_space lead = true ->
  text = "" \/ begins_with_text text = true ->
  drop_blank_lines (lead ++ text) = drop_blank_lines lead ++ text.
Proof.
  intros Hl Ht. unfold drop_blank_lines. rewrite (after_blank_text _ _ Hl Ht).
  now destruct (after_blank lead).
Qed.

(** [\s*\n] in front of a continuation that fails where the white space
    ends: the repetition gives up characters down to the last line feed of
    the white space, behind which the continuation succeeds. *)
Lemma greedy_retreat (r : regex) (Y s : string) :
  all is_space s = true ->
  greedy is_space (run (Lit false nl :: r)) Y = None ->
  (forall t, all is_space t = true -> after_blank t = None ->
             exists h, run r (t ++ Y) = Some h) ->
  match after_blank s with
  | Some t =>
      exists w h,
        greedy is_space (run (Lit false nl :: r)) (s ++ Y)
        = Some (w, eat nl false h)
        /\ run r (t ++ Y) = Some h
  | None => greedy is_space (run (Lit false nl :: r)) (s ++ Y) = None
  end.
Proof.
  intros Hs HY Hr. induction s as [|a s IH]; [exact HY |].
  cbn [all] in Hs. apply andb_true_iff in Hs as [Sa Hs].
  specialize (IH Hs). cbn [append after_blank greedy]. rewrite Sa.
  destruct (after_blank s) as [t|] eqn:E.
  - destruct IH as (w & h & -> & Ht). now exists (String a w), h.
  - rewrite IH.
    change (run (Lit false nl :: r) (String a (s ++ Y)))
      with (match (if Ascii.eqb "010" a then Some (String a "", s ++ Y) else None) with
            | Some (w, s') => option_map (eat w false) (run r s')
            | None => None
            end).
    rewrite (Ascii.eqb_sym a). destruct (Ascii.eqb_spec "010" a) as [<-|].
    + destruct (Hr s Hs E) as (h & Hh). rewrite Hh. now exists "", h.
    + reflexivity.
Qed.

(** In front of text the repetition is empty, and a line feed that is not
    there cannot follow it. *)
Lemma greedy_text (r : regex) (Z : string) :
  begins_with_text Z = true ->
  greedy is_space (run (Lit false nl :: r)) Z = None.
Proof.
  destruct Z as [|c Z]; [discriminate |]. cbn [begins_with_text].
  intros Hc. apply negb_true_iff in Hc. cbn [greedy]. rewrite Hc.
  change (run (Lit false nl :: r) (String c Z))
    with (match (if Ascii.eqb "010" c then Some (String c "", Z) else None) with
          | Some (w, s') => option_map (eat w false) (run r s')
          | None => None
          end).
  destruct (Ascii.eqb_spec "010" c) as [<-|]; [discriminate | reflexivity].
Qed.

Lemma greedy_line_feed (r : regex) (Z : string) :
  begins_with_text Z = true -> run r Z = None ->
  greedy is_space (run (Lit false nl :: r)) (nl ++ Z) = None.
Proof.
  intros HZ Hr. change (nl ++ Z) with (String "010" Z). cbn [greedy].
  change (is_space "010") with true. cbv iota.
  rewrite (greedy_text r Z HZ).
  change (run (Lit false nl :: r) (String "010" Z))
    with (option_map (eat nl false) (run r Z)).
  now rewrite Hr.
Qed.

(** The rest of the pattern behind the first line feed: the lazy group
    takes the text up to the closing delimiter when no line of it begins
    with three hyphens. *)
Lemma run_block (D B : string) :
  (forall u v, D = u ++ v -> v <> "" -> lit false (nl ++ "---") v = None) ->
  exists x,
    run [ Star false true any_char; Lit false (nl ++ "---");
          Star true false is_space; Lit false nl; Star true true any_char;
          Eos ]
      (D ++ nl ++ "---" ++ nl ++ B)
    = Some (Hit x [D; drop_blank_lines B] "").
Proof.
  intros Hfree. rewrite run_lazy.
  assert (Hk : exists w x,
             greedy is_space (run [Lit false nl; Star true true any_char; Eos])
               (nl ++ B) = Some (w, Hit x [drop_blank_lines B] "")).
  { generalize (greedy_blank (nl ++ B)). now rewrite after_blank_nl. }
  destruct Hk as (w & x & Hk).
  rewrite (lazy_pick any_char _ D (nl ++ "---" ++ nl ++ B)
             (eat (nl ++ "---") false (eat w false (Hit x [drop_blank_lines B] "")))).
  - simpl. eexists. reflexivity.
  - apply all_any.
  - intros u v HD Hv. apply run_lit_None.
    change (nl ++ "---" ++ nl ++ B) with (nl ++ ("---" ++ nl ++ B)).
    apply fence_straddle; [exact Hv | now apply (Hfree u v)].
  - change (nl ++ "---" ++ nl ++ B) with ((nl ++ "---") ++ nl ++ B).
    rewrite run_lit, run_greedy. now rewrite Hk.
Qed.

Lemma includes_suffix (p s u v : string) :
  includes p s = false -> s = u ++ v -> lit false p v = None.
Proof.
  unfold includes. intros H E.
  destruct (split_first p s) eqn:Es; [discriminate |].
  generalize (split_first_None _ _ Es u v E). unfold starts.
  now destruct (lit false p v).
Qed.

(** A text of the shape delimiter line, metadata, delimiter line, body,
    where no line of the metadata behind the first begins with three
    hyphens and, when the metadata are white space only, no line of the body
    does: the two captures are the metadata and the body, each without its
    leading blank lines. *)
Lemma yaml_capture (M B : string) :
  includes (nl ++ "---") M = false ->
  (all is_space M = true -> includes (nl ++ "---") (nl ++ B) = false) ->
  exists x,
    run yamlRegex ("---" ++ nl ++ M ++ nl ++ "---" ++ nl ++ B)
    = Some (Hit x [drop_blank_lines M; drop_blank_lines B] "").
Proof.
  intros Hfence Hbody.
  destruct (leading_blank M) as (lead & HM & Hlead & Htext).
  remember (trimStart M) as text eqn:Etext. clear Etext. subst M.
  set (Y := text ++ nl ++ "---" ++ nl ++ B).
  set (r := [ Star false true any_char; Lit false (nl ++ "---");
              Star true false is_space; Lit false nl; Star true true any_char;
              Eos ]).
  assert (HD : drop_blank_lines (lead ++ text)
               = drop_blank_lines lead ++ text)
    by now apply drop_blank_lines_text_after.
  (* the repetition cannot stop where the white space ends *)
  assert (HY : greedy is_space (run (Lit false nl :: r)) Y = None).
  { unfold Y. destruct Htext as [Ht|Ht].
    - rewrite Ht. cbn [append].
      assert (Hall : all is_space (lead ++ text) = true)
        by (rewrite Ht, app_nil_r; exact Hlead).
      specialize (Hbody Hall).
      assert (Hnone : run r ("---" ++ nl ++ B) = None).
      { unfold r. rewrite run_lazy.
        rewrite lazy_None; [reflexivity |].
        intros u v E. apply run_lit_None.
        destruct u as [|a1 [|a2 [|a3 u]]]; cbn in E.
        - now subst v.
        - injection E as _ <-. reflexivity.
        - injection E as _ _ <-. reflexivity.
        - injection E as _ _ _ E.
          now apply (includes_suffix _ (nl ++ B) u v Hbody). }
      now apply (greedy_line_feed r ("---" ++ nl ++ B)).
    - change (text ++ nl ++ "---" ++ nl ++ B) with (text ++ (nl ++ "---" ++ nl ++ B)).
      apply greedy_text. destruct text as [|c text']; [discriminate | exact Ht]. }
  (* behind a line feed of the white space the rest of the pattern matches *)
  assert (Hr : forall t,
             all (not_char "010") t = true ->
             exists x,
               run r (t ++ Y)
               = Some (Hit x [t ++ text; drop_blank_lines B] "")).
  { intros t Ht. unfold Y. rewrite <- app_assoc.
    apply run_block. intros u v E Hv.
    destruct (suffix_cases _ _ _ _ E) as [(v1 & Hv1 & Et & ->)|(u2 & Eu)].
    - rewrite Et, all_app in Ht. apply andb_true_iff in Ht as [_ Ht].
      destruct v1 as [|a v1]; [now elim Hv1 |]. cbn [all] in Ht.
      apply andb_true_iff in Ht as [Ha _]. unfold not_char in Ha.
      apply negb_true_iff in Ha. cbn [append]. apply lit_first_None.
      unfold char_eq. now rewrite Ascii.eqb_sym.
    - apply (includes_suffix _ (lead ++ text) (lead ++ u2) v Hfence).
      now rewrite Eu, app_assoc. }
  unfold yamlRegex. rewrite run_lit, run_greedy. fold r.
  replace (nl ++ (lead ++ text) ++ nl ++ "---" ++ nl ++ B)
    with ((nl ++ lead) ++ Y).
  2:{ unfold Y. now rewrite !app_assoc. }
  assert (Hblank : forall t, all is_space t = true -> after_blank t = None ->
                             exists h, run r (t ++ Y) = Some h).
  { intros t Ht1 Ht2.
    destruct (Hr t (blank_no_line_feed t Ht1 Ht2)) as (x & Hx).
    eexists. exact Hx. }
  pose proof (greedy_retreat r Y (nl ++ lead) Hlead HY Hblank) as Hret.
  rewrite after_blank_nl in Hret.
  destruct Hret as (w & h & Hg & Hh).
  assert (Hplain : all (not_char "010") (drop_blank_lines lead) = true).
  { unfold drop_blank_lines. destruct (after_blank lead) as [t|] eqn:E.
    - destruct (after_blank_suffix _ _ E) as (u & Hu & _).
      apply blank_no_line_feed.
      + rewrite Hu, all_app in Hlead. now apply andb_true_iff in Hlead.
      + exact (after_blank_last _ _ E).
    - now apply blank_no_line_feed. }
  destruct (Hr _ Hplain) as (x & Hx). rewrite Hx in Hh. injection Hh as <-.
  rewrite Hg. cbn. rewrite HD. eexists. reflexivity.
Qed.

Section Splitter.

Variable yaml_load : string -> loaded.

(** C6, as amended.  For a text [---\n] + M + [\n---\n] + B whose
    metadata M begin with a character that is not white space, hold no
    line feed followed by three hyphens, and load to a value v, the
    splitter returns v (the empty mapping when v is falsy) and B without
    its leading blank lines, with no warning; the body is B itself when B
    is empty or begins with a character that is not white space. *)
Theorem front_matter_split (M B : string) (v : value) :
  begins_with_text M = true ->
  includes (nl ++ "---") M = false ->
  yaml_load M = Loaded v ->
  parseYamlFrontMatter yaml_load ("---" ++ nl ++ M ++ nl ++ "---" ++ nl ++ B)
  = Split (js_or v empty_object) (drop_blank_lines B) []
  /\ (B = "" \/ begins_with_text B = true -> drop_blank_lines B = B).
Proof.
  intros HM Hfence Hload. split; [|apply drop_blank_lines_text].
  destruct M as [|c M']; [discriminate |]. simpl in HM.
  apply negb_true_iff in HM.
  destruct (yaml_shape c M' B HM Hfence) as (x & Hrun).
  unfold parseYamlFrontMatter. rewrite Hrun. simpl. now rewrite Hload.
Qed.

(** C7, as amended.  For a text [---\n] + M + [\n---\n] + B, whose
    closing delimiter line ends with a line feed, where no line of M behind
    the first begins with three hyphens (nor a line of B, when M is white
    space only) and js-yaml throws on M without its leading blank lines:
    the splitter returns the empty mapping and the whole text, and warns
    once with the message of the exception. *)
Theorem malformed_front_matter (M B message : string) :
  includes (nl ++ "---") M = false ->
  (all is_space M = true -> includes (nl ++ "---") (nl ++ B) = false) ->
  yaml_load (drop_blank_lines M) = Thrown message ->
  parseYamlFrontMatter yaml_load ("---" ++ nl ++ M ++ nl ++ "---" ++ nl ++ B)
  = Split empty_object ("---" ++ nl ++ M ++ nl ++ "---" ++ nl ++ B)
      [YamlParseFailed message].
Proof.
  intros Hfence Hbody Hload.
  destruct (yaml_capture M B Hfence Hbody) as (x & Hrun).
  unfold parseYamlFrontMatter. rewrite Hrun. cbn [nth groups].
  now rewrite Hload.
Qed.


End Splitter.

(** The splitter on sample texts. *)

Lemma front_matter_split_witness :
  begins_with_text "a: 1" = true
  /\ includes (nl ++ "---") "a: 1" = false
  /\ Sample.yaml_load "a: 1" = Loaded (VObj [("a", VNum 1)])
  /\ parseYamlFrontMatter Sample.yaml_load
       ("---" ++ nl ++ "a: 1" ++ nl ++ "---" ++ nl ++ nl ++ "# T")
     = Split (VObj [("a", VNum 1)]) "# T" [].
Proof.
  split; [reflexivity | split; [reflexivity | split; [reflexivity |]]].
  exact (proj1 (front_matter_split Sample.yaml_load "a: 1" (nl ++ "# T")
                  (VObj [("a", VNum 1)]) eq_refl eq_refl eq_refl)).
Defined.

(** C6, as stated, fails where the body begins with a blank line: the
    metadata load, and the body returned is not the text behind the
    delimiter line. *)
Lemma front_matter_split_counterexample :
  Sample.yaml_load "a: 1" = Loaded (VObj [("a", VNum 1)])
  /\ body (parseYamlFrontMatter Sample.yaml_load
             ("---" ++ nl ++ "a: 1" ++ nl ++ "---" ++ nl ++ (nl ++ "# T")))
     = "# T"
  /\ parseYamlFrontMatter Sample.yaml_load
       ("---" ++ nl ++ "a: 1" ++ nl ++ "---" ++ nl ++ (nl ++ "# T"))
     <> Split (VObj [("a", VNum 1)]) (nl ++ "# T") [].
Proof.
  split; [reflexivity | split; [reflexivity |]].
  intros H. apply (f_equal body) in H. vm_compute in H. discriminate.
Qed.

Lemma malformed_front_matter_witness :
  includes (nl ++ "---") "a: [" = false
  /\ all is_space "a: [" = false
  /\ Sample.yaml_load (drop_blank_lines "a: [")
     = Thrown "unexpected end of the stream within a flow collection"
  /\ parseYamlFrontMatter Sample.yaml_load (Sample.fenced "a: [" "text")
     = Split empty_object (Sample.fenced "a: [" "text")
         [YamlParseFailed "unexpected end of the stream within a flow collection"].
Proof.
  split; [reflexivity | split; [reflexivity | split; [reflexivity |]]].
  exact (malformed_front_matter Sample.yaml_load "a: [" "text"
           "unexpected end of the stream within a flow collection"
           eq_refl ltac:(discriminate) eq_refl).
Defined.

(** C7, as stated, fails for a block whose closing delimiter ends the
    text: the block is malformed, the text comes back with the empty
    mapping, and no warning is logged. *)
Lemma malformed_front_matter_counterexample :
  Sample.yaml_load "a: ["
  = Thrown "unexpected end of the stream within a flow collection"
  /\ parseYamlFrontMatter Sample.yaml_load
       ("---" ++ nl ++ "a: [" ++ nl ++ "---")
     = Split empty_object ("---" ++ nl ++ "a: [" ++ nl ++ "---") []
  /\ warned (parseYamlFrontMatter Sample.yaml_load
               ("---" ++ nl ++ "a: [" ++ nl ++ "---"))
     <> [YamlParseFailed "unexpected end of the stream within a flow collection"].
Proof.
  split; [reflexivity | split; [reflexivity |]]. discriminate.
Qed.



End FrontMatterFacts.

(** ** Fenced blocks *)

Module FenceFacts.

(** The rule hands every other block to the rule it replaced. *)
Lemma fence_other (baseFence : token -> string) (t : token) :
  toLowerCase (trim (info t)) <> "mermaid" -> fence baseFence t = baseFence t.
Proof.
  intros H. unfold fence.
  destruct (String.eqb_spec (toLowerCase (trim (info t))) "mermaid");
    [contradiction | reflexivity].
Qed.

(** C5.  For a fenced block whose language tag, trimmed and lower-cased,
    is [mermaid], the rule returns the container with the marker class
    around the content of the block as it is, whatever the replaced rule
    (which escapes and highlights) would return: the content does not pass
    through it. *)
Theorem mermaid_fence (baseFence : token -> string) (t : token) :
  toLowerCase (trim (info t)) = "mermaid" ->
  fence baseFence t = container (content t)
  /\ forall highlighting : token -> string,
       fence highlighting t = fence baseFence t.
Proof.
  intros H. unfold fence. rewrite H. simpl. split; reflexivity.
Qed.

(** The scenario of the specification, with a tag in mixed case between
    blanks and a base rule that would have escaped the arrow. *)
Lemma mermaid_fence_witness :
  toLowerCase (trim (info (Token "  Mermaid " "A-->B"))) = "mermaid"
  /\ fence (fun _ => "<pre><code>A--&gt;B</code></pre>")
       (Token "  Mermaid " "A-->B")
     = "<div class=" ++ dq ++ "mermaid" ++ dq ++ ">" ++ nl ++ "A-->B" ++ nl
       ++ "</div>" ++ nl.
Proof.
  split; [reflexivity |].
  exact (proj1 (mermaid_fence (fun _ => "<pre><code>A--&gt;B</code></pre>")
                  (Token "  Mermaid " "A-->B") eq_refl)).
Defined.

End FenceFacts.

(** ** Assembly *)

Module AssemblyFacts.

Lemma rules_not_empty : headingNumberRules <> "".
Proof. discriminate. Qed.


End AssemblyFacts.

(** ** Metadata block *)

Module MetadataFacts.

Import StrFacts RegexFacts.

(** The block is empty exactly when none of the three fields has a truthy
    value. *)
Lemma meta_empty_iff (frontMatter : value) :
  let fm := js_or frontMatter empty_object in
  generateMetaInfo frontMatter = ""
  <-> truthy (prop fm "student_id") = false
      /\ truthy (prop fm "author") = false
      /\ truthy (prop fm "affiliation") = false.
Proof.
  cbv zeta. unfold generateMetaInfo.
  destruct (truthy (prop _ "author")), (truthy (prop _ "affiliation")),
    (truthy (prop _ "student_id")); simpl; split;
    try discriminate; try (intros (? & ? & ?); discriminate);
    now repeat split.
Qed.

(** A replacement text without a dollar sign stands for itself. *)
Lemma expand_plain (matched before after : string) (caps : list string)
    (tpl : string) :
  all (not_char "$") tpl = true ->
  expand matched before after caps tpl = tpl.
Proof.
  induction tpl as [|a t IH]; [reflexivity |].
  simpl. unfold not_char at 1. intros H.
  apply andb_true_iff in H as [Ha Ht]. rewrite Ha, (IH Ht). reflexivity.
Qed.

(** [$1] in front of a text that does not begin with a digit. *)
Lemma expand_group1 (matched before after w : string) (d : ascii)
    (tpl : string) :
  is_digit d = false ->
  expand matched before after [w] ("$1" ++ String d tpl)
  = w ++ expand matched before after [w] (String d tpl).
Proof.
  intros Hd. cbn -[expand is_digit]. 
  change (expand matched before after [w] (String "$" (String "1" (String d tpl))))
    with (if is_digit d
          then (if (List.length [w] <? 10 * 1 + digit_value d)%nat
                then w ++ expand matched before after [w] (String d tpl)
                else match capture [w] (10 * 1 + digit_value d) with
                     | Some c => c ++ expand matched before after [w] tpl
                     | None => String "$" (String "1" (String d
                                 (expand matched before after [w] tpl)))
                     end)
          else w ++ expand matched before after [w] (String d tpl)).
  now rewrite Hd.
Qed.

(** Without a heading the block is dropped. *)
Lemma insert_without_h1 (html metaHtml : string) :
  search h1Regex html = None -> insertAfterFirstH1 html metaHtml = html.
Proof.
  intros H. unfold insertAfterFirstH1. rewrite H.
  now destruct (String.eqb metaHtml "").
Qed.

(** A block without a dollar sign goes right behind the first match of
    the heading pattern. *)
Lemma insert_after_first_h1 (html pre : string) (h : hit) (d : ascii)
    (block : string) :
  search h1Regex html = Some (pre, h) ->
  is_digit d = false ->
  all (not_char "$") (String d block) = true ->
  html = pre ++ whole h ++ rest h
  /\ insertAfterFirstH1 html (String d block)
     = pre ++ whole h ++ String d block ++ rest h.
Proof.
  intros Hs Hd Hplain. split; [exact (search_sound _ _ _ _ Hs) |].
  unfold insertAfterFirstH1. rewrite Hs.
  cbn [String.eqb substitute h1_captures whole groups rest].
  rewrite expand_group1 by exact Hd.
  rewrite expand_plain by exact Hplain.
  now rewrite app_assoc.
Qed.

(** C9 at an author name with two dollar signs: the block that is
    generated shows the name, the text that is inserted shows it with one
    dollar sign only, so what stands behind the heading is not the block. *)
Lemma metadata_dollar_signs :
  let frontMatter := VObj [("author", VStr "A$$B")] in
  let html := "<h1>T</h1><p>x</p>" in
  generateMetaInfo frontMatter
  = nl ++ "  <div class=" ++ dq ++ "document-meta" ++ dq ++ ">" ++ nl
    ++ "    " ++ nl
    ++ "    " ++ meta_div "meta-author" "A$$B" ++ nl
    ++ "    " ++ nl ++ "  </div>"
  /\ insertAfterFirstH1 html (generateMetaInfo frontMatter)
     = "<h1>T</h1>"
       ++ nl ++ "  <div class=" ++ dq ++ "document-meta" ++ dq ++ ">" ++ nl
       ++ "    " ++ nl
       ++ "    " ++ meta_div "meta-author" "A$B" ++ nl
       ++ "    " ++ nl ++ "  </div>"
       ++ "<p>x</p>"
  /\ insertAfterFirstH1 html (generateMetaInfo frontMatter)
     <> "<h1>T</h1>" ++ generateMetaInfo frontMatter ++ "<p>x</p>".
Proof.
  cbv zeta. split; [reflexivity | split; [reflexivity |]].
  vm_compute. discriminate.
Qed.

End MetadataFacts.

(** ** Replacement texts *)

Module ExpandFacts.

Import StrFacts.

Section Expansion.

Variables (matched before after : string) (caps : list string).

Let ex := expand matched before after caps.

Lemma expand_eq (tpl : string) :
  ex tpl
  = match tpl with
    | "" => ""
    | String a t =>
        if negb (Ascii.eqb a "$") then String a (ex t) else
        match t with
        | "" => "$"
        | String b t' =>
            if Ascii.eqb b "$" then String "$" (ex t')
            else if Ascii.eqb b "&" then matched ++ ex t'
            else if Ascii.eqb b "`" then before ++ ex t'
            else if Ascii.eqb b "039" then after ++ ex t'
            else if is_digit b then
              let one :=
                match capture caps (digit_value b) with
                | Some c => c ++ ex t'
                | None => String "$" (ex t)
                end in
              match t' with
              | "" => one
              | String d t'' =>
                  if is_digit d then
                    let index := (10 * digit_value b + digit_value d)%nat in
                    if (List.length caps <? index)%nat then one
                    else match capture caps index with
                         | Some c => c ++ ex t''
                         | None => String "$" (String b (String d (ex t'')))
                         end
                  else one
              end
            else String "$" (ex t)
        end
    end.
Proof. destruct tpl; reflexivity. Qed.

(** A dollar sign at the end of a text has no meaning in front of a
    character that is not special: the expansion of the text does not
    depend on what follows such a character. *)
Lemma expand_app (x : string) (c : ascii) (y : string) :
  special c = false ->
  ex (x ++ String c y) = ex x ++ ex (String c y).
Proof.
  intros Hc. unfold special in Hc.
  apply orb_false_iff in Hc as [Hc Hdig]. apply orb_false_iff in Hc as [Hc Hq].
  apply orb_false_iff in Hc as [Hc Hb]. apply orb_false_iff in Hc as [Hdol Hamp].
  assert (H : forall n x, String.length x <= n ->
                          ex (x ++ String c y) = ex x ++ ex (String c y)).
  { induction n as [|n IH]; intros [|a x'] Hlen; simpl in Hlen;
      try reflexivity; try lia.
    assert (IH0 : ex (x' ++ String c y) = ex x' ++ ex (String c y))
      by (apply IH; lia).
    rewrite (expand_eq (String a x' ++ String c y)), (expand_eq (String a x')).
    cbn [append]. destruct (negb (Ascii.eqb a "$")); [now rewrite IH0 |].
    destruct x' as [|b x'']; cbn [append].
    - rewrite Hdol, Hamp, Hb, Hq, Hdig. reflexivity.
    - simpl in Hlen. cbn [append] in IH0.
      assert (IH1 : ex (x'' ++ String c y) = ex x'' ++ ex (String c y))
        by (apply IH; lia).
      destruct (Ascii.eqb b "$"); [now rewrite IH1 |].
      destruct (Ascii.eqb b "&"); [now rewrite IH1, app_assoc |].
      destruct (Ascii.eqb b "`"); [now rewrite IH1, app_assoc |].
      destruct (Ascii.eqb b "039"); [now rewrite IH1, app_assoc |].
      destruct (is_digit b); [|now rewrite IH0].
      cbv zeta.
      assert (Hone : match capture caps (digit_value b) with
                     | Some c0 => c0 ++ ex (x'' ++ String c y)
                     | None => String "$" (ex (String b (x'' ++ String c y)))
                     end
                     = match capture caps (digit_value b) with
                       | Some c0 => c0 ++ ex x''
                       | None => String "$" (ex (String b x''))
                       end ++ ex (String c y)).
      { destruct (capture caps (digit_value b)).
        - now rewrite IH1, app_assoc.
        - now rewrite IH0. }
      destruct x'' as [|d x''']; cbn [append].
      + rewrite Hdig. exact Hone.
      + destruct (is_digit d); [|exact Hone].
        destruct (List.length caps <? _)%nat; [exact Hone |].
        assert (IH2 : ex (x''' ++ String c y) = ex x''' ++ ex (String c y))
          by (apply IH; simpl in Hlen; lia).
        destruct (capture caps (10 * digit_value b + digit_value d));
          rewrite IH2; [now rewrite app_assoc | reflexivity]. }
  apply (H (String.length x)). lia.
Qed.

(** Plain text at the head of a replacement text stands for itself. *)
Lemma expand_plain_app (p z : string) :
  all (not_char "$") p = true -> ex (p ++ z) = p ++ ex z.
Proof.
  induction p as [|a p IH]; [reflexivity |].
  simpl. intros H. apply andb_true_iff in H as [Ha Hp].
  unfold ex in *. cbn [expand]. unfold not_char in Ha. rewrite Ha.
  now rewrite (IH Hp).
Qed.

End Expansion.

End ExpandFacts.

(** ** Base64 *)

Module Base64Facts.

Import Base64.

Lemma digits_checked :
  forallb (fun n => match digit_index (digit n) with
                    | Some m => Nat.eqb m n && negb (Ascii.eqb (digit n) pad)
                    | None => false
                    end) (seq 0 64) = true.
Proof. vm_compute. reflexivity. Qed.

Lemma digit_spec (n : nat) :
  n < 64 -> digit_index (digit n) = Some n /\ Ascii.eqb (digit n) pad = false.
Proof.
  intros Hn.
  assert (Hin : In n (seq 0 64)) by (apply in_seq; lia).
  generalize (proj1 (forallb_forall _ _) digits_checked n Hin).
  destruct (digit_index (digit n)) as [m|]; [|discriminate].
  intros H. apply andb_true_iff in H as [Hm Hp].
  apply Nat.eqb_eq in Hm. apply negb_true_iff in Hp. now subst.
Qed.

Lemma digit_index_digit (n : nat) : n < 64 -> digit_index (digit n) = Some n.
Proof. intros H. apply (digit_spec n H). Qed.

Lemma digit_not_pad (n : nat) : n < 64 -> Ascii.eqb (digit n) pad = false.
Proof. intros H. apply (digit_spec n H). Qed.

Lemma code_bound (a : ascii) : code a < 256.
Proof. apply nat_ascii_bounded. Qed.

Lemma byte_code (a : ascii) (n : nat) : n = code a -> byte n = a.
Proof. intros ->. apply ascii_nat_embedding. Qed.

(** Induction three bytes at a time. *)
Lemma by_triples (P : string -> Prop) :
  P "" ->
  (forall a, P (String a "")) ->
  (forall a b, P (String a (String b ""))) ->
  (forall a b c s, P s -> P (String a (String b (String c s)))) ->
  forall s, P s.
Proof.
  intros H0 H1 H2 H3 s.
  assert (H : P s /\ (forall a, P (String a s))
              /\ (forall a b, P (String a (String b s)))).
  { induction s as [|c s (IH0 & IH1 & IH2)].
    - auto.
    - repeat split; auto. }
  apply H.
Qed.

Ltac bounds :=
  repeat match goal with
    | a : ascii |- _ =>
        lazymatch goal with
        | _ : code a < 256 |- _ => fail
        | _ => pose proof (code_bound a)
        end
    end.

Ltac sextets :=
  bounds;
  repeat match goal with
    | |- context [digit_index (digit ?n)] =>
        rewrite (digit_index_digit n) by lia
    | |- context [Ascii.eqb (digit ?n) pad] =>
        rewrite (digit_not_pad n) by lia
    end.

(** The round trip: decoding what was encoded gives the bytes back. *)
Lemma decode_encode (bytes : string) : decode (encode bytes) = Some bytes.
Proof.
  induction bytes as [|a|a b|a b c s IH] using by_triples.
  - reflexivity.
  - cbn [encode decode]. sextets.
    rewrite Ascii.eqb_refl. cbn [String.eqb andb].
    do 2 f_equal. apply byte_code. lia.
  - cbn [encode decode]. sextets.
    rewrite !Ascii.eqb_refl. cbn [String.eqb].
    f_equal. f_equal; [|f_equal]; apply byte_code; lia.
  - cbn [encode decode]. sextets. rewrite IH. cbn [option_map].
    f_equal. f_equal; [|f_equal; [|f_equal]]; apply byte_code; lia.
Qed.

Lemma get_all (c : ascii -> bool) (s : string) (n : nat) (a : ascii) :
  all c s = true -> String.get n s = Some a -> c a = true.
Proof.
  revert n; induction s as [|b s IH]; intros n; simpl; [discriminate |].
  intros H. apply andb_true_iff in H as [Hb Hs].
  destruct n as [|n]; [now intros [= <-] | now apply IH].
Qed.

Lemma digit_plain (n : nat) : not_char "$" (digit n) = true.
Proof.
  unfold digit. destruct (String.get n alphabet) as [a|] eqn:G; [|reflexivity].
  now apply (get_all _ alphabet n a).
Qed.

(** The encoding holds no dollar sign. *)
Lemma encode_plain (bytes : string) : all (not_char "$") (encode bytes) = true.
Proof.
  induction bytes as [|a|a b|a b c s IH] using by_triples;
    cbn [encode all]; rewrite ?digit_plain, ?IH; reflexivity.
Qed.

End Base64Facts.

(** ** Image assets *)

Module ImagesFacts.

Import Images StrFacts RegexFacts.

Lemma set_keys {A : Type} (k k' : string) (v : A) (m : list (string * A)) :
  In k (List.map fst (set k' v m)) <-> k = k' \/ In k (List.map fst m).
Proof.
  induction m as [|[k0 v0] m IH]; simpl.
  - intuition.
  - destruct (String.eqb_spec k' k0) as [->|Hne]; simpl.
    + intuition.
    + rewrite IH. intuition.
Qed.

Lemma fold_set_keys (ms : list imageMatch) (acc : list (string * unit))
    (k : string) :
  In k (List.map fst (fold_left (fun m x => set (src x) tt m) ms acc))
  <-> In k (List.map src ms) \/ In k (List.map fst acc).
Proof.
  revert acc; induction ms as [|x ms IH]; intros acc; simpl.
  - intuition.
  - rewrite IH, set_keys. intuition.
Qed.

(** Every image element found has its source among the keys. *)
Lemma src_in_sources (ms : list imageMatch) (m : imageMatch) :
  In m ms -> In (src m) (sources ms).
Proof.
  intros H. unfold sources. apply fold_set_keys. left. now apply in_map.
Qed.

Lemma lookup_map {A : Type} (f : string -> A) (keys : list string) (k : string) :
  In k keys -> lookup k (List.map (fun k => (k, f k)) keys) = Some (f k).
Proof.
  induction keys as [|k0 keys IH]; simpl; [contradiction |].
  destruct (String.eqb_spec k k0) as [->|Hne]; [reflexivity |].
  intros [->|H]; [contradiction | auto].
Qed.

Lemma sizes_agree (path bytes : string) :
  Sample.fs_read path = Some bytes ->
  Sample.fs_stat path
  = Some (Stats true (N.of_nat (String.length bytes))).
Proof.
  assert (Hbig : N.of_nat (String.length Sample.big_svg) = 1048576%N).
  { unfold Sample.big_svg. rewrite length_app.
    assert (Hiter : forall n s,
               String.length (N.iter n (String "x") s)
               = N.to_nat n + String.length s).
    { intros n s. induction n as [|n IH] using N.peano_ind.
      - reflexivity.
      - rewrite N.iter_succ, N2Nat.inj_succ. simpl. now rewrite IH. }
    rewrite Hiter. rewrite !Nat2N.inj_add, N2Nat.id. reflexivity. }
  unfold Sample.fs_read, Sample.fs_stat, Sample.contents, Sample.sizes.
  cbn [lookup].
  repeat (destruct (String.eqb path _);
          [intros [= <-]; try rewrite Hbig; reflexivity |]).
  discriminate.
Qed.

Lemma mimeType_correct (ext : string) :
  In ext rasterExts -> mimeType ext = media_type ext.
Proof.
  unfold rasterExts. simpl.
  intros [<-|[<-|[<-|[<-|[<-|[]]]]]]; reflexivity.
Qed.





Section Resolution.

Variable fs_stat : string -> option stats.
Variable fs_read : string -> option string.
Variable isAbsolute : string -> bool.
Variable resolve : string -> string -> string.
Variable extname : string -> string.
Variable file_href : string -> string.
Variable convertPdfToSvg : string -> option string.
Variable path_join : string -> string -> string.
Variables (mkdir unlink : string -> bool).
Variable readdir : string -> option (list string).
Variable interrupts : string -> string -> bool.
Variables (baseDir : string) (embedBase64 : bool).

Let absolute (source : string) : string :=
  if isAbsolute source then source else resolve baseDir source.

Let resolved (embed : bool) : string -> outcome :=
  resolve_src fs_stat fs_read isAbsolute resolve extname file_href
    convertPdfToSvg baseDir embed.

Let entries (embed : bool) (html : string) : string -> option imageInfo :=
  get (imageMap fs_stat fs_read isAbsolute resolve extname file_href
         convertPdfToSvg baseDir embed (imageMatches html)).

Let called (embed : bool) (html : string) : list event * ending :=
  processImages fs_stat fs_read isAbsolute resolve extname file_href
    convertPdfToSvg path_join mkdir unlink readdir interrupts baseDir embed
    html.

Let processed (embed : bool) : string -> option (string * list warning) :=
  fun html => returned (called embed html).

Let events (embed : bool) : string -> list event :=
  events_src fs_stat fs_read isAbsolute resolve extname file_href
    convertPdfToSvg path_join baseDir embed.

Let loop (embed : bool) : list string -> list string -> list event * bool :=
  visit fs_stat fs_read isAbsolute resolve extname file_href convertPdfToSvg
    path_join interrupts baseDir embed.



(** The process ends in the loop only when the task of one of the sources
    rejects. *)
Lemma visit_dies (embed : bool) (pending keys : list string) :
  (forall p, In p pending -> is_rejected (resolved embed p) = true) ->
  snd (loop embed pending keys) = true ->
  exists p, In p (pending ++ keys) /\ is_rejected (resolved embed p) = true.
Proof.
  revert pending. induction keys as [|k keys IH]; intros pending Hp;
    [discriminate |].
  unfold loop. cbn [visit]. fold (loop embed). fold (resolved embed k).
  destruct (negb (is_remote k) && existsb _ pending) eqn:E.
  - intros _. apply andb_prop in E as [_ E].
    apply existsb_exists in E as (p & Hin & _). exists p.
    split; [apply in_or_app; now left | now apply Hp].
  - cbn [snd]. intros H.
    assert (forall p,
              In p (if is_rejected (resolved embed k)
                    then (pending ++ [k])%list else pending) ->
              is_rejected (resolved embed p) = true) as Hp'.
    { intros p Hin. destruct (is_rejected (resolved embed k)) eqn:R;
        [|now apply Hp].
      apply in_app_or in Hin as [Hin|[<-|[]]]; [now apply Hp | exact R]. }
    destruct (IH _ Hp' H) as (p & Hin & Hrej).
    exists p. split; [|exact Hrej].
    apply in_app_or in Hin as [Hin|Hin].
    + destruct (is_rejected (resolved embed k));
        [|apply in_or_app; now left].
      apply in_app_or in Hin as [Hin|[<-|[]]]; apply in_or_app;
        [now left | right; now left].
    + apply in_or_app. right. now right.
Qed.


(** A call that does not return has a source whose task rejects. *)
Lemma not_returned (embed : bool) (html : string) :
  processed embed html = None ->
  exists k, In k (sources (imageMatches html))
            /\ is_rejected (resolved embed k) = true.
Proof.
  unfold processed, returned, called, processImages. fold (loop embed).
  destruct (snd (loop embed [] _)) eqn:L.
  - intros _. apply (visit_dies embed [] _); [intros p [] | exact L].
  - destruct (existsb _ _) eqn:E; [|discriminate]. intros _.
    apply existsb_exists in E as ([k o] & Hin & Hrej).
    unfold imageMap in Hin. apply in_map_iff in Hin as (k' & [= <- <-] & Hk).
    exists k'. now split.
Qed.

(** What a call returns: the markup after the substitution loop. *)
Lemma returned_markup (embed : bool) (html out : string) (w : list warning) :
  processed embed html = Some (out, w) ->
  out = fold_left (replace_image (entries embed html)) (imageMatches html) html.
Proof.
  unfold processed, returned, called, processImages.
  destruct (snd (visit _ _ _ _ _ _ _ _ _ _ _ _ _)); [discriminate |].
  destruct (existsb _ _); [discriminate |]. cbn [fst snd].
  now intros [= <- _].
Qed.

(** What [imageMap.get] returns for the source of an image element. *)
Lemma get_entry (embed : bool) (html : string) (m : imageMatch) :
  In m (imageMatches html) ->
  entries embed html (src m)
  = match resolved embed (src m) with
    | Entry _ i => Some i
    | _ => None
    end.
Proof.
  intros H. unfold entries, get, imageMap.
  now rewrite (lookup_map _ _ _ (src_in_sources _ _ H)).
Qed.

Lemma media_type_plain (ext : string) :
  all (not_char "$") (media_type ext) = true.
Proof.
  unfold media_type.
  repeat (destruct (String.eqb ext _); [reflexivity |]). reflexivity.
Qed.

(** A rewritten element keeps the new source as it is, whatever dollar
    signs the other attributes hold. *)
Lemma rewritten_source (matched before after : string) (m : imageMatch)
    (reference : string) :
  all (not_char "$") reference = true ->
  exists head tail,
    expand matched before after [] (rewritten m (ImageInfo base64 reference))
    = head ++ "src=" ++ dq ++ reference ++ dq ++ tail.
Proof.
  intros Hplain. unfold rewritten. cbn [content].
  exists (expand matched before after [] ("<img" ++ beforeSrc m)),
         (expand matched before after [] (afterSrc m ++ ">")).
  rewrite <- (app_assoc "<img" (beforeSrc m)).
  change ("src=" ++ dq ++ reference ++ dq ++ afterSrc m ++ ">")
    with (String "s" ("rc=" ++ dq ++ reference ++ dq ++ afterSrc m ++ ">")).
  rewrite ExpandFacts.expand_app by reflexivity. f_equal.
  change (String "s" ("rc=" ++ dq ++ reference ++ dq ++ afterSrc m ++ ">"))
    with (("src=" ++ dq) ++ reference ++ dq ++ afterSrc m ++ ">").
  rewrite <- (app_assoc reference dq), <- (app_assoc ("src=" ++ dq)).
  rewrite ExpandFacts.expand_plain_app.
  - now rewrite !app_assoc.
  - rewrite !all_app, Hplain. reflexivity.
Qed.

(** For a local raster file (png, jpg, jpeg, gif, webp) that can be
    read, with embed mode on, the entry of its source is a data reference
    with the media type of the format and a payload that decodes to the
    bytes of the file; and the turn of the substitution loop for an image
    element with that source, found in the markup between [pre] and [post],
    puts in its place a text that holds [src=] and that data reference
    between quotes. *)
Lemma raster_embedded (source ext bytes : string) (stat : stats) :
  is_remote source = false ->
  fs_stat (absolute source) = Some stat ->
  isFile stat = true ->
  toLowerCase (skip 1 (extname (absolute source))) = ext ->
  In ext rasterExts ->
  fs_read (absolute source) = Some bytes ->
  exists payload,
    let reference := "data:" ++ media_type ext ++ ";base64," ++ payload in
    resolved true source = Entry [] (ImageInfo base64 reference)
    /\ Base64.decode payload = Some bytes
    /\ forall html m result pre post,
         In m (imageMatches html) -> src m = source ->
         split_first (fullMatch m) result = Some (pre, post) ->
         exists head tail,
           replace_image (entries true html) result m
           = pre ++ (head ++ "src=" ++ dq ++ reference ++ dq ++ tail) ++ post.
Proof.
  intros Hremote Hstat Hfile Hext Hraster Hread.
  exists (Base64.encode bytes). cbv zeta.
  assert (Hres : resolved true source
                 = Entry [] (ImageInfo base64
                     ("data:" ++ media_type ext ++ ";base64,"
                      ++ Base64.encode bytes))).
  { unfold resolved, resolve_src. fold (absolute source).
    rewrite Hremote, Hstat, Hfile, Hext. cbn [negb].
    rewrite <- (mimeType_correct ext Hraster).
    unfold rasterExts in Hraster. simpl in Hraster.
    destruct Hraster as [<-|[<-|[<-|[<-|[<-|[]]]]]]; cbn;
      unfold read_as; rewrite Hread; reflexivity. }
  split; [exact Hres | split; [apply Base64Facts.decode_encode |]].
  intros html m result pre post Hm Hsrc Hocc. unfold replace_image.
  rewrite (get_entry true html m Hm), Hsrc, Hres. cbn [type].
  unfold replace_string. rewrite Hocc.
  destruct (rewritten_source (fullMatch m) pre post m
              ("data:" ++ media_type ext ++ ";base64," ++ Base64.encode bytes))
    as (head & tail & ->).
  - rewrite !all_app, media_type_plain, Base64Facts.encode_plain. reflexivity.
  - now exists head, tail.
Qed.


(** An SVG file above the threshold, with embed mode on, becomes a data
    reference. *)
Lemma svg_over_threshold (source text : string) (stat : stats) :
  is_remote source = false ->
  fs_stat (absolute source) = Some stat ->
  isFile stat = true ->
  toLowerCase (skip 1 (extname (absolute source))) = "svg" ->
  (1048576 < size stat)%N ->
  fs_read (absolute source) = Some text ->
  resolved true source
  = Entry [] (ImageInfo base64 (data_url "image/svg+xml" text)).
Proof.
  intros Hremote Hstat Hfile Hext Hsize Hread.
  unfold resolved, resolve_src. fold (absolute source).
  rewrite Hremote, Hstat, Hfile, Hext. cbn. unfold over_1MB.
  apply N.ltb_lt in Hsize. rewrite Hsize.
  unfold read_as. now rewrite Hread.
Qed.

(** C3 at the threshold.  An SVG file of exactly 1048576 bytes, with
    embed mode on, gets an entry of type [svg]: its text is spliced into the
    markup, where the claim has a data reference for it. *)
Theorem svg_at_threshold (source text : string) (stat : stats) :
  is_remote source = false ->
  fs_stat (absolute source) = Some stat ->
  isFile stat = true ->
  toLowerCase (skip 1 (extname (absolute source))) = "svg" ->
  size stat = 1048576%N ->
  fs_read (absolute source) = Some text ->
  resolved true source = Entry [] (ImageInfo svg text)
  /\ resolved true source
     <> Entry [] (ImageInfo base64 (data_url "image/svg+xml" text)).
Proof.
  intros Hremote Hstat Hfile Hext Hsize Hread.
  assert (H : resolved true source = Entry [] (ImageInfo svg text)).
  { unfold resolved, resolve_src. fold (absolute source).
    rewrite Hremote, Hstat, Hfile, Hext. cbn. unfold over_1MB.
    rewrite Hsize. cbn. unfold read_as. now rewrite Hread. }
  split; [exact H | rewrite H; discriminate].
Qed.

(** When no image element of the markup gets an entry, the markup comes
    back as it is. *)
Lemma untouched_document (html : string) :
  (forall m, In m (imageMatches html) ->
             exists w, resolved embedBase64 (src m) = Untouched w) ->
  exists w, processed embedBase64 html = Some (html, w).
Proof.
  intros Hall. destruct (processed embedBase64 html) as [[out w]|] eqn:E.
  - exists w. rewrite (returned_markup _ _ _ _ E). f_equal. f_equal.
    clear E.
    assert (Hfold : forall ms result,
               (forall m, In m ms -> In m (imageMatches html)) ->
               fold_left (replace_image (entries embedBase64 html)) ms result
               = result).
    { induction ms as [|m ms IH]; intros result Hsub; [reflexivity |].
      simpl. rewrite IH by (intros; apply Hsub; now right).
      unfold replace_image. rewrite (get_entry _ html m) by (apply Hsub; now left).
      destruct (Hall m (Hsub m (or_introl eq_refl))) as (w' & ->).
      reflexivity. }
    apply Hfold. auto.
  - destruct (not_returned _ _ E) as (k & Hk & Hrej).
    unfold sources in Hk. apply fold_set_keys in Hk as [Hk|[]].
    apply in_map_iff in Hk as (m & <- & Hm).
    destruct (Hall m Hm) as (w & Hw). now rewrite Hw in Hrej.
Qed.

End Resolution.

(** The scenario of the specification: a heading and an image whose file
    is missing. *)
Lemma missing_image_scenario :
  let html := "<h1 id=" ++ dq ++ "title" ++ dq ++ ">Title</h1>" ++ nl
              ++ "<p>" ++ Sample.img (Sample.attr "src" "missing.png" ++ " "
                                      ++ Sample.attr "alt" "x") ++ "</p>" ++ nl in
  Sample.processImages html
  = ([Called (Mkdir "/doc/.md2pdf_temp"); Called (Stat "/doc/missing.png");
      Logged (ImageNotFound "/doc/missing.png");
      Called (Readdir "/doc/.md2pdf_temp"); Called (Rmdir "/doc/.md2pdf_temp")],
     Returned html).
Proof. reflexivity. Qed.

Lemma raster_embedded_witness :
  is_remote "a.png" = false
  /\ Sample.fs_stat "/doc/a.png" = Some (Stats true 3)
  /\ toLowerCase (skip 1 (Sample.extname "/doc/a.png")) = "png"
  /\ In "png" rasterExts
  /\ Sample.fs_read "/doc/a.png" = Some "PNG"
  /\ exists payload,
       Sample.resolve_src "a.png"
       = Entry [] (ImageInfo base64 ("data:image/png;base64," ++ payload))
       /\ Base64.decode payload = Some "PNG".
Proof.
  repeat (split; [reflexivity || (now left) |]).
  destruct (raster_embedded Sample.fs_stat Sample.fs_read Sample.isAbsolute
              Sample.resolve Sample.extname Sample.file_href
              Sample.convertPdfToSvg "/doc" "a.png" "png" "PNG" (Stats true 3)
              eq_refl eq_refl eq_refl eq_refl (or_introl eq_refl) eq_refl)
    as (payload & Hentry & Hdecode & _).
  exists payload. split; [exact Hentry | exact Hdecode].
Defined.

(** C1 at a paragraph with the raster image of the samples, embed mode
    on.  The call reads the file and returns; the payload of the data
    reference decodes to the bytes of the file; but the name of the element
    and [src] come out as one word, because the white space behind the name
    belongs to no group of the pattern and is not written back, so that the
    markup returned holds no image element any more. *)
Theorem raster_element_fused :
  let html := "<p>" ++ Sample.img (Sample.attr "src" "a.png" ++ " "
                                   ++ Sample.attr "alt" "x") ++ "</p>" in
  let out := "<p><img" ++ Sample.attr "src" "data:image/png;base64,UE5H"
             ++ " " ++ Sample.attr "alt" "x" ++ "></p>" in
  Sample.fs_read "/doc/a.png" = Some "PNG"
  /\ Sample.processImages html
     = ([Called (Mkdir "/doc/.md2pdf_temp"); Called (Stat "/doc/a.png");
         Called (ReadFile "/doc/a.png");
         Called (Readdir "/doc/.md2pdf_temp");
         Called (Rmdir "/doc/.md2pdf_temp")],
        Returned out)
  /\ Base64.decode "UE5H" = Some "PNG"
  /\ List.length (imageMatches html) = 1
  /\ imageMatches out = [].
Proof. repeat split; reflexivity. Qed.


Lemma svg_at_threshold_witness :
  is_remote "big.svg" = false
  /\ Sample.fs_stat "/doc/big.svg" = Some (Stats true 1048576)
  /\ toLowerCase (skip 1 (Sample.extname "/doc/big.svg")) = "svg"
  /\ Sample.fs_read "/doc/big.svg" = Some Sample.big_svg
  /\ Sample.resolve_src "big.svg" = Entry [] (ImageInfo svg Sample.big_svg).
Proof.
  repeat (split; [reflexivity |]).
  exact (proj1 (svg_at_threshold Sample.fs_stat Sample.fs_read
                  Sample.isAbsolute Sample.resolve Sample.extname
                  Sample.file_href Sample.convertPdfToSvg "/doc"
                  "big.svg" Sample.big_svg (Stats true 1048576)
                  eq_refl eq_refl eq_refl eq_refl eq_refl eq_refl)).
Defined.

End ImagesFacts.

(** ** Scans *)

Module ScanFacts.

Import Images StrFacts RegexFacts FrontMatterFacts.

Section Classes.

Variable c : ascii -> bool.

Lemma all_rev_onto (s acc : string) :
  all c (rev_onto s acc) = all c s && all c acc.
Proof.
  revert acc; induction s as [|a s IH]; intros acc; simpl; [reflexivity |].
  rewrite IH. simpl. now rewrite andb_assoc, (andb_comm (all c s)).
Qed.

Lemma all_trimStart (s : string) : all c s = true -> all c (trimStart s) = true.
Proof.
  induction s as [|a s IH]; simpl; [reflexivity |]. intros H.
  destruct (is_space a); [|exact H].
  apply andb_true_iff in H as [_ H]. now apply IH.
Qed.

Lemma all_trim (s : string) : all c s = true -> all c (trim s) = true.
Proof.
  intros H. unfold trim, trimEnd, rev. rewrite all_rev_onto, andb_true_r.
  apply all_trimStart. rewrite all_rev_onto, andb_true_r.
  now apply all_trimStart.
Qed.

(** The captures and the rest of a match are made of characters of the
    input. *)
Lemma run_all (r : regex) (s : string) (h : hit) :
  run r s = Some h -> all c s = true ->
  forallb (all c) (groups h) = true /\ all c (Regex.rest h) = true.
Proof.
  revert s h; induction r as [|n r IH]; intros s h; simpl.
  - intros [= <-] H. now split.
  - destruct n as [ci p|k|k|[|] cap k|cap k|].
    + destruct (lit ci p s) as [[w s']|] eqn:L; [|discriminate].
      destruct (run r s') as [h'|] eqn:R; [|discriminate].
      simpl; intros [= <-] H. destruct (lit_sound _ _ _ _ _ L) as [-> _].
      rewrite all_app in H. apply andb_true_iff in H as [_ H].
      exact (IH _ _ R H).
    + destruct s as [|a s]; [discriminate|].
      destruct (k a); [|discriminate].
      destruct (run r s) as [h'|] eqn:R; [|discriminate].
      simpl; intros [= <-] H. apply andb_true_iff in H as [_ H].
      exact (IH _ _ R H).
    + assert (Hskip : run r s = Some h -> all c s = true ->
                      forallb (all c) (groups h) = true
                      /\ all c (Regex.rest h) = true) by apply IH.
      destruct s as [|a s]; [exact Hskip |].
      destruct (k a); [|exact Hskip].
      destruct (run r s) as [h'|] eqn:R; [|exact Hskip].
      intros [= <-] H. simpl in H. apply andb_true_iff in H as [_ H].
      exact (IH _ _ R H).
    + destruct (greedy k (run r) s) as [[w h']|] eqn:G; [|discriminate].
      simpl; intros [= <-] H.
      destruct (greedy_inv _ _ _ _ _ G) as (s' & -> & _ & R).
      rewrite all_app in H. apply andb_true_iff in H as [Hw H].
      destruct (IH _ _ R H) as [Hg Hr]. simpl.
      destruct cap; simpl; [rewrite Hw|]; now split.
    + destruct (lazy k (run r) s) as [[w h']|] eqn:G; [|discriminate].
      simpl; intros [= <-] H.
      destruct (lazy_inv _ _ _ _ _ G) as (s' & -> & _ & R).
      rewrite all_app in H. apply andb_true_iff in H as [Hw H].
      destruct (IH _ _ R H) as [Hg Hr]. simpl.
      destruct cap; simpl; [rewrite Hw|]; now split.
    + destruct s as [|a s]; [discriminate|].
      destruct (k a); [|discriminate].
      destruct (greedy k (run r) s) as [[w h']|] eqn:G; [|discriminate].
      simpl; intros [= <-] H. apply andb_true_iff in H as [Ha H].
      destruct (greedy_inv _ _ _ _ _ G) as (s' & -> & _ & R).
      rewrite all_app in H. apply andb_true_iff in H as [Hw H].
      destruct (IH _ _ R H) as [Hg Hr]. simpl.
      destruct cap; simpl; [rewrite Ha, Hw|]; now split.
    + destruct s; [apply IH | discriminate].
Qed.

Lemma search_all (r : regex) (s pre : string) (h : hit) :
  search r s = Some (pre, h) -> all c s = true ->
  forallb (all c) (groups h) = true /\ all c (Regex.rest h) = true.
Proof.
  intros Hs H. destruct (search_inv _ _ _ _ Hs) as (s' & -> & R).
  rewrite all_app in H. apply andb_true_iff in H as [_ H].
  exact (run_all _ _ _ R H).
Qed.

Lemma scan_all (r : regex) (fuel : nat) (s : string) :
  all c s = true ->
  forall ph, In ph (fst (scan_fuel fuel r s)) ->
  forallb (all c) (groups (snd ph)) = true.
Proof.
  revert s; induction fuel as [|fuel IH]; intros s H ph; simpl;
    [contradiction |].
  destruct (search r s) as [[pre h]|] eqn:S; [|contradiction].
  destruct (search_all _ _ _ _ S H) as [Hg Hr].
  destruct (whole h); [contradiction |].
  destruct (scan_fuel fuel r (Regex.rest h)) as [l tl] eqn:E. simpl.
  intros [<-|Hin]; [exact Hg |].
  apply (IH _ Hr). now rewrite E.
Qed.

End Classes.

(** Every match of a scan is a match of the pattern at some place. *)
Lemma scan_hits (r : regex) (fuel : nat) (s : string) :
  forall ph, In ph (fst (scan_fuel fuel r s)) ->
  exists s', run r s' = Some (snd ph).
Proof.
  revert s; induction fuel as [|fuel IH]; intros s ph; simpl; [contradiction |].
  destruct (search r s) as [[pre h]|] eqn:S; [|contradiction].
  destruct (whole h); [contradiction |].
  destruct (scan_fuel fuel r (Regex.rest h)) as [l tl] eqn:E. simpl.
  intros [<-|Hin].
  - destruct (search_inv _ _ _ _ S) as (s' & _ & R). now exists s'.
  - apply (IH (Regex.rest h)). now rewrite E.
Qed.

Lemma run_star_inv (g cap : bool) (c : ascii -> bool) (r : regex) (s : string)
    (h : hit) :
  run (Star g cap c :: r) s = Some h ->
  exists w s' h',
    s = w ++ s' /\ all c w = true /\ run r s' = Some h' /\ h = eat w cap h'.
Proof.
  destruct g; [rewrite run_greedy | rewrite run_lazy]; intros H;
    apply close_inv in H as (w & h' & H & ->);
    [apply greedy_inv in H | apply lazy_inv in H];
    destruct H as (s' & -> & Hw & R); now exists w, s', h'.
Qed.

Lemma run_plus_inv (cap : bool) (c : ascii -> bool) (r : regex) (s : string)
    (h : hit) :
  run (Plus cap c :: r) s = Some h ->
  exists w s' h',
    s = w ++ s' /\ all c w = true /\ run r s' = Some h' /\ h = eat w cap h'.
Proof.
  cbn [run]. destruct s as [|a s]; [discriminate |].
  destruct (c a) eqn:Ca; [|discriminate].
  intros H. apply close_inv in H as (w & h' & H & ->).
  destruct (greedy c (run r) s) as [[w' h'']|] eqn:G; [|discriminate].
  injection H as <- <-.
  apply greedy_inv in G as (s' & -> & Hw & R).
  exists (String a w'), s', h''. simpl. now rewrite Ca, Hw.
Qed.

Lemma run_one_inv (c : ascii -> bool) (r : regex) (s : string) (h : hit) :
  run (One c :: r) s = Some h ->
  exists a s' h', s = String a s' /\ run r s' = Some h' /\ h = eat1 a h'.
Proof.
  cbn [run]. destruct s as [|a s]; [discriminate |].
  destruct (c a); [|discriminate].
  destruct (run r s) as [h'|] eqn:R; [|discriminate].
  intros [= <-]. now exists a, s, h'.
Qed.

(** The attribute text around the source of an image element holds no
    closing character. *)
Lemma match_safe (html : string) (m : imageMatch) :
  In m (imageMatches html) ->
  all (not_char ">") (beforeSrc m ++ afterSrc m) = true.
Proof.
  unfold imageMatches. intros H. apply in_map_iff in H as (ph & <- & Hin).
  destruct (scan_hits _ _ _ _ Hin) as (s & H). unfold imgRegex in H.
  apply run_lit_inv in H as (s1 & h1 & _ & H & ->).
  apply run_plus_inv in H as (w1 & s2 & h2 & _ & _ & H & ->).
  apply run_star_inv in H as (g0 & s3 & h3 & _ & Hg0 & H & ->).
  apply run_lit_inv in H as (s4 & h4 & _ & H & ->).
  apply run_one_inv in H as (q1 & s5 & h5 & _ & H & ->).
  apply run_plus_inv in H as (g1 & s6 & h6 & _ & _ & H & ->).
  apply run_one_inv in H as (q2 & s7 & h7 & _ & H & ->).
  apply run_star_inv in H as (g2 & s8 & h8 & _ & Hg2 & H & ->).
  apply run_lit_inv in H as (s9 & h9 & _ & H & ->).
  injection H as <-. unfold to_match. cbn.
  now rewrite all_app, Hg0, Hg2.
Qed.

Lemma lower_safe (a : ascii) :
  not_char ">" (lower_char a) = not_char ">" a.
Proof. destruct a as [[] [] [] [] [] [] [] []]; reflexivity. Qed.

Lemma toLowerCase_safe (s : string) :
  all (not_char ">") (toLowerCase s) = all (not_char ">") s.
Proof.
  induction s as [|a s IH]; [reflexivity |].
  cbn [toLowerCase Str.map all]. fold (toLowerCase s).
  now rewrite lower_safe, IH.
Qed.

Lemma set_safe (k v : string) (m : list (string * string)) :
  all (not_char ">") k = true -> all (not_char ">") v = true ->
  tag_safe m = true -> tag_safe (set k v m) = true.
Proof.
  intros Hk Hv. unfold tag_safe.
  induction m as [|[k0 v0] m IH]; cbn [set forallb fst snd].
  - now rewrite Hk, Hv.
  - intros H. apply andb_true_iff in H as [H0 H].
    destruct (String.eqb k k0); cbn [forallb fst snd].
    + now rewrite Hk, Hv, H.
    + now rewrite H0, (IH H).
Qed.

Lemma nth_all (c : ascii -> bool) (n : nat) (l : list string) :
  forallb (all c) l = true -> all c (nth n l "") = true.
Proof.
  revert n; induction l as [|x l IH]; intros [|n]; simpl; try reflexivity;
    intros H; apply andb_true_iff in H as [Hx Hl]; auto.
Qed.

(** The names and values read from an attribute text without a closing
    character hold none. *)
Lemma attrMap_safe (s : string) :
  all (not_char ">") s = true -> tag_safe (attrMap s) = true.
Proof.
  intros H. unfold attrMap, scan.
  pose proof (scan_all (not_char ">") attrRegex (String.length s) s H) as Hall.
  revert Hall. generalize (fst (scan_fuel (String.length s) attrRegex s)).
  intros l Hall.
  assert (Hfold : forall acc, tag_safe acc = true ->
             tag_safe (fold_left
               (fun m ph => set (toLowerCase (group 0 (snd ph)))
                              (group 1 (snd ph)) m) l acc) = true).
  { induction l as [|ph l IH]; intros acc Hacc; [exact Hacc |].
    simpl. apply IH.
    - intros ph' Hin. apply Hall. now right.
    - pose proof (Hall ph (or_introl eq_refl)) as Hg.
      apply set_safe; [| |exact Hacc].
      + rewrite toLowerCase_safe. now apply nth_all.
      + now apply nth_all. }
  now apply Hfold.
Qed.

End ScanFacts.

(** ** Splicing a drawing *)

Module SpliceFacts.

Import Images StrFacts RegexFacts FrontMatterFacts ScanFacts.

(** Before the leftmost match no match starts. *)
Lemma search_first (r : regex) (s pre : string) (h : hit) :
  search r s = Some (pre, h) ->
  forall u v, pre = u ++ v -> v <> "" ->
  run r (v ++ whole h ++ rest h) = None.
Proof.
  revert pre h; induction s as [|a s IH]; intros pre h; simpl.
  - destruct (run r "") eqn:R; [|discriminate].
    intros [= <- <-] [|] [|] ? ?; try discriminate. congruence.
  - destruct (run r (String a s)) eqn:R.
    + intros [= <- <-] [|] [|] ? ?; try discriminate. congruence.
    + destruct (search r s) as [[pre' h']|] eqn:S; [|discriminate].
      unfold grow; simpl. intros [= <- <-] u v Huv Hv.
      pose proof (search_sound _ _ _ _ S) as Hs.
      destruct u as [|b u]; simpl in Huv.
      * subst v. simpl. now rewrite <- Hs.
      * injection Huv as <- ->. now apply (IH _ _ eq_refl u v).
Qed.

(** A literal looks at as many characters as it has. *)
Lemma lit_more (ci : bool) (p s w t x : string) :
  lit ci p s = Some (w, t) -> lit ci p (s ++ x) = Some (w, t ++ x).
Proof.
  revert s w t; induction p as [|c p IH]; intros s w t; simpl.
  - now intros [= <- <-].
  - destruct s as [|a s]; [discriminate |]. simpl.
    destruct (char_eq ci c a); [|discriminate].
    destruct (lit ci p s) as [[w' t']|] eqn:L; [|discriminate].
    intros [= <- <-]. now rewrite (IH _ _ _ L).
Qed.

Lemma lit_less (ci : bool) (p s x : string) :
  String.length p <= String.length s ->
  lit ci p (s ++ x) = None -> lit ci p s = None.
Proof.
  revert s; induction p as [|c p IH]; intros s; simpl.
  - discriminate.
  - destruct s as [|a s]; simpl; [lia |]. intros Hlen.
    destruct (char_eq ci c a); [|reflexivity].
    destruct (lit ci p (s ++ x)) as [[w t]|] eqn:L; [discriminate |].
    intros _. rewrite (IH s); [reflexivity | lia | exact L].
Qed.

Lemma lit_None_more (ci : bool) (p s x : string) :
  lit ci p s = None -> String.length p <= String.length s ->
  lit ci p (s ++ x) = None.
Proof.
  revert s; induction p as [|c p IH]; intros s; simpl.
  - discriminate.
  - destruct s as [|a s]; simpl; [lia |].
    destruct (char_eq ci c a); [|reflexivity].
    destruct (lit ci p s) as [[w' t']|] eqn:L1; [discriminate |].
    intros _ Hlen. rewrite (IH s L1); [reflexivity | lia].
Qed.

(** The end of the opening tag: the first closing character. *)
Lemma tag_end (a rest : string) :
  all (not_char ">") a = true ->
  lazy (not_char ">") (run [Lit false ">"]) (a ++ ">" ++ rest)
  = Some (a, Hit ">" [] rest).
Proof.
  intros Ha. apply lazy_pick; [exact Ha | | reflexivity].
  intros u [|c v] -> Hv; [now elim Hv |].
  rewrite all_app in Ha. apply andb_true_iff in Ha as [_ Ha]. simpl in Ha.
  apply andb_true_iff in Ha as [Hc _]. unfold not_char in Hc.
  apply negb_true_iff in Hc. rewrite Ascii.eqb_sym in Hc.
  cbn -[Ascii.eqb]. now rewrite Hc.
Qed.

(** Behind a closing character somewhere, the tag can be closed. *)
Lemma tag_closes (x y : string) :
  lazy (not_char ">") (run [Lit false ">"]) (x ++ ">" ++ y) <> None.
Proof.
  induction x as [|c x IH]; [cbn; discriminate |].
  cbn [append lazy] in IH |- *.
  destruct (run _ (String c _)) eqn:R; [discriminate |].
  destruct (not_char ">" c) eqn:Hc.
  - destruct (lazy _ _ _); [discriminate | contradiction].
  - exfalso. unfold not_char in Hc. apply negb_false_iff in Hc.
    apply Ascii.eqb_eq in Hc. subst c. cbn in R. discriminate.
Qed.

(** The opening tag at the head of a text. *)
Lemma run_opening (a post : string) :
  all (not_char ">") a = true ->
  run svgRegex ("<svg" ++ a ++ ">" ++ post) = Some (opening a post).
Proof.
  intros Ha. unfold svgRegex.
  change (run (Lit true "<svg" :: ?r) ("<svg" ++ ?s))
    with (option_map (eat "<svg" false) (run r s)).
  rewrite run_lazy, (tag_end a post Ha). reflexivity.
Qed.

(** Where the pattern fails although a tag could be closed, the text does
    not begin with the name of the drawing. *)
Lemma not_opening (v x y : string) :
  v <> "" ->
  run svgRegex (v ++ "<svg" ++ x ++ ">" ++ y) = None ->
  lit true "<svg" (v ++ "<svg") = None.
Proof.
  intros Hv Hrun.
  destruct (lit true "<svg" (v ++ "<svg")) as [[w t]|] eqn:L; [|reflexivity].
  exfalso. apply (lit_more _ _ _ _ _ (x ++ ">" ++ y)) in L.
  rewrite app_assoc in L. unfold svgRegex in Hrun.
  cbn [run] in Hrun. rewrite L in Hrun.
  pose proof (tag_closes (t ++ x) y) as Hc. rewrite app_assoc in Hc.
  destruct (lazy _ _ _); [discriminate | contradiction].
Qed.

(** The place of the first opening tag does not depend on its attribute
    text nor on what follows it. *)
Lemma found_stable (pre a post a' post' : string) :
  search svgRegex (svg_text pre a post) = Some (pre, opening a post) ->
  all (not_char ">") a' = true ->
  search svgRegex (svg_text pre a' post') = Some (pre, opening a' post').
Proof.
  intros Hfound Ha'. unfold svg_text.
  apply search_pick; [|now apply run_opening].
  intros u v Hpre Hv.
  pose proof (search_first _ _ _ _ Hfound u v Hpre Hv) as Hrun.
  cbn [whole rest opening] in Hrun. rewrite !app_assoc in Hrun.
  pose proof (not_opening v a post Hv Hrun) as Hlit.
  assert (Hlen : String.length "<svg" <= String.length (v ++ "<svg")).
  { rewrite length_app. simpl. lia. }
  pose proof (lit_None_more true "<svg" (v ++ "<svg") (a' ++ ">" ++ post')
                Hlit Hlen) as Hnone.
  rewrite app_assoc in Hnone. unfold svgRegex. cbn [run]. now rewrite Hnone.
Qed.

(** What a match of the pattern at the first opening tag says. *)
Lemma found_inv (svgText pre a post : string) :
  search svgRegex svgText = Some (pre, opening a post) ->
  svgText = svg_text pre a post /\ all (not_char ">") a = true.
Proof.
  intros Hfound. split.
  - rewrite (search_sound _ _ _ _ Hfound). unfold svg_text, opening; simpl.
    now rewrite !app_assoc.
  - destruct (search_inv _ _ _ _ Hfound) as (s' & _ & Hrun).
    unfold svgRegex in Hrun. cbn [run] in Hrun.
    destruct (lit true "<svg" s') as [[w t]|]; [|discriminate].
    destruct (lazy _ _ t) as [[m h]|] eqn:Z; [|discriminate].
    destruct (lazy_inv _ _ _ _ _ Z) as (t' & _ & Hm & Hk).
    cbn [run] in Hk. destruct (lit false ">" t') as [[? ?]|]; [|discriminate].
    injection Hk as <-. cbn in Hrun. injection Hrun as _ ->. exact Hm.
Qed.

Lemma lookup_safe (attrs : list (string * string)) (k v : string) :
  tag_safe attrs = true -> lookup k attrs = Some v ->
  all (not_char ">") v = true.
Proof.
  unfold tag_safe. induction attrs as [|[k0 v0] attrs IH]; [discriminate |].
  simpl. intros H. apply andb_true_iff in H as [H0 H].
  apply andb_true_iff in H0 as [_ Hv0].
  destruct (String.eqb k k0); [now intros [= <-] | now apply IH].
Qed.

Lemma attribute_safe (k v : string) :
  all (not_char ">") k = true -> all (not_char ">") v = true ->
  all (not_char ">") (attribute k v) = true.
Proof.
  intros Hk Hv. unfold attribute. rewrite !all_app, Hk, Hv. reflexivity.
Qed.

Lemma join_safe (l : list string) :
  forallb (all (not_char ">")) l = true ->
  all (not_char ">") (join " " l) = true.
Proof.
  induction l as [|x l IH]; [reflexivity |].
  intros H. cbn [forallb] in H. apply andb_true_iff in H as [Hx Hl].
  destruct l as [|y l]; [exact Hx |].
  change (join " " (x :: y :: l)) with (x ++ " " ++ join " " (y :: l)).
  rewrite !all_app, Hx, (IH Hl). reflexivity.
Qed.

Lemma otherAttrs_safe (attrs : list (string * string)) :
  tag_safe attrs = true -> forallb (all (not_char ">")) (otherAttrs attrs) = true.
Proof.
  unfold tag_safe, otherAttrs. induction attrs as [|[k v] attrs IH];
    [reflexivity |].
  cbn [forallb filter fst snd]. intros H. apply andb_true_iff in H as [H0 H].
  apply andb_true_iff in H0 as [Hk Hv]. specialize (IH H).
  destruct (negb _); cbn [List.map forallb fst snd]; [|exact IH].
  now rewrite (attribute_safe k v Hk Hv), IH.
Qed.

Lemma carried_safe (name : string) (attrs : list (string * string))
    (a : string) :
  all (not_char ">") name = true -> tag_safe attrs = true ->
  all (not_char ">") (carried name attrs a) = true.
Proof.
  intros Hn Hs. unfold carried.
  destruct (lookup name attrs) as [v|] eqn:L; [|reflexivity].
  destruct (test _ a); [reflexivity |].
  change (all (not_char ">") (attribute name v) = true).
  apply attribute_safe; [exact Hn | exact (lookup_safe _ _ _ Hs L)].
Qed.

Lemma passed_through_safe (attrs : list (string * string)) :
  tag_safe attrs = true -> all (not_char ">") (passed_through attrs) = true.
Proof.
  intros Hs. unfold passed_through.
  pose proof (join_safe _ (otherAttrs_safe _ Hs)) as H.
  destruct (otherAttrs attrs); [reflexivity | exact H].
Qed.

Section Steps.

Variables (attrs : list (string * string)) (pre a post : string).

Hypothesis found :
  search svgRegex (svg_text pre a post) = Some (pre, opening a post).

(** The step for a dimension adds it to the opening tag unless the
    attribute text of the tag defines it. *)
Lemma dimension_step (name : string) :
  add_dimension name attrs (svg_text pre a post)
  = svg_text pre (a ++ carried name attrs a) post.
Proof.
  unfold add_dimension, carried.
  destruct (lookup name attrs) as [v|]; [|now rewrite app_nil_r].
  unfold replace_first. rewrite found.
  cbn [substitute group groups nth whole opening Regex.rest].
  destruct (test (definesRegex name) a); cbn [negb]; unfold svg_text.
  - now rewrite app_nil_r, !app_assoc.
  - now rewrite !app_assoc.
Qed.

(** The step for the alternative text puts a title behind the opening tag
    unless the text holds one. *)
Lemma title_step :
  (forall alt, lookup "alt" attrs = Some alt ->
               all (not_char "$") alt = true) ->
  add_title attrs (svg_text pre a post)
  = svg_text pre a (title_for attrs (svg_text pre a post) ++ post).
Proof.
  intros Hplain. unfold add_title, title_for.
  destruct (lookup "alt" attrs) as [alt|]; [|reflexivity].
  specialize (Hplain alt eq_refl).
  destruct (test titleRegex (svg_text pre a post)); cbn [negb];
    [reflexivity |].
  unfold replace_first. rewrite found.
  cbn [substitute groups whole opening Regex.rest].
  assert (Hexp : forall m b f,
             expand m b f [a] ("<svg$1><title>" ++ alt ++ "</title>")
             = "<svg" ++ a ++ "><title>" ++ alt ++ "</title>").
  { intros m b f.
    change ("<svg$1><title>" ++ alt ++ "</title>")
      with ("<svg" ++ "$1" ++ String ">" ("<title>" ++ alt ++ "</title>")).
    change (expand m b f [a] ("<svg" ++ ?t)) with ("<svg" ++ expand m b f [a] t).
    rewrite (MetadataFacts.expand_group1 m b f a ">"
               ("<title>" ++ alt ++ "</title>") eq_refl).
    rewrite MetadataFacts.expand_plain; [reflexivity |].
    change (all (not_char "$") ("><title>" ++ alt ++ "</title>") = true).
    rewrite !all_app, Hplain. reflexivity. }
  rewrite Hexp. unfold svg_text. now rewrite !app_assoc.
Qed.

(** The step for the other attributes appends them to the opening tag. *)
Lemma others_step :
  add_others attrs (svg_text pre a post)
  = svg_text pre (a ++ passed_through attrs) post.
Proof.
  unfold add_others, passed_through.
  destruct (otherAttrs attrs) as [|x l]; [now rewrite app_nil_r |].
  unfold replace_first. rewrite found.
  cbn [substitute group groups nth whole opening Regex.rest].
  unfold svg_text. now rewrite !app_assoc.
Qed.

End Steps.

(** The steps of the splice together.  For a drawing whose first opening tag is
    [<svg a>], spliced for an image element of the markup whose
    alternative text holds no dollar sign, the
    opening tag of the result is [<svg a w h o>] where w is the width of the
    image element, or nothing when a defines a width, h is its height, or
    nothing when a (with w) defines a height, and o are its other
    attributes; the title element with the alternative text follows the tag
    unless the text holds a title; all else is unchanged.  So a dimension
    of the image element is carried exactly when the root does not define
    it, and is never written beside one that the root defines. *)
Lemma splice_carries (html : string) (m : imageMatch)
    (svgText pre a post : string) :
  let attrs := attrMap (trim (beforeSrc m ++ afterSrc m)) in
  In m (imageMatches html) ->
  search svgRegex svgText = Some (pre, Hit ("<svg" ++ a ++ ">") [a] post) ->
  (forall alt, lookup "alt" attrs = Some alt ->
               all (not_char "$") alt = true) ->
  let w := carried "width" attrs a in
  let h := carried "height" attrs (a ++ w) in
  let t := title_for attrs (svg_text pre (a ++ w ++ h) post) in
  splice m svgText
  = svg_text pre (a ++ w ++ h ++ passed_through attrs) (t ++ post).
Proof.
  intros attrs Hm Hfound Hplain w h t.
  assert (Hsafe : tag_safe attrs = true)
    by (apply attrMap_safe, all_trim, (match_safe html), Hm).
  destruct (found_inv _ _ _ _ Hfound) as [-> Ha].
  change (search svgRegex (svg_text pre a post) = Some (pre, opening a post))
    in Hfound.
  unfold splice. fold attrs.
  rewrite (dimension_step attrs pre a post Hfound "width"). fold w.
  assert (Haw : all (not_char ">") (a ++ w) = true).
  { rewrite all_app, Ha. now apply carried_safe. }
  pose proof (found_stable _ _ _ _ post Hfound Haw) as Hfound1.
  rewrite (dimension_step attrs pre (a ++ w) post Hfound1 "height"). fold h.
  assert (Hawh : all (not_char ">") ((a ++ w) ++ h) = true).
  { rewrite all_app, Haw. now apply carried_safe. }
  pose proof (found_stable _ _ _ _ post Hfound Hawh) as Hfound2.
  rewrite (title_step attrs pre ((a ++ w) ++ h) post Hfound2 Hplain).
  rewrite (app_assoc a w h). fold t.
  rewrite (app_assoc a w h) in Hawh.
  pose proof (found_stable _ _ _ _ (t ++ post) Hfound Hawh) as Hfound3.
  rewrite (others_step attrs pre (a ++ w ++ h) (t ++ post) Hfound3).
  now rewrite !app_assoc.
Qed.

(** An image element with a width and a class for a drawing whose root has
    both: the width of the image element is not on the root of the spliced
    drawing, and the root has two class attributes. *)
Lemma splice_counterexample :
  imageMatches ("<p>" ++ Sample.hero ++ "</p>") = [Sample.hero_match]
  /\ lookup "width" (attrMap (trim (beforeSrc Sample.hero_match ++ afterSrc Sample.hero_match)))
     = Some "100"
  /\ splice Sample.hero_match Sample.logo_svg
     = "<svg" ++ " " ++ Sample.attr "width" "500" ++ " "
       ++ Sample.attr "class" "logo" ++ " " ++ Sample.attr "class" "hero"
       ++ ">" ++ "<title>Logo</title>" ++ "<g/></svg>"
  /\ root_has "width" "100" (splice Sample.hero_match Sample.logo_svg) = false
  /\ returned (Sample.processImages ("<p>" ++ Sample.hero ++ "</p>"))
     = Some ("<p>" ++ splice Sample.hero_match Sample.logo_svg ++ "</p>", []).
Proof. repeat split; vm_compute; reflexivity. Qed.

Lemma splice_carries_witness :
  In Sample.hero_match (imageMatches ("<p>" ++ Sample.hero ++ "</p>"))
  /\ search svgRegex Sample.logo_svg
     = Some ("", Hit ("<svg" ++ " " ++ Sample.attr "width" "500" ++ " "
                      ++ Sample.attr "class" "logo" ++ ">")
                   [" " ++ Sample.attr "width" "500" ++ " "
                    ++ Sample.attr "class" "logo"] "<g/></svg>")
  /\ lookup "alt"
       (attrMap (trim (beforeSrc Sample.hero_match ++ afterSrc Sample.hero_match)))
     = Some "Logo"
  /\ splice Sample.hero_match Sample.logo_svg
     = svg_text ""
         (" " ++ Sample.attr "width" "500" ++ " " ++ Sample.attr "class" "logo"
          ++ " " ++ Sample.attr "class" "hero")
         ("<title>Logo</title>" ++ "<g/></svg>").
Proof.
  split; [now left | split; [reflexivity | split; [reflexivity |]]].
  refine (splice_carries ("<p>" ++ Sample.hero ++ "</p>") Sample.hero_match
            Sample.logo_svg ""
            (" " ++ Sample.attr "width" "500" ++ " "
             ++ Sample.attr "class" "logo") "<g/></svg>"
            (or_introl eq_refl) eq_refl _).
  intros alt H. vm_compute in H. injection H as <-. reflexivity.
Defined.

(** C4 at an image element with a width and a class, for an icon below
    the threshold whose root has a class and a stroke width but no width.
    The call returns the markup with the icon in the place of the element.
    The width of the element is not on the root: the test for a width on
    the root looks for the letters of the name before an equals sign and
    finds them in [stroke-width=].  The class of the element is written
    behind the class of the root: the other attributes are appended without
    the test that the two dimensions get. *)
Theorem icon_width_lost_class_twice :
  let element := Sample.img (Sample.attr "src" "icon.svg" ++ " "
                             ++ Sample.attr "width" "100" ++ " "
                             ++ Sample.attr "class" "hero") in
  let root := " " ++ Sample.attr "class" "icon" ++ " "
              ++ Sample.attr "stroke-width" "2" in
  Cases.fs_stat "/doc/icon.svg" = Some (Stats true 48)
  /\ Cases.fs_read "/doc/icon.svg" = Some ("<svg" ++ root ++ "><path/></svg>")
  /\ List.map (fun m => attrMap (trim (beforeSrc m ++ afterSrc m)))
       (imageMatches ("<p>" ++ element ++ "</p>"))
     = [[("width", "100"); ("class", "hero")]]
  /\ test (definesRegex "width") root = true
  /\ Cases.processImages ("<p>" ++ element ++ "</p>")
     = ([Called (Mkdir "/doc/.md2pdf_temp"); Called (Stat "/doc/icon.svg");
         Called (ReadFile "/doc/icon.svg");
         Called (Readdir "/doc/.md2pdf_temp");
         Called (Rmdir "/doc/.md2pdf_temp")],
        Returned ("<p><svg" ++ root ++ " " ++ Sample.attr "class" "hero"
                  ++ "><path/></svg></p>")).
Proof. repeat split; vm_compute; reflexivity. Qed.

End SpliceFacts.

(** ** Command line *)

Module CliFacts.

Import Cli Images.

Lemma has_add (x y : string) (flags : list string) :
  has (add x flags) y = has flags y || String.eqb y x.
Proof.
  unfold add, has. destruct (existsb (String.eqb x) flags) eqn:E.
  - destruct (String.eqb y x) eqn:Eyx; [|now rewrite orb_false_r].
    apply String.eqb_eq in Eyx. subst y. now rewrite E.
  - rewrite existsb_app. simpl. now rewrite orb_false_r.
Qed.

Lemma collect_by_kind (args flags pos : list string) :
  match find is_unknown args with
  | Some arg => collect args flags pos = inl (UnknownFlag arg)
  | None =>
      exists flags',
        collect args flags pos
        = inr (flags', (pos ++ filter is_positional args)%list)
        /\ has flags' "verbose" = has flags "verbose" || existsb is_verbose args
        /\ has flags' "saveHtml"
           = has flags "saveHtml" || existsb is_saveHtml args
  end.
Proof.
  revert flags pos. induction args as [|arg args IH]; intros flags pos.
  - simpl. exists flags. now rewrite List.app_nil_r, !orb_false_r.
  - cbn [collect find filter existsb].
    unfold is_unknown, is_positional, is_flag, is_verbose, is_saveHtml.
    destruct (String.eqb arg "-v" || String.eqb arg "--verbose") eqn:Ev.
    + cbn [negb andb orb]. specialize (IH (add "verbose" flags) pos).
      destruct (find _ args); [exact IH |].
      destruct IH as (f & Hc & Hv & Hs). exists f.
      rewrite Hc, Hv, Hs, !has_add. cbn [String.eqb Ascii.eqb Bool.eqb].
      rewrite !orb_false_r, orb_true_r.
      split; [reflexivity |]. split; [reflexivity |].
      destruct (String.eqb arg "--save-html") eqn:Es; [|reflexivity].
      apply String.eqb_eq in Es. subst arg. discriminate.
    + cbn [negb andb orb].
      destruct (String.eqb arg "--save-html") eqn:Es.
      * cbn [negb andb orb]. specialize (IH (add "saveHtml" flags) pos).
        destruct (find _ args); [exact IH |].
        destruct IH as (f & Hc & Hv & Hs). exists f.
        rewrite Hc, Hv, Hs, !has_add. cbn [String.eqb Ascii.eqb Bool.eqb].
        now rewrite !orb_false_r, orb_true_r.
      * cbn [negb andb orb]. destruct (startsWith "--" arg) eqn:Ed.
        -- reflexivity.
        -- cbn [negb]. specialize (IH flags (pos ++ [arg])%list).
           destruct (find _ args); [exact IH |].
           destruct IH as (f & Hc & Hv & Hs). exists f.
           now rewrite Hc, Hv, Hs, <- List.app_assoc.
Qed.

(** X1.  The result of [parseArgs] is decided by the kinds of the arguments
    after the first two: the first unknown flag, if there is one, is reported,
    whatever the number of positional arguments; otherwise one or two
    positional arguments are the input and the output (an empty second one
    counts as absent), any other number is the usage error, and each of the two
    switches is on exactly when one of its spellings occurs, in any place and
    any number of times. *)
Theorem parseArgs_by_kind (argv : list string) :
  let args := skipn 2 argv in
  let verbose := existsb is_verbose args in
  let saveHtml := existsb is_saveHtml args in
  parseArgs argv
  = match find is_unknown args with
    | Some arg => inl (UnknownFlag arg)
    | None =>
        match filter is_positional args with
        | [input] => inr (Cli input None verbose saveHtml)
        | [input; output] =>
            inr (Cli input (if String.eqb output "" then None else Some output)
                     verbose saveHtml)
        | _ => inl Usage
        end
    end.
Proof.
  intros args verbose saveHtml. unfold parseArgs. fold args.
  pose proof (collect_by_kind args [] []) as H.
  destruct (find is_unknown args); [now rewrite H |].
  destruct H as (flags & -> & Hv & Hs). cbn [app has existsb orb] in *.
  unfold has in Hv, Hs. unfold has. rewrite Hv, Hs. fold verbose saveHtml.
  destruct (filter is_positional args) as [|i [|o [|x l]]]; reflexivity.
Qed.

(** The loop with one more [-v] or [--verbose] at the end. *)
Lemma collect_verbose (args flags pos : list string) (flag : string) :
  is_verbose flag = true ->
  collect (args ++ [flag]) flags pos
  = match collect args flags pos with
    | inl e => inl e
    | inr (flags', pos') => inr (add "verbose" flags', pos')
    end.
Proof.
  intros Hv. unfold is_verbose in Hv. revert flags pos.
  induction args as [|arg args IH]; intros flags pos; cbn [collect app].
  - now rewrite Hv.
  - destruct (String.eqb arg "-v" || String.eqb arg "--verbose"); [apply IH |].
    destruct (String.eqb arg "--save-html"); [apply IH |].
    destruct (startsWith "--" arg); [reflexivity | apply IH].
Qed.

(** One more [-v] or [--verbose] at the end of the command line turns the
    switch on and changes nothing else. *)
Lemma parseArgs_verbose (argv : list string) (flag : string) :
  2 <= List.length argv -> is_verbose flag = true ->
  parseArgs (argv ++ [flag])
  = match parseArgs argv with
    | inl e => inl e
    | inr c => inr (Cli (input c) (output c) true (saveHtml c))
    end.
Proof.
  intros Hlen Hv. unfold parseArgs.
  rewrite skipn_app. replace (2 - List.length argv) with 0 by lia.
  change (skipn 0 [flag]) with [flag]. rewrite (collect_verbose _ _ _ _ Hv).
  destruct (collect (skipn 2 argv) [] []) as [e|[flags pos]]; [reflexivity |].
  destruct ((List.length pos <? 1)%nat || (2 <? List.length pos)%nat);
    [reflexivity |].
  cbn [input output saveHtml]. rewrite !has_add. cbn [String.eqb Ascii.eqb Bool.eqb].
  now rewrite orb_true_r, orb_false_r.
Qed.



End CliFacts.

(** ** Conversion of a PDF figure *)

Module PopplerFacts.

Import Poppler.

Section Conversion.

Variable fs_stat : string -> option Images.stats.
Variable join : string -> string -> string.
Variable basename : string -> string -> string.
Variable now : string.
Variables (pdfPath outputDir : string).

Let target : string := svgPath join basename now pdfPath outputDir.
Let step : state -> event -> state :=
  handle fs_stat join basename now pdfPath outputDir.
Let converted : list event -> state :=
  convertPdfToSvg fs_stat join basename now pdfPath outputDir.

Let verdict : event -> option string :=
  decided fs_stat join basename now pdfPath outputDir.

Lemma settled_stays (events : list event) (s : state) (v : option string) :
  settled s = Some v -> settled (fold_left step events s) = Some v.
Proof.
  revert s. induction events as [|e events IH]; intros s Hs; [exact Hs |].
  cbn [fold_left]. apply IH. unfold step, handle, on_close, on_error.
  destruct e as [chunk|code|code message]; cbn [settled]; [exact Hs | |].
  - destruct (is_zero code); [destruct (found _ _) |];
      unfold resolve, warn; cbn [settled]; now rewrite Hs.
  - unfold resolve, warn; cbn [settled]; now rewrite Hs.
Qed.

Lemma settled_first (events : list event) (s : state) :
  settled s = None ->
  settled (fold_left step events s)
  = option_map verdict (find (fun e => negb (is_data e)) events).
Proof.
  revert s. induction events as [|e events IH]; intros s Hs; [exact Hs |].
  cbn [fold_left find]. destruct e as [chunk|code|code message]; cbn [is_data negb].
  - apply IH. exact Hs.
  - cbn [option_map]; unfold verdict, decided; fold target. apply settled_stays.
    unfold step, handle, on_close. fold target.
    destruct (is_zero code); cbn [andb].
    + destruct (found fs_stat target); unfold resolve, warn; cbn [settled];
        now rewrite Hs.
    + unfold resolve, warn; cbn [settled]; now rewrite Hs.
  - cbn [option_map]; unfold verdict, decided; fold target. apply settled_stays.
    unfold step, handle, on_error, resolve, warn. cbn [settled]. now rewrite Hs.
Qed.

Lemma logged_grows (events : list event) (s : state) :
  exists more, logged (fold_left step events s) = (logged s ++ more)%list.
Proof.
  revert s. induction events as [|e events IH]; intros s.
  - exists []. now rewrite List.app_nil_r.
  - cbn [fold_left]. destruct (IH (step s e)) as (more & ->).
    assert (exists l, logged (step s e) = (logged s ++ l)%list) as (l & ->).
    { unfold step, handle, on_close, on_error.
      destruct e as [chunk|code|code message]; cbn [logged].
      - exists []. now rewrite List.app_nil_r.
      - destruct (is_zero code); [destruct (found _ _) |];
          unfold resolve, warn; cbn [settled logged];
          destruct (settled s); cbn [logged]; eexists;
          try reflexivity; now rewrite List.app_nil_r.
      - unfold resolve, warn; cbn [settled logged].
        destruct (settled s); cbn [logged]; eexists; reflexivity. }
    exists (l ++ more)%list. now rewrite List.app_assoc.
Qed.

(** X2.  The promise is settled by the first event that is not a chunk of error
    output, and by that event alone: it is pending while there is none; it is
    resolved with the path of the converted file when that event is the end of
    the process with exit code 0 and the path is a regular file; and it is
    resolved with [null] in every other case, whatever follows. *)
Theorem first_event_decides (events : list event) :
  settled (converted events)
  = match find (fun e => negb (is_data e)) events with
    | None => None
    | Some (Close code) =>
        Some (if is_zero code && found fs_stat target then Some target else None)
    | Some _ => Some None
    end.
Proof.
  unfold converted, convertPdfToSvg. fold step. rewrite settled_first by reflexivity.
  destruct (find _ events) as [[chunk|code|code message]|]; reflexivity.
Qed.

(** X3.  A conversion that gives [null] has logged at least one warning. *)
Theorem failure_is_logged (events : list event) :
  settled (converted events) = Some None -> logged (converted events) <> [].
Proof.
  unfold converted, convertPdfToSvg. fold step.
  generalize (eq_refl : settled (State "" None []) = None).
  generalize (State "" None []).
  induction events as [|e events IH]; intros s Hs Hr.
  - cbn in Hr. congruence.
  - cbn [fold_left] in *. destruct (settled (step s e)) as [v|] eqn:Hv.
    + rewrite (settled_stays events _ v Hv) in Hr. injection Hr as ->.
      destruct (logged_grows events (step s e)) as (more & ->).
      assert (logged (step s e) <> []) as Hne.
      { revert Hv. unfold step, handle, on_close, on_error.
        destruct e as [chunk|code|code message]; cbn [settled logged].
        - congruence.
        - destruct (is_zero code); [destruct (found _ _) |];
            unfold resolve, warn; cbn [settled logged]; rewrite Hs;
            cbn [settled logged]; try congruence;
            intros _ E; now apply app_eq_nil in E as [_ E].
        - unfold resolve, warn; cbn [settled logged]. rewrite Hs.
          cbn [logged]. intros _ E. apply app_eq_nil in E as [_ E].
          now destruct (is_ENOENT code). }
      intros E. now apply app_eq_nil in E as [E _].
    + now apply IH.
Qed.

Lemma concat_cons (x : string) (xs : list string) :
  String.concat "" (x :: xs) = x ++ String.concat "" xs.
Proof. destruct xs; cbn; [now rewrite StrFacts.app_nil_r | reflexivity]. Qed.

Lemma data_collected (chunks : list string) (s : state) :
  fold_left step (List.map Data chunks) s
  = State (stderr s ++ String.concat "" chunks) (settled s) (logged s).
Proof.
  revert s. induction chunks as [|x xs IH]; intros s.
  - cbn. rewrite StrFacts.app_nil_r. now destruct s.
  - cbn [List.map fold_left]. rewrite IH, concat_cons. cbn [step handle stderr settled logged].
    now rewrite StrFacts.app_assoc.
Qed.

(** X4.  The report of a failed run. The error output is put together from its
    chunks before it is looked at: when the process ends with a code other than
    0, the promise is resolved with [null], the warning shows the trimmed
    output, or the exit code when that is empty, and the hints on the
    installation follow exactly when the whole output holds one of the two
    messages of a missing command, even if a chunk ends in the middle of it. *)
Theorem failure_report (chunks : list string) (code : option Z) :
  is_zero code = false ->
  let text := String.concat "" chunks in
  let run := converted (List.map Data chunks ++ [Close code])%list in
  settled run = Some None
  /\ logged run
     = ConversionFailed pdfPath
         (if String.eqb (trim text) "" then ExitCode code
          else Stderr (trim text))
       :: (if includes "pdftocairo: not found" text
              || includes "command not found" text
           then [MaybeNotInstalled; MacHint; LinuxHint] else []).
Proof.
  intros Hcode text run. unfold run, converted, convertPdfToSvg. fold step.
  rewrite fold_left_app, data_collected. cbn [fold_left stderr settled logged].
  change ("" ++ String.concat "" chunks) with text.
  unfold step, handle, on_close. rewrite Hcode. cbv zeta.
  unfold resolve, warn. cbn [stderr settled logged app].
  split; [reflexivity |]. now destruct (String.eqb (trim text) "").
Qed.

End Conversion.

End PopplerFacts.

(** ** Image elements *)

Module ElementFacts.

Import Images StrFacts RegexFacts FrontMatterFacts ScanFacts.

Section Quantifiers.

Variables (c : ascii -> bool) (k : string -> option hit).

Lemma greedy_None (s : string) : greedy c k s = None -> k s = None.
Proof.
  destruct s as [|a s]; cbn [greedy].
  - now destruct (k "").
  - destruct (c a); [destruct (greedy c k s) as [r|]; [discriminate |] |];
      now destruct (k (String a s)).
Qed.

(** A greedy repetition stops in front of a character of its class only
    when the rest of the pattern matches nowhere further on. *)
Lemma greedy_maximal (s w : string) (h : hit) (a : ascii) (t : string) :
  greedy c k s = Some (w, h) -> s = w ++ String a t -> c a = true ->
  k t = None.
Proof.
  revert w. induction s as [|b s IH]; intros w G E Ca.
  - now destruct w.
  - cbn [greedy] in G. destruct (c b) eqn:Cb.
    + destruct (greedy c k s) as [[w' h']|] eqn:G'.
      * injection G as <- <-. cbn in E. injection E as E.
        now apply (IH w').
      * destruct (k (String b s)); [|discriminate]. injection G as <- <-.
        cbn in E. injection E as -> ->. now apply greedy_None.
    + destruct (k (String b s)); [|discriminate]. injection G as <- <-.
      cbn in E. injection E as -> ->. congruence.
Qed.

(** A lazy repetition that took a first character matches from the next
    character as well. *)
Lemma lazy_next (a : ascii) (s w : string) (h : hit) :
  lazy c k (String a s) = Some (String a w, h) -> lazy c k s = Some (w, h).
Proof.
  cbn [lazy]. destruct (k (String a s)); [discriminate |].
  destruct (c a); [|discriminate].
  destruct (lazy c k s) as [[w' h']|]; [|discriminate].
  now intros [= <- <-].
Qed.

End Quantifiers.

Lemma run_one_class (c : ascii -> bool) (r : regex) (s : string) (h : hit) :
  run (One c :: r) s = Some h ->
  exists a s' h',
    s = String a s' /\ c a = true /\ run r s' = Some h' /\ h = eat1 a h'.
Proof.
  cbn [run]. destruct s as [|a s]; [discriminate |].
  destruct (c a) eqn:Ca; [|discriminate].
  destruct (run r s) as [h'|] eqn:R; [|discriminate].
  intros [= <-]. now exists a, s, h'.
Qed.

Lemma run_plus_first (cap : bool) (c : ascii -> bool) (r : regex) (s : string)
    (h : hit) :
  run (Plus cap c :: r) s = Some h ->
  exists a w s' h',
    s = String a (w ++ s') /\ c a = true /\ all c w = true
    /\ greedy c (run r) (w ++ s') = Some (w, h')
    /\ run r s' = Some h' /\ h = eat (String a w) cap h'.
Proof.
  cbn [run]. destruct s as [|a s]; [discriminate |].
  destruct (c a) eqn:Ca; [|discriminate].
  intros H. apply close_inv in H as (w & h' & H & ->).
  destruct (greedy c (run r) s) as [[w' h'']|] eqn:G; [|discriminate].
  injection H as <- <-.
  destruct (greedy_inv _ _ _ _ _ G) as (s' & -> & Hw & R).
  now exists a, w', s', h''.
Qed.

(** The text of every match of the image pattern: the element name, white
    space, the attribute text in front of the source, the source between
    two quote characters (which need not be the same), the attribute text
    behind it, and the closing character.  The white space is all that
    follows the name: the text in front of the source does not begin with
    white space. *)
Lemma match_shape (html : string) (m : imageMatch) :
  In m (imageMatches html) ->
  exists ws q1 q2,
    fullMatch m
    = "<img" ++ ws ++ beforeSrc m ++ "src=" ++ String q1 (src m)
      ++ String q2 (afterSrc m) ++ ">"
    /\ ws <> "" /\ all is_space ws = true
    /\ is_quote q1 = true /\ is_quote q2 = true
    /\ src m <> "" /\ all not_quote (src m) = true
    /\ all (not_char ">") (beforeSrc m) = true
    /\ all (not_char ">") (afterSrc m) = true
    /\ forall a rest, beforeSrc m = String a rest -> is_space a = false.
Proof.
  unfold imageMatches. intros H. apply in_map_iff in H as (ph & <- & Hin).
  destruct (scan_hits _ _ _ _ Hin) as (s & H). unfold imgRegex in H.
  apply run_lit_inv in H as (s1 & h1 & _ & H & ->).
  apply run_plus_first in H as (b & w1 & s2 & h2 & _ & Cb & Hw1 & G & H & ->).
  pose proof H as K.
  rewrite run_lazy in H. apply close_inv in H as (g0 & h3 & L & ->).
  destruct (lazy_inv _ _ _ _ _ L) as (s3 & -> & Hg0 & H).
  apply run_lit_inv in H as (s4 & h4 & _ & H & ->).
  apply run_one_class in H as (q1 & s5 & h5 & _ & Hq1 & H & ->).
  apply run_plus_first in H as (x & g1 & s6 & h6 & _ & Cx & Hg1 & _ & H & ->).
  apply run_one_class in H as (q2 & s7 & h7 & _ & Hq2 & H & ->).
  apply run_star_inv in H as (g2 & s8 & h8 & _ & Hg2 & H & ->).
  apply run_lit_inv in H as (s9 & h9 & _ & H & ->).
  injection H as <-. unfold to_match. cbn [snd eat eat1 whole groups nth
    fullMatch beforeSrc src afterSrc].
  exists (String b w1), q1, q2. repeat split; try assumption; try discriminate.
  - cbn. now rewrite Cb, Hw1.
  - cbn. now rewrite Cx, Hg1.
  - intros a rest -> . destruct (is_space a) eqn:Ca; [|reflexivity].
    cbn [append] in G, L.
    pose proof (greedy_maximal _ _ _ _ _ _ _ G eq_refl Ca) as N.
    apply lazy_next in L. rewrite run_lazy, L in N. discriminate.
Qed.

(** X5.  Every image element the pattern finds is the text [<img], white space,
    attributes without [>], [src=], a quote, a source that is not empty and
    holds no quote, a quote, attributes without [>], and [>]. The three groups
    are the attributes before the source (without the white space behind the
    name), the source and the attributes after it; the two quotes need not be
    the same character. *)
Theorem image_match_shape (html : string) (m : imageMatch) :
  In m (imageMatches html) ->
  exists ws q1 q2,
    fullMatch m
    = "<img" ++ ws ++ beforeSrc m ++ "src=" ++ String q1 (src m)
      ++ String q2 (afterSrc m) ++ ">"
    /\ ws <> "" /\ all is_space ws = true
    /\ is_quote q1 = true /\ is_quote q2 = true
    /\ src m <> "" /\ all not_quote (src m) = true
    /\ all (not_char ">") (beforeSrc m) = true
    /\ all (not_char ">") (afterSrc m) = true.
Proof.
  intros H. destruct (match_shape html m H)
    as (ws & q1 & q2 & H1 & H2 & H3 & H4 & H5 & H6 & H7 & H8 & H9 & _).
  now exists ws, q1, q2.
Qed.

(** X6.  In every image element found, white space follows the name. In the
    replacement text built for an element that gets a reference, the name is
    followed at once by the first attribute: the white space is not part of the
    first group, and the text does not put it back. *)
Theorem element_name_fused (html : string) (m : imageMatch) :
  In m (imageMatches html) ->
  (exists b rest, fullMatch m = "<img" ++ String b rest /\ is_space b = true)
  /\ forall i : imageInfo,
       exists a rest, rewritten m i = "<img" ++ String a rest
                      /\ is_space a = false.
Proof.
  intros H. destruct (match_shape html m H)
    as (ws & q1 & q2 & H1 & H2 & H3 & _ & _ & _ & _ & _ & _ & H10).
  split.
  - destruct ws as [|b ws]; [congruence |]. rewrite H1. cbn in H3.
    apply andb_prop in H3 as [Hb _]. now eexists b, _.
  - intros i. unfold rewritten. destruct (beforeSrc m) as [|a rest] eqn:E.
    + now eexists "s"%char, _.
    + exists a. eexists. split; [reflexivity |]. now apply (H10 a rest).
Qed.

End ElementFacts.

(** ** Resolution of the sources *)

Module ResolutionFacts.

Import Images StrFacts RegexFacts FrontMatterFacts ImagesFacts.

Lemma set_distinct {A : Type} (k : string) (v : A) (m : list (string * A)) :
  NoDup (List.map fst m) -> NoDup (List.map fst (set k v m)).
Proof.
  induction m as [|[k0 v0] m IH]; cbn [set List.map fst].
  - intros _. repeat constructor. intros [].
  - intros H. inversion H as [|? ? Hnot Hrest]; subst.
    destruct (String.eqb_spec k k0) as [->|Hne]; cbn [List.map fst].
    + now constructor.
    + constructor; [|now apply IH].
      rewrite set_keys. intros [E|E]; [now symmetry in E | contradiction].
Qed.

Lemma fold_set_distinct (ms : list imageMatch) (acc : list (string * unit)) :
  NoDup (List.map fst acc) ->
  NoDup (List.map fst (fold_left (fun m x => set (src x) tt m) ms acc)).
Proof.
  revert acc. induction ms as [|x ms IH]; intros acc H; [exact H |].
  cbn [fold_left]. apply IH. now apply set_distinct.
Qed.

Lemma search_none (r : regex) (s : string) :
  (forall u v, s = u ++ v -> run r v = None) -> search r s = None.
Proof.
  induction s as [|a s IH]; intros H; cbn [search].
  - now rewrite (H "" "" eq_refl).
  - rewrite (H "" (String a s) eq_refl), IH; [reflexivity |].
    intros u v ->. now apply (H (String a u) v).
Qed.

Lemma lit_starts (p s : string) : starts p s = None -> lit false p s = None.
Proof. unfold starts. now destruct (lit false p s). Qed.

(** A pattern that begins with a text finds nothing where the text does
    not occur. *)
Lemma search_absent (p : string) (r : regex) (s : string) :
  includes p s = false -> search (Lit false p :: r) s = None.
Proof.
  unfold includes. destruct (split_first p s) eqn:E; [discriminate |].
  intros _. apply search_none. intros u v ->.
  apply run_lit_None, lit_starts. now apply (split_first_None _ _ E u v).
Qed.

Lemma scan_absent (p : string) (r : regex) (fuel : nat) (s : string) :
  includes p s = false -> scan_fuel fuel (Lit false p :: r) s = ([], s).
Proof.
  intros H. destruct fuel; [reflexivity |]. cbn [scan_fuel].
  now rewrite (search_absent p r s H).
Qed.

Section Resolution.

Variable fs_stat : string -> option stats.
Variable fs_read : string -> option string.
Variable isAbsolute : string -> bool.
Variable resolve : string -> string -> string.
Variable extname : string -> string.
Variable file_href : string -> string.
Variable convertPdfToSvg : string -> option string.
Variable path_join : string -> string -> string.
Variables (mkdir unlink : string -> bool).
Variable readdir : string -> option (list string).
Variable interrupts : string -> string -> bool.
Variables (baseDir : string) (embedBase64 : bool).

Let absolute (source : string) : string :=
  if isAbsolute source then source else resolve baseDir source.

Let resolved (embed : bool) : string -> outcome :=
  resolve_src fs_stat fs_read isAbsolute resolve extname file_href
    convertPdfToSvg baseDir embed.

Let entries (embed : bool) (html : string) : string -> option imageInfo :=
  get (imageMap fs_stat fs_read isAbsolute resolve extname file_href
         convertPdfToSvg baseDir embed (imageMatches html)).

Let called (embed : bool) (html : string) : list event * ending :=
  processImages fs_stat fs_read isAbsolute resolve extname file_href
    convertPdfToSvg path_join mkdir unlink readdir interrupts baseDir embed
    html.

Let temp : string := tempDir path_join baseDir.

Let table (embed : bool) (html : string) : list (string * outcome) :=
  imageMap fs_stat fs_read isAbsolute resolve extname file_href
    convertPdfToSvg baseDir embed (imageMatches html).

(** X7.  Each source is resolved once, however many image elements have it: the
    keys of the map are the sources of the elements, without repetition. *)
Theorem one_entry_per_source (html : string) :
  NoDup (List.map fst (table embedBase64 html))
  /\ forall k,
       In k (List.map fst (table embedBase64 html))
       <-> exists m, In m (imageMatches html) /\ src m = k.
Proof.
  unfold table, imageMap. rewrite map_map. cbn [fst]. rewrite map_id.
  unfold sources. split.
  - apply fold_set_distinct. constructor.
  - intros k. rewrite fold_set_keys, in_map_iff. cbn [List.map In].
    split; [intros [(m & E & H)|[]]; now exists m
           | intros (m & H & E); left; now exists m].
Qed.

(** X8.  Markup that does not hold the text [<img] comes back as it is, and
    no file is looked up.  The call still creates the temporary directory,
    with a warning when that fails, lists it, and removes it when the list
    is empty. *)
Theorem no_image_no_change (html : string) :
  includes "<img" html = false ->
  called embedBase64 html
  = ((Called (Mkdir temp)
      :: (if mkdir temp then [] else [Logged (TempDirFailed temp)]))
     ++ Called (Readdir temp)
        :: match readdir temp with
           | Some [] => [Called (Rmdir temp)]
           | _ => []
           end,
     Returned html)%list.
Proof.
  intros H. unfold called, processImages, imageMatches, scan, imgRegex.
  now rewrite (scan_absent _ _ _ _ H).
Qed.

(** X9.  An SVG file above the threshold is not spliced: in embed mode it
    becomes a data reference of type [image/svg+xml] whose payload decodes to
    the file; otherwise it becomes the URL of the file, which is then not read.
    *)
Theorem large_svg_referenced (source : string) (stat : stats) :
  is_remote source = false ->
  fs_stat (absolute source) = Some stat ->
  isFile stat = true ->
  toLowerCase (skip 1 (extname (absolute source))) = "svg" ->
  (1048576 < size stat)%N ->
  (forall text,
      fs_read (absolute source) = Some text ->
      exists payload,
        resolved true source
        = Entry [] (ImageInfo base64
                      ("data:image/svg+xml;base64," ++ payload))
        /\ Base64.decode payload = Some text)
  /\ resolved false source
     = Entry [] (ImageInfo file (file_href (absolute source))).
Proof.
  intros Hremote Hstat Hfile Hext Hsize.
  assert (over_1MB (size stat) = true) as Hover by now apply N.ltb_lt.
  split.
  - intros text Hread. exists (Base64.encode text).
    split; [|apply Base64Facts.decode_encode].
    unfold resolved, resolve_src. fold (absolute source).
    rewrite Hremote, Hstat, Hfile, Hext. cbn. rewrite Hover.
    unfold read_as. now rewrite Hread.
  - unfold resolved, resolve_src. fold (absolute source).
    rewrite Hremote, Hstat, Hfile, Hext. cbn. now rewrite Hover.
Qed.

(** X10.  A PDF figure. Without embed mode it becomes the URL of the file, with
    a warning. In embed mode it is converted: when the conversion fails the
    entry is deleted and the image elements stay as they are; when it succeeds
    the converted drawing is treated as an SVG file is, by its own size. *)
Theorem pdf_figure (source : string) (stat : stats) :
  is_remote source = false ->
  fs_stat (absolute source) = Some stat ->
  isFile stat = true ->
  toLowerCase (skip 1 (extname (absolute source))) = "pdf" ->
  resolved false source
  = Entry [PdfEmbedRecommended (absolute source)]
          (ImageInfo file (file_href (absolute source)))
  /\ (convertPdfToSvg (absolute source) = None ->
      resolved true source = Deleted [PdfConversionFailed (absolute source)]
      /\ forall html m result,
           In m (imageMatches html) -> src m = source ->
           replace_image (entries true html) result m = result)
  /\ (forall svgPath svgStat text,
         convertPdfToSvg (absolute source) = Some svgPath ->
         fs_stat svgPath = Some svgStat ->
         fs_read svgPath = Some text ->
         resolved true source
         = Entry [] (if (1048576 <? size svgStat)%N
                     then ImageInfo base64 (data_url "image/svg+xml" text)
                     else ImageInfo svg text)).
Proof.
  intros Hremote Hstat Hfile Hext.
  assert (forall embed,
             resolved embed source
             = resolve_pdf fs_stat fs_read file_href convertPdfToSvg embed
                 (absolute source)) as Hpdf.
  { intros embed. unfold resolved, resolve_src. fold (absolute source).
    now rewrite Hremote, Hstat, Hfile, Hext. }
  split; [|split].
  - now rewrite Hpdf.
  - intros Hconv.
    assert (resolved true source = Deleted [PdfConversionFailed (absolute source)])
      as Hres.
    { rewrite Hpdf. unfold resolve_pdf. now rewrite Hconv. }
    split; [exact Hres |]. intros html m result Hm Hsrc. unfold replace_image.
    unfold entries.
    rewrite (get_entry fs_stat fs_read isAbsolute resolve extname file_href
               convertPdfToSvg baseDir true html m Hm), Hsrc.
    fold (resolved true source). now rewrite Hres.
  - intros svgPath svgStat text Hconv Hs Hread. rewrite Hpdf.
    unfold resolve_pdf. rewrite Hconv, Hs. unfold over_1MB, read_as.
    rewrite Hread. now destruct (1048576 <? size svgStat)%N.
Qed.

(** X11.  A file of a format that is neither supported nor PDF is left alone:
    one warning names the extension, in either mode, the file is not read, and
    the image elements stay as they are. *)
Theorem unsupported_left_alone (source ext : string) (stat : stats) :
  is_remote source = false ->
  fs_stat (absolute source) = Some stat ->
  isFile stat = true ->
  toLowerCase (skip 1 (extname (absolute source))) = ext ->
  ext <> "pdf" -> ~ In ext supportedExts ->
  resolved embedBase64 source = Untouched [UnsupportedFormat ext]
  /\ forall html m result,
       In m (imageMatches html) -> src m = source ->
       replace_image (entries embedBase64 html) result m = result.
Proof.
  intros Hremote Hstat Hfile Hext Hpdf Hsup.
  assert (resolved embedBase64 source = Untouched [UnsupportedFormat ext])
    as Hres.
  { unfold resolved, resolve_src. fold (absolute source).
    rewrite Hremote, Hstat, Hfile, Hext. cbn [negb].
    destruct (String.eqb_spec ext "pdf") as [E|_]; [contradiction |].
    assert (has supportedExts ext = false) as ->; [|reflexivity].
    unfold has. destruct (existsb _ _) eqn:E; [|reflexivity].
    apply existsb_exists in E as (x & Hin & Hx).
    apply String.eqb_eq in Hx. now subst x. }
  split; [exact Hres |]. intros html m result Hm Hsrc.
  unfold replace_image, entries.
  rewrite (get_entry fs_stat fs_read isAbsolute resolve extname file_href
             convertPdfToSvg baseDir embedBase64 html m Hm), Hsrc.
  fold (resolved embedBase64 source). now rewrite Hres.
Qed.

End Resolution.

End ResolutionFacts.

(** ** Front matter that is not recognised *)

Module DelimiterFacts.

Import StrFacts RegexFacts FrontMatterFacts.

Lemma app_cut (a b c d : string) :
  a ++ b = c ++ d -> String.length c < String.length a ->
  exists v, a = c ++ v /\ v <> "" /\ d = v ++ b.
Proof.
  revert a. induction c as [|x c IH]; intros a E L.
  - exists a. cbn in E |- *. repeat split; [|congruence].
    destruct a; [cbn in L; lia | discriminate].
  - destruct a as [|y a]; [cbn in L; lia |]. cbn in E, L.
    injection E as -> E. destruct (IH a E ltac:(lia)) as (v & -> & Hv & ->).
    now exists v.
Qed.

Lemma suffix_starts (p M : string) :
  includes p M = false -> forall u v, M = u ++ v -> lit false p v = None.
Proof.
  unfold includes. destruct (split_first p M) eqn:E; [discriminate |].
  intros _ u v ->. pose proof (split_first_None _ _ E u v eq_refl) as H.
  unfold starts in H. now destruct (lit false p v).
Qed.

(** The closing delimiter must be followed by a line feed. *)
Lemma unterminated (M : string) :
  includes (nl ++ "---") M = false ->
  run yamlRegex ("---" ++ nl ++ M ++ nl ++ "---") = None.
Proof.
  intros HM. destruct (run yamlRegex _) as [h|] eqn:R; [|reflexivity].
  exfalso. destruct (yaml_match_inv _ _ R) as (w1 & m1 & w2 & m2 & E & _).
  apply (app_inv_head "---") in E.
  assert (exists X, w1 ++ nl ++ m1 = nl ++ X) as (X & HX).
  { destruct w1 as [|c w1]; [now exists m1 |]. cbn in E. injection E as <- _.
    now exists (w1 ++ nl ++ m1). }
  replace (w1 ++ nl ++ m1 ++ nl ++ "---" ++ w2 ++ nl ++ m2)
    with ((w1 ++ nl ++ m1) ++ (nl ++ "---") ++ w2 ++ nl ++ m2) in E
    by now rewrite !app_assoc.
  rewrite HX, app_assoc in E. apply (app_inv_head nl) in E.
  assert (String.length X < String.length M) as L.
  { apply (f_equal String.length) in E. rewrite !length_app in E. cbn in E.
    lia. }
  destruct (app_cut _ _ _ _ E L) as (v & -> & Hv & E').
  pose proof (suffix_starts _ _ HM X v eq_refl) as Hlit.
  pose proof (fence_straddle v "---" Hv Hlit) as Hs.
  rewrite <- E', lit_app in Hs. discriminate.
Qed.

(** X12.  A front matter block whose closing delimiter is the end of the text,
    with no line feed behind it, is not recognised: the whole text is the body,
    the mapping is empty, and js-yaml is not called. *)
Theorem unterminated_front_matter (yaml_load : string -> loaded) (M : string) :
  includes (nl ++ "---") M = false ->
  parseYamlFrontMatter yaml_load ("---" ++ nl ++ M ++ nl ++ "---")
  = Split empty_object ("---" ++ nl ++ M ++ nl ++ "---") [].
Proof.
  intros HM. unfold parseYamlFrontMatter. now rewrite unterminated.
Qed.

End DelimiterFacts.

(** ** Remote sources *)

Module RemoteFacts.

Import Images StrFacts RegexFacts FrontMatterFacts.

Lemma lit_folded (p x s : string) :
  Str.map fold_char x = Str.map fold_char p -> lit true p (x ++ s) = Some (x, s).
Proof.
  revert x. induction p as [|a p IH]; intros [|b x] E; try discriminate.
  - reflexivity.
  - cbn in E. injection E as Eab E. cbn [append lit]. unfold char_eq.
    rewrite Eab, Ascii.eqb_refl, (IH x E). reflexivity.
Qed.

Lemma remote_http (scheme rest : string) :
  Str.map fold_char scheme = "http" \/ Str.map fold_char scheme = "https" ->
  is_remote (scheme ++ "://" ++ rest) = true.
Proof.
  unfold is_remote, remoteRegex. intros [E|E].
  - cbn [run]. rewrite (lit_folded "http" scheme _ E). cbn.
    reflexivity.
  - destruct scheme as [|a [|b [|c [|d [|e [|f scheme]]]]]]; try discriminate.
    cbn in E. injection E as Ea Eb Ec Ed Ee.
    change (String a (String b (String c (String d (String e ""))))
            ++ "://" ++ rest)
      with (String a (String b (String c (String d "")))
            ++ String e ("://" ++ rest)).
    cbn [run]. rewrite (lit_folded "http" _ _);
      [|cbn; now rewrite Ea, Eb, Ec, Ed].
    unfold char_eq. rewrite Ee. cbn. reflexivity.
Qed.

(** X13.  A source that begins with [http://] or [https://], in letters of
    either case, is skipped: the entry stays [null] without a warning, whatever
    the file system holds, in either mode. *)
Theorem remote_source_skipped
    (fs_stat : string -> option stats) (fs_read : string -> option string)
    (isAbsolute : string -> bool) (resolve : string -> string -> string)
    (extname file_href : string -> string)
    (convertPdfToSvg : string -> option string)
    (baseDir : string) (embedBase64 : bool) (scheme rest : string) :
  Str.map fold_char scheme = "http" \/ Str.map fold_char scheme = "https" ->
  resolve_src fs_stat fs_read isAbsolute resolve extname file_href
    convertPdfToSvg baseDir embedBase64 (scheme ++ "://" ++ rest)
  = Untouched [].
Proof.
  intros H. unfold resolve_src. now rewrite (remote_http scheme rest H).
Qed.

End RemoteFacts.

(** ** The metadata block and the first heading *)

Module HeadingFacts.

Import StrFacts RegexFacts FrontMatterFacts MetadataFacts ResolutionFacts.

(** No match of a pattern that begins with a text starts inside a text
    that does not hold the first character of it. *)
Lemma lit_mismatch (c : ascii) (p v s : string) :
  v <> "" -> all (not_char c) v = true ->
  lit false (String c p) (v ++ s) = None.
Proof.
  intros Hv Hall. destruct v as [|a v]; [contradiction |].
  cbn [append]. apply lit_first_None. cbn in Hall.
  apply andb_prop in Hall as [Ha _]. unfold not_char in Ha.
  unfold char_eq. rewrite Ascii.eqb_sym. now apply negb_true_iff.
Qed.

Lemma suffix_all (c : ascii -> bool) (s u v : string) :
  all c s = true -> s = u ++ v -> all c v = true.
Proof. intros H ->. rewrite all_app in H. now apply andb_prop in H as [_ H]. Qed.

(** The match of the heading pattern at a heading whose text holds no
    tag. *)
Lemma run_heading (a inner post : string) :
  all (not_char ">") a = true -> all (not_char "<") inner = true ->
  run h1Regex ("<h1" ++ a ++ ">" ++ inner ++ "</h1>" ++ post)
  = Some (Hit ("<h1" ++ a ++ ">" ++ inner ++ "</h1>") [] post).
Proof.
  intros Ha Hi. unfold h1Regex. rewrite run_lit, run_greedy.
  assert (run [Lit false ">"; Star false false any_char; Lit false "</h1>"]
            (">" ++ inner ++ "</h1>" ++ post)
          = Some (Hit (">" ++ inner ++ "</h1>") [] post)) as Hk.
  { rewrite run_lit, run_lazy.
    rewrite (lazy_pick any_char _ inner ("</h1>" ++ post)
               (Hit "</h1>" [] post)).
    - reflexivity.
    - apply all_any.
    - intros u v E Hv. apply run_lit_None, lit_mismatch; [exact Hv |].
      now apply (suffix_all _ inner u v).
    - now rewrite run_lit. }
  rewrite (greedy_pick (not_char ">") _ a _ _ Ha Hk).
  - reflexivity.
  - intros [|x u] v Hu Hall E; [contradiction |]. cbn in E, Hall.
    injection E as <- _. discriminate.
Qed.

Lemma search_heading (pre a inner post : string) :
  all (not_char "<") pre = true ->
  all (not_char ">") a = true -> all (not_char "<") inner = true ->
  search h1Regex (pre ++ "<h1" ++ a ++ ">" ++ inner ++ "</h1>" ++ post)
  = Some (pre, Hit ("<h1" ++ a ++ ">" ++ inner ++ "</h1>") [] post).
Proof.
  intros Hp Ha Hi. apply search_pick; [|now apply run_heading].
  intros u v E Hv. unfold h1Regex. apply run_lit_None, lit_mismatch;
    [exact Hv | now apply (suffix_all _ pre u v)].
Qed.

Lemma meta_plain (frontMatter : value) :
  forallb (all (not_char "$")) (shown frontMatter) = true ->
  all (not_char "$") (generateMetaInfo frontMatter) = true.
Proof.
  unfold shown. cbn [List.map forallb]. rewrite !andb_true_iff.
  intros (Hs & Ha & Hf & _). unfold generateMetaInfo, meta_div.
  destruct (truthy (prop _ "author")), (truthy (prop _ "affiliation")),
    (truthy (prop _ "student_id")); cbn [negb andb];
    rewrite ?all_app, ?Hs, ?Ha, ?Hf; reflexivity.
Qed.

(** X14.  Without the text [<h1] in the markup, the block is dropped: the
    markup comes back as it is. *)
Theorem metadata_needs_heading (html metaHtml : string) :
  includes "<h1" html = false -> insertAfterFirstH1 html metaHtml = html.
Proof.
  intros H. apply insert_without_h1. unfold h1Regex. now apply search_absent.
Qed.

(** X15.  When no field shown holds a dollar sign, the block stands right
    behind the first heading and the markup is otherwise unchanged. The heading
    is taken to be the first tag of the markup, and its text to hold no tag. *)
Theorem metadata_after_heading (frontMatter : value) (pre a inner post : string) :
  all (not_char "<") pre = true ->
  all (not_char ">") a = true ->
  all (not_char "<") inner = true ->
  forallb (all (not_char "$")) (shown frontMatter) = true ->
  insertAfterFirstH1 (pre ++ "<h1" ++ a ++ ">" ++ inner ++ "</h1>" ++ post)
    (generateMetaInfo frontMatter)
  = pre ++ "<h1" ++ a ++ ">" ++ inner ++ "</h1>"
    ++ generateMetaInfo frontMatter ++ post.
Proof.
  intros Hp Ha Hi Hplain. pose proof (meta_plain frontMatter Hplain) as Hm.
  pose proof (search_heading pre a inner post Hp Ha Hi) as Hs.
  destruct (generateMetaInfo frontMatter) as [|d block] eqn:E.
  - reflexivity.
  - assert (d = "010"%char) as ->.
    { revert E. unfold generateMetaInfo.
      destruct (negb _ && negb _ && negb _); [discriminate |].
      cbn. now intros [= <- _]. }
    destruct (insert_after_first_h1 _ _ _ "010"%char block Hs eq_refl Hm)
      as [_ ->].
    cbn [whole rest]. now rewrite !app_assoc.
Qed.

End HeadingFacts.

(** ** Filling the template *)

Module TemplateFacts.

Import StrFacts RegexFacts FuelFacts FrontMatterFacts AssemblyFacts
  MetadataFacts ResolutionFacts HeadingFacts.

Lemma replace_none (re : regex) (r : replacement) (s : string) :
  search re s = None -> replace_all re r s = s.
Proof.
  intros H. unfold replace_all. destruct (String.length s); [reflexivity |].
  cbn [replace_all_fuel]. now rewrite H.
Qed.

Lemma includes_needs (c : ascii) (p s : string) :
  all (not_char c) s = true -> all (not_char c) p = false ->
  includes p s = false.
Proof.
  intros Hs Hp. unfold includes. destruct (split_first p s) as [[pre post]|] eqn:E;
    [|reflexivity].
  apply split_first_sound in E. subst s. rewrite !all_app in Hs.
  apply andb_prop in Hs as [_ Hs]. apply andb_prop in Hs as [Hs _]. congruence.
Qed.

(** A text without an opening brace holds no placeholder. *)
Lemma fill_brace_free (name value s : string) :
  all (not_char "{") s = true -> fill name value s = s.
Proof.
  intros H. unfold fill, placeholder. apply replace_none, search_absent.
  now apply includes_needs with (c := "{"%char).
Qed.

Lemma numbering_brace_free (css s : string) :
  all (not_char "{") s = true ->
  replace_all numberingPlaceholder (Text css) s = s.
Proof.
  intros H. unfold numberingPlaceholder. apply replace_none, search_absent.
  now apply includes_needs with (c := "{"%char).
Qed.

Lemma app_suffix (a b u v : string) :
  a ++ b = u ++ v ->
  (exists v1, a = u ++ v1 /\ v = v1 ++ b)
  \/ (exists b1, b = b1 ++ v /\ b1 <> "").
Proof.
  revert u. induction a as [|x a IH]; intros u E.
  - cbn in E. destruct u as [|y u].
    + left. exists "". cbn in E. now subst.
    + right. now exists (String y u).
  - destruct u as [|y u].
    + left. exists (String x a). cbn in E. now subst.
    + cbn in E. injection E as <- E. destruct (IH u E) as [(v1 & -> & ->)|H].
      * left. now exists v1.
      * now right.
Qed.

(** The suffixes of a template with the body placeholder between two
    texts. *)
Lemma template_suffix (A B u v : string) :
  A ++ "{{BODY}}" ++ B = u ++ v ->
  (exists v1 u1, A = u1 ++ v1 /\ v = v1 ++ "{{BODY}}" ++ B)
  \/ (exists m, In m ["{BODY}}"; "BODY}}"; "ODY}}"; "DY}}"; "Y}}"; "}}"; "}"]
                /\ v = m ++ B)
  \/ (exists b1, B = b1 ++ v).
Proof.
  intros E. destruct (app_suffix _ _ _ _ E) as [(v1 & -> & ->)|(x & E' & Hx)].
  { left. now exists v1, u. }
  right. destruct (app_suffix _ _ _ _ E') as [(m & Em & ->)|(b1 & -> & _)].
  2:{ right. now exists b1. }
  destruct x as [|c0 x]; [contradiction |].
  do 7 (destruct x as [|? x];
        [cbn in Em; inversion Em; subst; left; eexists;
         split; [|reflexivity]; cbn; tauto |]).
  destruct x as [|? x]; cbn in Em.
  - inversion Em; subst. right. now exists "".
  - exfalso. apply (f_equal String.length) in Em. cbn in Em. lia.
Qed.

Lemma brace_free_char (c : ascii) (s : string) :
  all (not_char "{") (String c s) = true -> Ascii.eqb "{" c = false.
Proof.
  intros H. cbn [all] in H. apply andb_prop in H as [H _]. unfold not_char in H.
  rewrite Ascii.eqb_sym. now apply negb_true_iff.
Qed.

(** The numbering placeholder does not occur in such a template. *)
Lemma numbering_absent (A B : string) :
  all (not_char "{") A = true -> all (not_char "{") B = true ->
  search numberingPlaceholder (A ++ "{{BODY}}" ++ B) = None.
Proof.
  intros HA HB. apply search_none. intros u v E. unfold numberingPlaceholder.
  apply run_lit_None.
  assert (forall w t, all (not_char "{") w = true ->
            (t = "" \/ t = "{{BODY}}" ++ B) ->
            lit false "/*{{HEADING_NUMBER_CSS}}*/" (w ++ t) = None) as Hfree.
  { intros w t Hw Ht. destruct w as [|a [|b [|c w]]].
    - destruct Ht as [->| ->]; reflexivity.
    - destruct Ht as [->| ->]; cbn [lit append]; unfold char_eq;
        destruct (Ascii.eqb "/" a); reflexivity.
    - destruct Ht as [->| ->]; cbn [lit append]; unfold char_eq;
        destruct (Ascii.eqb "/" a); try reflexivity;
        destruct (Ascii.eqb "*" b); reflexivity.
    - assert (Ascii.eqb "{" c = false) as Hc.
      { apply (brace_free_char c w). cbn [all] in Hw.
        apply andb_prop in Hw as [_ Hw]. now apply andb_prop in Hw as [_ Hw]. }
      cbn [lit append]. unfold char_eq.
      destruct (Ascii.eqb "/" a); [|reflexivity].
      destruct (Ascii.eqb "*" b); [|reflexivity]. now rewrite Hc. }
  destruct (template_suffix _ _ _ _ E) as [(v1 & u1 & -> & ->)|[(m & Hm & ->)|(b1 & ->)]].
  - apply Hfree; [|now right]. rewrite all_app in HA.
    now apply andb_prop in HA as [_ HA].
  - cbn in Hm. repeat destruct Hm as [<-|Hm]; try reflexivity. destruct Hm.
  - rewrite <- (StrFacts.app_nil_r v). apply Hfree; [|now left].
    rewrite all_app in HB. now apply andb_prop in HB as [_ HB].
Qed.

(** Nor does the placeholder of a name that does not begin like [BODY]. *)
Lemma placeholder_absent (name A B : string) (c : ascii) (rest : string) :
  name = String c rest -> Ascii.eqb c "B" = false ->
  all (not_char "{") A = true -> all (not_char "{") B = true ->
  search (placeholder name) (A ++ "{{BODY}}" ++ B) = None.
Proof.
  intros -> Hc HA HB. apply search_none. intros u v E. unfold placeholder.
  apply run_lit_None.
  assert (forall w t, w <> "" -> all (not_char "{") w = true ->
            lit false ("{{" ++ String c rest ++ "}}") (w ++ t) = None) as Hfree.
  { intros w t Hw Hall. now apply lit_mismatch. }
  destruct (template_suffix _ _ _ _ E) as [(v1 & u1 & -> & ->)|[(m & Hm & ->)|(b1 & ->)]].
  - destruct v1 as [|x v1].
    + cbn [lit append]. unfold char_eq. rewrite !Ascii.eqb_refl.
      rewrite Hc. reflexivity.
    + apply Hfree; [discriminate |]. rewrite all_app in HA.
      now apply andb_prop in HA as [_ HA].
  - cbn in Hm. repeat destruct Hm as [<-|Hm]; try reflexivity. destruct Hm.
  - destruct v as [|x v]; [reflexivity |].
    rewrite <- (StrFacts.app_nil_r (String x v)). apply Hfree; [discriminate |].
    rewrite all_app in HB. now apply andb_prop in HB as [_ HB].
Qed.

(** The expansion of the body takes the place of the placeholder. *)
Lemma body_expanded (body A B : string) :
  all (not_char "{") A = true -> all (not_char "{") B = true ->
  fill "BODY" body (A ++ "{{BODY}}" ++ B)
  = A ++ expand "{{BODY}}" A B [] body ++ B.
Proof.
  intros HA HB. unfold fill, replace_all.
  rewrite (replace_all_fuel_enough _ _ _ (S (String.length (A ++ "{{BODY}}" ++ B))))
    by lia.
  cbn [replace_all_fuel].
  assert (search (placeholder "BODY") (A ++ "{{BODY}}" ++ B)
          = Some (A, Hit "{{BODY}}" [] B)) as ->.
  { apply search_pick.
    - intros u v -> Hv. unfold placeholder. apply run_lit_None, lit_mismatch;
        [exact Hv |]. rewrite all_app in HA. now apply andb_prop in HA as [_ HA].
    - unfold placeholder. change ("{{" ++ "BODY" ++ "}}") with "{{BODY}}".
      now rewrite run_lit. }
  cbn [whole rest substitute groups]. change ("" ++ A) with A.
  f_equal. f_equal.
  assert (search (placeholder "BODY") B = None) as HnB.
  { unfold placeholder. apply search_absent.
    now apply includes_needs with (c := "{"%char). }
  destruct (String.length (A ++ "{{BODY}}" ++ B)); [reflexivity |].
  cbn [replace_all_fuel]. now rewrite HnB.
Qed.

Lemma body_filled (body A B : string) :
  all (not_char "{") A = true -> all (not_char "{") B = true ->
  all (not_char "$") body = true ->
  fill "BODY" body (A ++ "{{BODY}}" ++ B) = A ++ body ++ B.
Proof.
  intros HA HB Hbody. rewrite body_expanded by assumption.
  now rewrite expand_plain.
Qed.

(** X16.  A template without the text of two opening braces holds no
    placeholder: it is the document, whatever the title, the body and the
    settings. *)
Theorem template_without_placeholders (candidates : list (option string))
    (tmpl title body : string) (cfg : config) (autoNumber : option bool) :
  includes "{{" tmpl = false -> tmpl <> "" ->
  buildHtml (Some tmpl :: candidates) title body cfg autoNumber = Some tmpl.
Proof.
  intros Hno Hne. unfold buildHtml. cbn [first_read].
  destruct (String.eqb tmpl "") eqn:E; [now apply String.eqb_eq in E |].
  f_equal. unfold fill_template.
  assert (forall p q r, search (Lit false (p ++ "{{" ++ q) :: r) tmpl = None) as H.
  { intros p q r. apply search_absent. unfold includes in *.
    destruct (split_first (p ++ "{{" ++ q) tmpl) as [[pre post]|] eqn:S;
      [|reflexivity].
    apply split_first_sound in S.
    destruct (split_first "{{" tmpl) as [x|] eqn:S'; [discriminate |].
    pose proof (split_first_None _ _ S' (pre ++ p) ("{{" ++ q ++ post)) as N.
    rewrite S, !app_assoc in N. specialize (N eq_refl).
    now rewrite starts_app in N. }
  assert (forall name value, fill name value tmpl = tmpl) as Hfill.
  { intros name value. unfold fill, placeholder. apply replace_none.
    apply (H "" (name ++ "}}")). }
  assert (forall css, replace_all numberingPlaceholder (Text css) tmpl = tmpl)
    as Hcss.
  { intros css. apply replace_none. apply (H "/*" "HEADING_NUMBER_CSS}}*/"). }
  now rewrite Hcss, !Hfill.
Qed.

(** X17.  With a template that holds the body placeholder between two texts
    without an opening brace, and a body without an opening brace and without a
    dollar sign, the document is the body between the two texts. *)
Theorem body_between (candidates : list (option string))
    (A B title body : string) (cfg : config) (autoNumber : option bool) :
  all (not_char "{") A = true -> all (not_char "{") B = true ->
  all (not_char "{") body = true -> all (not_char "$") body = true ->
  buildHtml (Some (A ++ "{{BODY}}" ++ B) :: candidates) title body cfg autoNumber
  = Some (A ++ body ++ B).
Proof.
  intros HA HB Hb Hd. unfold buildHtml. cbn [first_read].
  destruct (String.eqb (A ++ "{{BODY}}" ++ B) "") eqn:E.
  { apply String.eqb_eq in E. apply (f_equal String.length) in E.
    rewrite !length_app in E. cbn in E. lia. }
  f_equal. unfold fill_template.
  rewrite (replace_none _ _ _ (numbering_absent A B HA HB)).
  assert (fill "TITLE" title (A ++ "{{BODY}}" ++ B) = A ++ "{{BODY}}" ++ B) as ->.
  { unfold fill. apply replace_none.
    now apply (placeholder_absent "TITLE" A B "T" "ITLE"). }
  rewrite (body_filled body A B HA HB Hd).
  assert (all (not_char "{") (A ++ body ++ B) = true) as Hfree
    by now rewrite !all_app, HA, Hb, HB.
  now rewrite !(fill_brace_free _ _ _ Hfree).
Qed.

(** X18.  Two dollar signs in the body come out as one: the body is the
    replacement text of a [replace], where a doubled dollar sign stands for a
    single one. *)
Theorem body_dollar_pair (candidates : list (option string))
    (A B title x y : string) (cfg : config) (autoNumber : option bool) :
  all (not_char "{") A = true -> all (not_char "{") B = true ->
  all (not_char "{") x = true -> all (not_char "{") y = true ->
  all (not_char "$") x = true -> all (not_char "$") y = true ->
  buildHtml (Some (A ++ "{{BODY}}" ++ B) :: candidates) title
    (x ++ "$$" ++ y) cfg autoNumber
  = Some (A ++ (x ++ "$" ++ y) ++ B).
Proof.
  intros HA HB Hx Hy Hdx Hdy. unfold buildHtml. cbn [first_read].
  destruct (String.eqb (A ++ "{{BODY}}" ++ B) "") eqn:E.
  { apply String.eqb_eq in E. apply (f_equal String.length) in E.
    rewrite !length_app in E. cbn in E. lia. }
  f_equal. unfold fill_template.
  rewrite (replace_none _ _ _ (numbering_absent A B HA HB)).
  assert (fill "TITLE" title (A ++ "{{BODY}}" ++ B) = A ++ "{{BODY}}" ++ B) as ->.
  { unfold fill. apply replace_none.
    now apply (placeholder_absent "TITLE" A B "T" "ITLE"). }
  rewrite (body_expanded _ A B HA HB).
  rewrite ExpandFacts.expand_plain_app by exact Hdx.
  change ("$$" ++ y) with (String "$" (String "$" y)).
  rewrite ExpandFacts.expand_eq. cbn [negb Ascii.eqb Bool.eqb].
  rewrite (expand_plain _ _ _ _ y Hdy).
  assert (all (not_char "{") (A ++ (x ++ "$" ++ y) ++ B) = true) as Hfree.
  { rewrite !all_app, HA, Hx, Hy, HB. reflexivity. }
  change (String "$" y) with ("$" ++ y).
  now rewrite !(fill_brace_free _ _ _ Hfree).
Qed.

(** *** The rule set in the document *)
















End TemplateFacts.

(** ** Effects *)

Module TraceFacts.

Section Laws.

Context {E X A B : Type}.

Lemma trace_bind (m : M E X A) (k : A -> M E X B) :
  trace (bind m k)
  = (trace m ++ match ending m with
                | inr a => trace (k a)
                | inl _ => []
                end)%list.
Proof.
  destruct m as [t [x|a]]; cbn; [now rewrite List.app_nil_r | reflexivity].
Qed.

Lemma ending_bind (m : M E X A) (k : A -> M E X B) :
  ending (bind m k)
  = match ending m with
    | inr a => ending (k a)
    | inl x => inl x
    end.
Proof. now destruct m as [t [x|a]]. Qed.

Lemma bind_fulfils (m : M E X A) (k : A -> M E X B) (b : B) :
  ending (bind m k) = inr b
  <-> exists a, ending m = inr a /\ ending (k a) = inr b.
Proof.
  rewrite ending_bind. destruct (ending m) as [x|a]; split.
  - discriminate.
  - intros (a & [=] & _).
  - intros H. now exists a.
  - now intros (a' & [= <-] & H).
Qed.

Lemma trace_within (P : E -> Prop) (m : M E X A) (k : A -> M E X B) :
  Forall P (trace m) -> (forall a, Forall P (trace (k a))) ->
  Forall P (trace (bind m k)).
Proof.
  intros Hm Hk. rewrite trace_bind. apply Forall_app. split; [exact Hm |].
  destruct (ending m); [constructor | apply Hk].
Qed.

Lemma trace_finally (m : M E X A) (cleanup : list E) :
  trace (finally m cleanup) = (trace m ++ cleanup)%list.
Proof. reflexivity. Qed.

Lemma ending_finally (m : M E X A) (cleanup : list E) :
  ending (finally m cleanup) = ending m.
Proof. reflexivity. Qed.

End Laws.

End TraceFacts.

(** ** Printing *)

Module RenderFacts.

Import Config Render TraceFacts.

Local Open Scope trace_scope.

Section Printing.

Variable b : browser.
Variable file_href : string -> string.
Variables (html htmlPath : option string) (pdfPath : string).
Variables (cfg : settings) (dateStr : string).

Let printed : M call error unit :=
  renderPDF b file_href html htmlPath pdfPath cfg dateStr.

Let worked : M call error unit :=
  session b file_href html htmlPath pdfPath cfg dateStr.

Lemma check_work (at_ : checkpoint) : Forall is_work (trace (check b at_)).
Proof. unfold check. destruct (closed b at_); constructor. Qed.

Lemma guarded_work (c : call) (o : outcome) (at_ : checkpoint)
    (when_closed : string -> error) (otherwise : string -> M call error unit) :
  is_work c -> (forall message, Forall is_work (trace (otherwise message))) ->
  Forall is_work (trace (guarded b c o at_ when_closed otherwise)).
Proof.
  intros Hc Ho. unfold guarded. apply trace_within.
  - now repeat constructor.
  - intros _. destruct o as [|message]; [constructor |].
    destruct (closed b at_); [constructor | apply Ho].
Qed.

Lemma load_work : Forall is_work (trace (load b file_href html htmlPath)).
Proof.
  unfold load. apply trace_within.
  - cbn [emit_all trace fst]. destruct (given htmlPath) as [p|].
    + now repeat constructor.
    + destruct (given html) as [text|]; [|constructor].
      cbn [fst]. apply Forall_app. split; [|now repeat constructor].
      unfold size_notice. destruct (_ <? _)%N; now repeat constructor.
  - intros _. destruct (snd _); [|constructor].
    destruct (closed b LoadCatch); constructor.
Qed.

Lemma session_work : Forall is_work (trace worked).
Proof.
  unfold worked, session.
  repeat first
    [ apply load_work
    | apply check_work
    | apply guarded_work; [exact I | intros message]
    | apply trace_within; [|intros _]
    | now repeat constructor ].
Qed.

(** X19.  Once the browser is launched it is closed on every path: the call
    that closes it is the last call of the run and is made exactly once,
    whether the page could be opened or not and however the conversion ends;
    the page is closed just before it exactly when it was opened and is not
    closed already. *)
Theorem browser_closed_last :
  launch b = Done ->
  exists work,
    trace printed
    = (Launch :: NewPage :: work
       ++ (if match newPage b with Done => true | Throws _ => false end
              && negb (closed b Cleanup)
           then [ClosePage] else [])
       ++ [CloseBrowser])%list
    /\ Forall is_work work.
Proof.
  intros Hl. unfold printed, renderPDF. rewrite trace_bind, Hl.
  cbn [emit ending snd]. rewrite trace_finally, trace_bind.
  cbn [emit ending snd]. unfold cleanup. change (trace ([?x], ?y)) with [x].
  destruct (newPage b) as [|message] eqn:Hn.
  - exists (trace worked). split; [|apply session_work].
    cbn [app]. now rewrite <- !List.app_assoc.
  - exists []. split; [reflexivity | constructor].
Qed.

(** *** When the conversion succeeds *)

Lemma check_fulfils (at_ : checkpoint) :
  ending (check b at_) = inr tt <-> closed b at_ = false.
Proof. unfold check. destruct (closed b at_); cbn; split; congruence. Qed.

Lemma guarded_fulfils (c : call) (o : outcome) (at_ : checkpoint)
    (when_closed : string -> error) (otherwise : string -> M call error unit) :
  ending (guarded b c o at_ when_closed otherwise) = inr tt
  <-> o = Done
      \/ exists message,
           o = Throws message /\ closed b at_ = false
           /\ ending (otherwise message) = inr tt.
Proof.
  unfold guarded. rewrite ending_bind. cbn [emit ending snd].
  destruct o as [|message].
  - cbn. split; [now left | reflexivity].
  - destruct (closed b at_) eqn:Hc; cbn [throw ending snd]; split.
    + discriminate.
    + intros [[=]|(m & _ & [=] & _)].
    + intros H. right. now exists message.
    + now intros [[=]|(m & [= <-] & _ & H)].
Qed.

Let loaded : Prop := loaded_page b file_href html htmlPath.

Lemma load_fulfils :
  ending (load b file_href html htmlPath) = inr tt <-> loaded.
Proof.
  unfold load, loaded, loaded_page. rewrite ending_bind. cbn [emit_all ending snd].
  destruct (given htmlPath) as [p|].
  - cbn [snd]. destruct (goto b (file_href p)).
    + cbn. tauto.
    + destruct (closed b LoadCatch); cbn; split; congruence.
  - destruct (given html) as [text|].
    + cbn [snd]. destruct (setContent b text).
      * cbn. tauto.
      * destruct (closed b LoadCatch); cbn; split; congruence.
    + cbn [snd]. destruct (closed b LoadCatch); cbn; split;
        [discriminate | tauto | discriminate | tauto].
Qed.

(** X20.  The conversion succeeds exactly when the browser starts, the page
    opens, the document loads, the page gets ready, the page is open at each of
    the six tests between the steps, and the file is printed. A failure of the
    wait for the images or of the rendering of diagrams and formulas does not
    count, as long as the page is still open when it is caught. *)
Theorem fulfils_iff :
  ending printed = inr tt
  <-> launch b = Done /\ newPage b = Done /\ loaded
      /\ closed b AfterLoad = false
      /\ waitReady b = Done
      /\ closed b AfterDom = false
      /\ (waitImages b = Done \/ closed b ImagesCatch = false)
      /\ closed b AfterImages = false
      /\ (typeset b = Done \/ closed b TypesetCatch = false)
      /\ closed b AfterTypeset = false
      /\ closed b Final = false
      /\ closed b BeforePdf = false
      /\ pdf b (pdf_options pdfPath cfg dateStr) = Done.
Proof.
  unfold printed, renderPDF. rewrite ending_bind. cbn [emit ending snd].
  destruct (launch b) as [|ml].
  2:{ cbn. split; [discriminate | now intros ([=] & _)]. }
  rewrite ending_finally, ending_bind. cbn [emit ending snd].
  destruct (newPage b) as [|mn].
  2:{ cbn. split; [discriminate | now intros (_ & [=] & _)]. }
  unfold session.
  rewrite !bind_fulfils.
  split.
  - intros ([] & Hload & H). rewrite bind_fulfils in H.
    destruct H as ([] & H1 & H). rewrite bind_fulfils in H.
    destruct H as ([] & H2 & H). rewrite bind_fulfils in H.
    destruct H as ([] & H3 & H). rewrite bind_fulfils in H.
    destruct H as ([] & H4 & H). rewrite bind_fulfils in H.
    destruct H as ([] & H5 & H). rewrite bind_fulfils in H.
    destruct H as ([] & H6 & H). rewrite bind_fulfils in H.
    destruct H as ([] & H7 & H). rewrite bind_fulfils in H.
    destruct H as ([] & H8 & H). rewrite bind_fulfils in H.
    destruct H as ([] & H9 & H10).
    apply load_fulfils in Hload. apply check_fulfils in H1, H3, H5, H7, H8, H9.
    apply guarded_fulfils in H2, H4, H6, H10.
    repeat split; try assumption; try reflexivity.
    + destruct H2 as [H2|(m & _ & _ & [=])]. exact H2.
    + destruct H4 as [H4|(m & _ & Hc & _)]; [now left | now right].
    + destruct H6 as [H6|(m & _ & Hc & _)]; [now left | now right].
    + destruct H10 as [H10|(m & _ & _ & [=])]. exact H10.
  - intros (_ & _ & Hload & H1 & H2 & H3 & H4 & H5 & H6 & H7 & H8 & H9 & H10).
    exists tt. split; [now apply load_fulfils |].
    rewrite bind_fulfils. exists tt. split; [now apply check_fulfils |].
    rewrite bind_fulfils. exists tt. split; [apply guarded_fulfils; now left |].
    rewrite bind_fulfils. exists tt. split; [now apply check_fulfils |].
    rewrite bind_fulfils. exists tt. split.
    { apply guarded_fulfils. destruct (waitImages b) as [|m]; [now left |].
      right. exists m. destruct H4 as [[=]|H4]. now repeat split. }
    rewrite bind_fulfils. exists tt. split; [now apply check_fulfils |].
    rewrite bind_fulfils. exists tt. split.
    { apply guarded_fulfils. destruct (typeset b) as [|m]; [now left |].
      right. exists m. destruct H6 as [[=]|H6]. now repeat split. }
    rewrite bind_fulfils. exists tt. split; [now apply check_fulfils |].
    rewrite bind_fulfils. exists tt. split; [now apply check_fulfils |].
    rewrite bind_fulfils. exists tt. split; [now apply check_fulfils |].
    apply guarded_fulfils. now left.
Qed.

(** *** How the document reaches the page *)

Lemma size_notice_threshold (text : string) :
  size_notice text
  = if (10491003 <=? N.of_nat (String.length text))%N
    then [Warned (LargeHtml (size_hundredths text))] else [].
Proof.
  unfold size_notice, size_hundredths.
  set (L := N.of_nat (String.length text)).
  destruct (N.leb_spec 10491003 L) as [H|H].
  - assert (1000 < (200 * L + 1048576) / 2097152)%N as Hq.
    { assert (1001 <= (200 * L + 1048576) / 2097152)%N;
        [apply N.div_le_lower_bound; lia | lia]. }
    apply N.ltb_lt in Hq. now rewrite Hq.
  - assert ((200 * L + 1048576) / 2097152 < 1001)%N as Hq.
    { apply N.Div0.div_lt_upper_bound; lia. }
    assert ((1000 <? (200 * L + 1048576) / 2097152)%N = false) as ->;
      [apply N.ltb_ge; lia | reflexivity].
Qed.

Lemma check_later (at_ : checkpoint) : Forall is_later (trace (check b at_)).
Proof. unfold check. destruct (closed b at_); constructor. Qed.

Lemma guarded_later (c : call) (o : outcome) (at_ : checkpoint)
    (when_closed : string -> error) (otherwise : string -> M call error unit) :
  is_later c -> (forall message, Forall is_later (trace (otherwise message))) ->
  Forall is_later (trace (guarded b c o at_ when_closed otherwise)).
Proof.
  intros Hc Ho. unfold guarded. apply trace_within.
  - now repeat constructor.
  - intros _. destruct o as [|message]; [constructor |].
    destruct (closed b at_); [constructor | apply Ho].
Qed.

Let handing : list call :=
  match given htmlPath with
  | Some p => [Goto (file_href p)]
  | None =>
      match given html with
      | Some text => (size_notice text ++ [SetContent text])%list
      | None => []
      end
  end.

Lemma trace_load : trace (load b file_href html htmlPath) = handing.
Proof.
  unfold load, handing. rewrite trace_bind. cbn [emit_all trace fst ending snd].
  destruct (given htmlPath) as [p|]; cbn [fst snd].
  - destruct (goto b (file_href p)); [reflexivity |].
    now destruct (closed b LoadCatch).
  - destruct (given html) as [text|]; cbn [fst snd].
    + destruct (setContent b text); [now rewrite List.app_nil_r |].
      destruct (closed b LoadCatch); now rewrite List.app_nil_r.
    + now destruct (closed b LoadCatch).
Qed.

Lemma printed_shape :
  launch b = Done -> newPage b = Done ->
  exists rest,
    trace printed = (Launch :: NewPage :: handing ++ rest ++ cleanup b true)%list
    /\ Forall is_later rest.
Proof.
  intros Hl Hn. unfold printed, renderPDF. rewrite trace_bind, Hl.
  cbn [emit ending snd]. rewrite trace_finally, trace_bind, Hn.
  cbn [emit ending snd]. change (trace ([?x], ?y)) with [x].
  unfold session. rewrite trace_bind, trace_load.
  match goal with
  | |- context [(handing ++ ?R)%list] => exists R
  end.
  split.
  - cbn [app]. now rewrite <- !List.app_assoc.
  - destruct (ending (load b file_href html htmlPath)); [constructor |].
    repeat first
      [ apply check_later
      | apply guarded_later; [exact I | intros message]
      | apply trace_within; [|intros _]
      | now repeat constructor ].
Qed.

(** Where a document handed to the page comes from. *)
Lemma handed_from (c : call) :
  In c (trace printed) ->
  match c with
  | Goto href => exists p, given htmlPath = Some p /\ href = file_href p
  | SetContent text => given htmlPath = None /\ given html = Some text
  | _ => True
  end.
Proof.
  intros Hin.
  assert (In c (trace printed) -> is_later c \/ In c handing
          \/ In c [Launch; NewPage; ClosePage; CloseBrowser]) as Hcases.
  { clear Hin. intros Hin. destruct (launch b) as [|ml] eqn:Hl.
    - destruct (newPage b) as [|mn] eqn:Hn.
      + destruct (printed_shape Hl Hn) as (rest & Ht & Hrest).
        rewrite Ht in Hin. cbn [In] in Hin.
        destruct Hin as [<-|[<-|Hin]]; [right; right; now left
                                       | right; right; right; now left |].
        rewrite !in_app_iff in Hin. destruct Hin as [Hin|[Hin|Hin]].
        * right. now left.
        * left. rewrite Forall_forall in Hrest. now apply Hrest.
        * right. right. unfold cleanup in Hin. cbn [andb] in Hin.
          destruct (negb (closed b Cleanup)); cbn in Hin |- *; intuition.
      + revert Hin. unfold printed, renderPDF. rewrite trace_bind, Hl.
        cbn [emit ending snd]. rewrite trace_finally, trace_bind, Hn.
        cbn. intuition.
    - revert Hin. unfold printed, renderPDF. rewrite trace_bind, Hl.
      cbn. intuition. }
  destruct (Hcases Hin) as [H|[H|H]].
  - now destruct c.
  - unfold handing in H. destruct (given htmlPath) as [p|].
    + destruct H as [<-|[]]. now exists p.
    + destruct (given html) as [text|]; [|destruct H].
      apply in_app_iff in H as [H|[<-|[]]]; [|now split].
      unfold size_notice in H. destruct (_ <? _)%N; [|destruct H].
      now destruct H as [<-|[]].
  - cbn in H. destruct H as [<-|[<-|[<-|[<-|[]]]]]; exact I.
Qed.

(** X21.  When the page is open, the first thing done with it is to hand it the
    document, once: it is sent to the file when a path is given, and otherwise
    it is given the text, after a warning when the text has at least 10491003
    code units (a size that rounds to more than 10.00 MiB); with neither a path
    nor a text, nothing is handed over. Every later call is one of the waits or
    the printing. *)
Theorem document_handed_over :
  launch b = Done -> newPage b = Done ->
  exists rest,
    trace printed
    = (Launch :: NewPage
       :: match given htmlPath with
          | Some p => [Goto (file_href p)]
          | None =>
              match given html with
              | Some text =>
                  (if (10491003 <=? N.of_nat (String.length text))%N
                   then [Warned (LargeHtml (size_hundredths text))] else [])
                  ++ [SetContent text]
              | None => []
              end
          end
       ++ rest ++ cleanup b true)%list
    /\ Forall is_later rest.
Proof.
  intros Hl Hn. destruct (printed_shape Hl Hn) as (rest & Ht & Hrest).
  exists rest. split; [|exact Hrest]. rewrite Ht. unfold handing.
  destruct (given htmlPath); [reflexivity |].
  destruct (given html); [|reflexivity]. now rewrite size_notice_threshold.
Qed.

(** *** What a conversion that succeeds has done *)

Lemma guarded_called (c : call) (o : outcome) (at_ : checkpoint)
    (when_closed : string -> error) (otherwise : string -> M call error unit) :
  In c (trace (guarded b c o at_ when_closed otherwise)).
Proof. unfold guarded. rewrite trace_bind. now left. Qed.

Lemma fulfilled_printed :
  ending printed = inr tt ->
  pdf b (pdf_options pdfPath cfg dateStr) = Done
  /\ In (Pdf (pdf_options pdfPath cfg dateStr)) (trace printed).
Proof.
  unfold printed, renderPDF. rewrite ending_bind, trace_bind.
  cbn [emit ending snd].
  destruct (launch b) as [|ml]; [|discriminate].
  rewrite ending_finally, trace_finally, ending_bind, trace_bind.
  cbn [emit ending snd].
  destruct (newPage b) as [|mn]; [|discriminate].
  unfold session. intros H.
  do 10 (apply bind_fulfils in H as ([] & ? & H)).
  apply guarded_fulfils in H as [H|(m & _ & _ & [=])].
  split; [exact H |].
  repeat (rewrite trace_bind;
          match goal with E : ending _ = inr tt |- _ => rewrite E; clear E end).
  pose proof (guarded_called (Pdf (pdf_options pdfPath cfg dateStr))
                (pdf b (pdf_options pdfPath cfg dateStr)) PdfCatch
                ClosedWhilePrinting (fun message => throw (Raw message))) as Hc.
  rewrite !in_app_iff. tauto.
Qed.

End Printing.

End RenderFacts.

(** ** The program *)

Module ProgramFacts.

Import Config Program TraceFacts.

Local Open Scope trace_scope.

Section Run.

Variable w : world.

Lemma info_reading (cfg : settings) (p : progress) :
  Forall is_reading (trace (info cfg p)).
Proof. unfold info. destruct (VERBOSE cfg); now repeat constructor. Qed.

Lemma warn_reading (l : list warning) : Forall is_reading (List.map Warn l).
Proof. induction l; now repeat constructor. Qed.

(** Where an effect of the first part comes from: [main] itself creates a
    directory, reads the source and prints lines; the rest is done by
    [processImages]. *)
Let origin (e : effect) : Prop :=
  match e with
  | Mkdir _ | ReadFile _ | Say (Started _) | Info _ | Warn _ => True
  | _ => False
  end
  \/ exists baseDir html ev,
       In ev (fst (images w baseDir html)) /\ e = asset ev.

Lemma info_origin (cfg : settings) (p : progress) :
  Forall origin (trace (info cfg p)).
Proof.
  unfold info. destruct (VERBOSE cfg); repeat constructor; left; exact I.
Qed.

Lemma prepare_origin (cli : Cli.cli) (cfg : settings) :
  Forall origin (trace (prepare w cli cfg)).
Proof.
  unfold prepare, io.
  repeat first
    [ apply info_origin
    | apply trace_within; [|intros ?]
    | now repeat constructor
    | now (repeat constructor; left; exact I) ].
  - destruct (mkdir _ _); constructor.
  - destruct (readFile _ _); constructor.
  - cbn [emit_all trace fst]. apply Forall_forall. intros e Hin.
    apply in_map_iff in Hin as (x & <- & _). left. exact I.
  - cbn [emit_all trace fst]. apply Forall_forall. intros e Hin.
    apply in_map_iff in Hin as (ev & <- & Hin). right.
    eexists _, _, ev. split; [exact Hin | reflexivity].
  - destruct (snd (images _ _ _)); constructor.
  - destruct (buildHtml _ _ _ _ _); constructor.
Qed.

Lemma asset_reading (ev : Images.event) : is_reading (asset ev).
Proof. destruct ev as [[]|]; exact I. Qed.

(** Until the document is built, [main] and [processImages] only create
    directories, read, convert figures, remove what they converted and
    log. *)
Lemma prepare_reading (cli : Cli.cli) (cfg : settings) :
  Forall is_reading (trace (prepare w cli cfg)).
Proof.
  apply (Forall_impl _ (P := origin)); [|apply prepare_origin].
  intros e [He|(baseDir & html & ev & _ & ->)]; [|apply asset_reading].
  destruct e as [| | | | | | | |[]| | | | | |]; exact He || exact I.
Qed.

(** The second part, case by case. *)
Lemma store_outcome (cli : Cli.cli) (cfg : settings) (html : string) :
  store w cli cfg html
  = if SAVE_HTML cfg then
      let dir := dirname w (htmlOut w cli) in
      if mkdir w dir then
        if writeFile w (htmlOut w cli) html
        then ([Mkdir dir; WriteFile (htmlOut w cli) html;
               Say (HtmlGenerated (htmlOut w cli))],
              inr (Some (resolve w (htmlOut w cli))))
        else ([Mkdir dir; WriteFile (htmlOut w cli) html],
              inl (WriteFailed (htmlOut w cli)))
      else ([Mkdir dir], inl (MkdirFailed dir))
    else if over_50MB html then
      let dir := join w (dirname w (resolve w (Cli.input cli))) ".md2pdf_temp" in
      if mkdir w dir then
        if writeFile w (tempHtml w cli) html
        then ((Mkdir dir :: WriteFile (tempHtml w cli) html
               :: if VERBOSE cfg
                  then [Info (LargeHtmlSaved (String.length html))] else []),
              inr (Some (tempHtml w cli)))
        else ([Mkdir dir; WriteFile (tempHtml w cli) html],
              inl (WriteFailed (tempHtml w cli)))
      else ([Mkdir dir], inl (MkdirFailed dir))
    else ([], inr None).
Proof.
  unfold store, io, info. destruct (SAVE_HTML cfg).
  - cbv zeta. destruct (mkdir w _); [|reflexivity].
    now destruct (writeFile w _ _).
  - destruct (over_50MB html); [|reflexivity].
    cbv zeta. destruct (mkdir w _); [|reflexivity].
    destruct (writeFile w _ _); [|reflexivity]. now destruct (VERBOSE cfg).
Qed.

Lemma present_outcome (cli : Cli.cli) (cfg : settings) (frontMatter : value)
    (html : string) (tempHtmlPath : option string) :
  let r := printing w cli cfg frontMatter html tempHtmlPath in
  present w cli cfg frontMatter html tempHtmlPath
  = (((if VERBOSE cfg
       then [Info Launching;
             Info (match Render.given tempHtmlPath with
                   | Some p => LoadingFile (basename w p "")
                   | None => LoadingMemory
                   end);
             Info Waiting; Info Generating]
       else [])
      ++ List.map Browser (trace r)
      ++ remove_temporary w cfg tempHtmlPath
      ++ match ending r with
         | inr _ => [Say (PdfGenerated (pdfOut w cli)); Say PrintHint;
                     Say (PrintCommand (pdfOut w cli))]
         | inl _ => []
         end)%list,
     match ending r with
     | inl e => inl (PrintFailed e)
     | inr _ => inr tt
     end).
Proof.
  intros r. unfold present, print, info. fold (printing w cli cfg frontMatter html tempHtmlPath).
  fold r. destruct r as [t [e|[]]].
  - destruct (VERBOSE cfg); destruct (Render.given tempHtmlPath); cbn;
      now rewrite ?List.app_nil_r.
  - destruct (VERBOSE cfg); destruct (Render.given tempHtmlPath); cbn;
      now rewrite <- ?List.app_assoc.
Qed.

Lemma convert_outcome (cli : Cli.cli) (cfg : settings) :
  convert w cli cfg
  = match prepare w cli cfg with
    | (t, inl f) => (t, inl f)
    | (t, inr (frontMatter, html)) =>
        match store w cli cfg html with
        | (t', inl f) => ((t ++ t')%list, inl f)
        | (t', inr tempHtmlPath) =>
            ((t ++ t' ++ trace (present w cli cfg frontMatter html tempHtmlPath))%list,
             ending (present w cli cfg frontMatter html tempHtmlPath))
        end
    end.
Proof.
  unfold convert. destruct (prepare w cli cfg) as [t [f|[frontMatter html]]];
    [reflexivity |].
  cbn [bind fst snd]. destruct (store w cli cfg html) as [t' [f|tmp]];
    reflexivity.
Qed.

(** Neither the error line, nor the line that announces the PDF file, nor
    the report of the runtime. *)
Let calm (e : effect) : Prop :=
  ~ is_error e /\ ~ announces e /\ e <> Uncaught.

Ltac calm_list :=
  repeat constructor; cbn; try tauto; try discriminate.

Lemma reading_calm (l : list effect) : Forall is_reading l -> Forall calm l.
Proof.
  apply Forall_impl. intros e He.
  destruct e as [| | | | | | | |[]| | | | | |]; try contradiction;
    repeat split; cbn; try tauto; discriminate.
Qed.

Lemma store_calm (cli : Cli.cli) (cfg : settings) (html : string) :
  Forall calm (trace (store w cli cfg html)).
Proof.
  rewrite store_outcome. unfold calm.
  destruct (SAVE_HTML cfg); [|destruct (over_50MB html)]; cbv zeta;
    repeat match goal with
           | |- context [if ?c then _ else _] => destruct c
           end;
    cbn [trace fst]; calm_list.
Qed.

Lemma remove_temporary_calm (cfg : settings) (tempHtmlPath : option string) :
  Forall calm (remove_temporary w cfg tempHtmlPath).
Proof.
  unfold remove_temporary, calm. destruct (Render.given tempHtmlPath) as [p|];
    [|constructor].
  destruct (negb (SAVE_HTML cfg)); [|constructor].
  destruct (unlink w p); calm_list.
Qed.

Lemma browser_calm (calls : list Render.call) :
  Forall calm (List.map Browser calls).
Proof.
  induction calls; constructor; [|assumption].
  repeat split; cbn; try tauto; discriminate.
Qed.




Lemma main_effects (argv : list string) (cli : Cli.cli) :
  Cli.parseArgs argv = inr cli ->
  let run := convert w cli (buildConfig (process_env w) (Number w) cli) in
  main w argv
  = match ending run with
    | inl UnhandledRejection => ((trace run ++ [Uncaught])%list, 1)
    | inl f => ((trace run ++ [Error f])%list, 1)
    | inr _ => (trace run, 0)
    end.
Proof.
  intros Hcli. unfold main. rewrite Hcli.
  change (bind (ret cli) ?k) with (([] ++ fst (k cli))%list, snd (k cli)).
  cbv beta. cbn [app trace ending fst snd].
  now destruct (convert w cli _) as [t [[]|u]].
Qed.



Lemma reading_inv (l : list effect) (e : effect) :
  Forall is_reading l -> In e l -> is_reading e.
Proof. intros H. rewrite Forall_forall in H. apply H. Qed.

(** The calls of [processImages] for one source remove nothing. *)
Lemma calls_src_kind (stat : string -> option Images.stats)
    (isAbs : string -> bool) (res : string -> string -> string)
    (ext : string -> string) (conv : string -> option string)
    (pjoin : string -> string -> string) (baseDir : string) (embed : bool)
    (k : string) (c : Images.call) :
  In c (Images.calls_src stat isAbs res ext conv pjoin baseDir embed k) ->
  match c with
  | Images.Stat _ | Images.ReadFile _ | Images.Convert _ _ => True
  | _ => False
  end.
Proof.
  unfold Images.calls_src, Images.calls_pdf.
  repeat match goal with
         | |- context [if ?b then _ else _] => destruct b
         | |- context [match ?o with Some _ => _ | None => _ end] =>
             destruct o
         end;
    cbn [In]; intros H; repeat destruct H as [<-|H]; exact I || destruct H.
Qed.

Lemma visit_unlinks (stat : string -> option Images.stats)
    (read : string -> option string) (isAbs : string -> bool)
    (res : string -> string -> string) (ext href : string -> string)
    (conv : string -> option string) (pjoin : string -> string -> string)
    (inter : string -> string -> bool) (baseDir : string) (embed : bool)
    (pending keys : list string) (p : string) :
  ~ In (Images.Called (Images.Unlink p))
       (fst (Images.visit stat read isAbs res ext href conv pjoin inter
               baseDir embed pending keys)).
Proof.
  revert pending. induction keys as [|k keys IH]; intros pending;
    [intros [] |].
  cbn [Images.visit].
  destruct (negb (Images.is_remote k) && existsb _ pending).
  - intros [[=]|[]].
  - cbn [fst]. unfold Images.events_src. rewrite !in_app_iff, !in_map_iff.
    intros [[(c & [= ->] & Hc)|(x & [=] & _)]|H].
    + now apply calls_src_kind in Hc.
    + now apply IH in H.
Qed.

(** What [processImages] removes is what [convertPdfToSvg] returned. *)
Lemma images_unlinks (baseDir html p : string) :
  In (Unlink p) (List.map asset (fst (images w baseDir html))) ->
  exists pdfPath, convertPdfToSvg w pdfPath = Some p.
Proof.
  intros H. apply in_map_iff in H as (ev & Hev & H).
  destruct ev as [[]|]; try discriminate Hev. injection Hev as ->.
  revert H. unfold images, Images.processImages.
  set (loop := Images.visit _ _ _ _ _ _ _ _ _ _ _ _ _).
  assert (~ In (Images.Called (Images.Unlink p)) (fst loop)) as Hloop
    by apply visit_unlinks.
  assert (forall rest,
             In (Images.Called (Images.Unlink p))
               ((Images.Called (Images.Mkdir
                                  (Images.tempDir (join w) baseDir))
                 :: (if mkdir w (Images.tempDir (join w) baseDir) then []
                     else [Images.Logged
                             (TempDirFailed
                                (Images.tempDir (join w) baseDir))]))
                ++ rest)%list ->
             In (Images.Called (Images.Unlink p)) rest) as Hstart.
  { intros rest. destruct (mkdir w _); cbn; intuition discriminate. }
  destruct (snd loop); [|destruct (existsb _ _)]; cbn [fst]; intros H;
    apply Hstart in H; try contradiction.
  apply in_app_iff in H as [H|H]; [contradiction |].
  unfold Images.cleanup in H. apply in_app_iff in H as [H|H].
  - apply in_flat_map in H as (q & Hq & H).
    assert (q = p) as ->.
    { destruct (unlink w q); cbn in H; intuition congruence. }
    unfold Images.tempFiles in Hq. apply in_flat_map in Hq as (k & _ & Hk).
    destruct (Images.converted _ _ _ _ _ _ _ k) as [q|] eqn:E;
      [|contradiction].
    destruct Hk as [->|[]]. unfold Images.converted in E.
    repeat match type of E with
           | context [if ?b then _ else _] => destruct b
           | context [match ?o with Some _ => _ | None => _ end] =>
               destruct o
           end; try discriminate E; eexists; exact E.
  - destruct (readdir w _) as [[|? ?]|]; cbn in H; intuition discriminate.
Qed.

Lemma prepare_unlinks (cli : Cli.cli) (cfg : settings) (p : string) :
  In (Unlink p) (trace (prepare w cli cfg)) ->
  exists pdfPath, convertPdfToSvg w pdfPath = Some p.
Proof.
  intros H. pose proof (prepare_origin cli cfg) as Ho.
  rewrite Forall_forall in Ho.
  destruct (Ho _ H) as [[]|(baseDir & html & ev & Hin & E)].
  apply (images_unlinks baseDir html). rewrite E. now apply in_map.
Qed.

(** X23.  A temporary file is removed once the browser is done with it, and a
    saved document is kept.  In save mode the only files removed are the
    drawings that [processImages] had converted from PDF figures.  Otherwise
    a file that [main] has written is removed afterwards, whether the
    printing succeeds or fails, and after the removal nothing happens but
    the closing lines. *)
Theorem temporary_removed (argv : list string) (cli : Cli.cli) :
  Cli.parseArgs argv = inr cli ->
  let cfg := buildConfig (process_env w) (Number w) cli in
  let effects := fst (main w argv) in
  (SAVE_HTML cfg = true ->
   forall p, In (Unlink p) effects ->
             exists pdfPath, convertPdfToSvg w pdfPath = Some p)
  /\ (SAVE_HTML cfg = false ->
      forall p text,
        In (WriteFile p text) effects -> writeFile w p text = true -> p <> "" ->
        exists before after,
          effects = (before ++ Unlink p :: after)%list
          /\ Forall is_closing after).
Proof.
  intros Hcli cfg effects. unfold effects. rewrite (main_effects argv cli Hcli).
  cbv zeta. fold cfg. clearbody cfg. rewrite convert_outcome.
  pose proof (prepare_reading cli cfg) as Hp.
  pose proof (prepare_unlinks cli cfg) as Hu.
  destruct (prepare w cli cfg) as [t [f|[frontMatter html]]];
    cbn [trace fst] in Hp, Hu.
  { cbn [trace ending fst snd]. split.
    - intros _ p Hin. apply Hu.
      destruct f; cbn [fst] in Hin;
        now apply in_app_iff in Hin as [Hin|[[=]|[]]].
    - intros _ p text Hin. exfalso.
      assert (In (WriteFile p text) t) as Ht
        by (destruct f; cbn [fst] in Hin;
            now apply in_app_iff in Hin as [Hin|[[=]|[]]]).
      now apply (reading_inv _ _ Hp) in Ht. }
  rewrite store_outcome. split.
  - intros Hsave p. rewrite Hsave. cbv zeta.
    destruct (mkdir w _).
    2:{ cbn [trace ending fst snd]. rewrite !in_app_iff. cbn.
        intros [[H|[[=]|[]]]|[[=]|[]]]. now apply Hu in H. }
    destruct (writeFile w _ _).
    2:{ cbn [trace ending fst snd]. rewrite !in_app_iff. cbn.
        intros [[H|[[=]|[[=]|[]]]]|[[=]|[]]].
        now apply Hu in H. }
    rewrite present_outcome. cbv zeta. cbn [trace ending fst snd].
    unfold remove_temporary. rewrite Hsave. cbn [negb].
    assert (forall q : option string,
               match q with Some _ => @nil effect | None => [] end = []) as ->
      by now intros [].
    destruct (ending (printing _ _ _ _ _ _)) as [e|u];
      cbn [trace ending fst snd]; rewrite ?in_app_iff; cbn;
      rewrite ?in_app_iff, ?in_map_iff;
      intros H; repeat destruct H as [H|H]; try discriminate; try contradiction;
      try (now apply Hu in H);
      try (now destruct H as (c & [=] & _));
      destruct (VERBOSE cfg); cbn in H; intuition discriminate.
  - intros Hsave p text. rewrite Hsave.
    destruct (over_50MB html).
    2:{ rewrite present_outcome. cbv zeta. cbn [trace ending fst snd app].
        unfold remove_temporary. cbn [Render.given].
        destruct (ending (printing _ _ _ _ _ _)) as [e|u];
          cbn [trace ending fst snd]; rewrite ?in_app_iff; cbn;
          rewrite ?in_app_iff, ?in_map_iff;
          intros H; repeat destruct H as [H|H]; try discriminate;
          try contradiction;
          try (now apply (reading_inv _ _ Hp) in H);
          try (now destruct H as (c & [=] & _));
          destruct (VERBOSE cfg); cbn in H; intuition discriminate. }
    cbv zeta. destruct (mkdir w _).
    2:{ cbn [trace ending fst snd]. rewrite !in_app_iff. cbn.
        intros [[H|[[=]|[]]]|[[=]|[]]]. now apply (reading_inv _ _ Hp) in H. }
    destruct (writeFile w (tempHtml w cli) html) eqn:Hw.
    2:{ cbn [trace ending fst snd]. rewrite !in_app_iff. cbn.
        intros [[H|[[=]|[[= <- <-]|[]]]]|[[=]|[]]] Hok; [|congruence].
        now apply (reading_inv _ _ Hp) in H. }
    rewrite present_outcome. cbv zeta. cbn [trace ending fst snd].
    intros Hin Hok Hne.
    assert (p = tempHtml w cli) as ->.
    { revert Hin. destruct (ending (printing _ _ _ _ _ _)) as [e|u];
        cbn [trace ending fst snd]; rewrite ?in_app_iff; cbn;
        rewrite ?in_app_iff, ?in_map_iff; unfold remove_temporary;
        intros H; repeat destruct H as [H|H]; try discriminate;
        try contradiction;
        try (now apply (reading_inv _ _ Hp) in H);
        try (now destruct H as (c & [=] & _));
        try (now injection H);
        repeat match type of H with
               | context [if ?c then _ else _] => destruct c
               | context [match ?c with _ => _ end] => destruct c
               end; cbn in H; intuition discriminate. }
    clear Hin. unfold remove_temporary.
    assert (Render.given (Some (tempHtml w cli)) = Some (tempHtml w cli)) as ->.
    { cbn. destruct (String.eqb (tempHtml w cli) "") eqn:He; [|reflexivity].
      now apply String.eqb_eq in He. }
    rewrite Hsave. cbn [negb].
    set (r := printing w cli cfg frontMatter html (Some (tempHtml w cli))).
    exists (t ++ (Mkdir (join w (dirname w (resolve w (Cli.input cli))) ".md2pdf_temp")
                  :: WriteFile (tempHtml w cli) html
                  :: (if VERBOSE cfg
                      then [Info (LargeHtmlSaved (String.length html))] else []))
              ++ (if VERBOSE cfg
                  then [Info Launching;
                        Info (LoadingFile (basename w (tempHtml w cli) ""));
                        Info Waiting; Info Generating] else [])
              ++ List.map Browser (trace r))%list.
    destruct (ending r) as [e|u]; cbn [trace ending fst snd].
    + exists ((if unlink w (tempHtml w cli) then []
               else [UnlinkFailed (tempHtml w cli)]) ++ [Error (PrintFailed e)])%list.
      split.
      * repeat first [ rewrite <- List.app_assoc
                       | rewrite List.app_nil_r | progress cbn [app] ].
        reflexivity.
      * destruct (unlink w _); now repeat constructor.
    + exists ((if unlink w (tempHtml w cli) then []
               else [UnlinkFailed (tempHtml w cli)])
              ++ [Say (PdfGenerated (pdfOut w cli)); Say PrintHint;
                  Say (PrintCommand (pdfOut w cli))])%list.
      split.
      * repeat first [ rewrite <- List.app_assoc
                       | rewrite List.app_nil_r | progress cbn [app] ].
        reflexivity.
      * destruct (unlink w _); now repeat constructor.
Qed.

Ltac sift Hp H :=
  cbn [trace ending fst snd] in H; rewrite ?in_app_iff in H; cbn [In] in H;
  rewrite ?in_app_iff, ?in_map_iff in H;
  repeat destruct H as [H|H]; try discriminate H; try contradiction;
  try (now apply (reading_inv _ _ Hp) in H).

(** X24.  What the browser is given is the document of this run: its text, when
    no file was written, or the file that was written just before. *)
Theorem browser_document (argv : list string) (cli : Cli.cli) :
  Cli.parseArgs argv = inr cli ->
  (forall p, resolve w p <> "") -> (forall a b, join w a b <> "") ->
  let cfg := buildConfig (process_env w) (Number w) cli in
  let effects := fst (main w argv) in
  (forall text,
      In (Browser (Render.SetContent text)) effects ->
      SAVE_HTML cfg = false
      /\ (N.of_nat (String.length text) <= 52428800)%N
      /\ forall p t, ~ In (WriteFile p t) effects)
  /\ (forall href,
        In (Browser (Render.Goto href)) effects ->
        exists p text,
          In (WriteFile p text) effects /\ writeFile w p text = true
          /\ ((SAVE_HTML cfg = true /\ href = file_href w (resolve w p))
              \/ (SAVE_HTML cfg = false
                  /\ (52428800 < N.of_nat (String.length text))%N
                  /\ href = file_href w p))).
Proof.
  intros Hcli Hresolve Hjoin cfg effects. unfold effects.
  rewrite (main_effects argv cli Hcli). cbv zeta. fold cfg. clearbody cfg.
  rewrite convert_outcome.
  pose proof (prepare_reading cli cfg) as Hp.
  destruct (prepare w cli cfg) as [t [f|[frontMatter html]]]; cbn [trace fst] in Hp.
  { destruct f; split; intros x H; sift Hp H. }
  rewrite store_outcome.
  assert (forall p, p <> "" -> Render.given (Some p) = Some p) as Hgiven.
  { intros p Hne. cbn. destruct (String.eqb p "") eqn:He; [|reflexivity].
    now apply String.eqb_eq in He. }
  destruct (SAVE_HTML cfg) eqn:Hsave; [|destruct (over_50MB html) eqn:Hbig];
    cbv zeta.
  - destruct (mkdir w _); [|split; intros x H; sift Hp H].
    destruct (writeFile w (htmlOut w cli) html) eqn:Hw;
      [|split; intros x H; sift Hp H].
    rewrite present_outcome. cbv zeta. cbn [trace ending fst snd].
    set (r := printing w cli cfg frontMatter html (Some (resolve w (htmlOut w cli)))).
    assert (forall c, In c (trace r) ->
              match c with
              | Render.Goto href => href = file_href w (resolve w (htmlOut w cli))
              | Render.SetContent _ => False
              | _ => True
              end) as Hr.
    { intros c Hc. apply RenderFacts.handed_from in Hc.
      rewrite (Hgiven _ (Hresolve _)) in Hc. destruct c; try exact I.
      - now destruct Hc as (p & [= <-] & ->).
      - now destruct Hc as [[=] _]. }
    split.
    + intros text H.
      assert (In (Render.SetContent text) (trace r)) as Hc.
      { destruct (ending r); destruct (VERBOSE cfg); sift Hp H;
          try (destruct H as (c & [= ->] & H); exact H);
        unfold remove_temporary in H;
          repeat match type of H with
                 | context [match ?c with _ => _ end] => destruct c
                 end; sift Hp H. }
      now apply Hr in Hc.
    + intros href H. exists (htmlOut w cli), html.
      assert (In (Render.Goto href) (trace r)) as Hc.
      { destruct (ending r); destruct (VERBOSE cfg); sift Hp H;
          try (destruct H as (c & [= ->] & H); exact H);
        unfold remove_temporary in H;
          repeat match type of H with
                 | context [match ?c with _ => _ end] => destruct c
                 end; sift Hp H. }
      apply Hr in Hc. split; [|split; [exact Hw | left; now split]].
      destruct (ending r); cbn [trace ending fst snd]; rewrite !in_app_iff;
        cbn; tauto.
  - destruct (mkdir w _); [|split; intros x H; sift Hp H].
    destruct (writeFile w (tempHtml w cli) html) eqn:Hw;
      [|split; intros x H; sift Hp H].
    rewrite present_outcome. cbv zeta. cbn [trace ending fst snd].
    set (r := printing w cli cfg frontMatter html (Some (tempHtml w cli))).
    assert (forall c, In c (trace r) ->
              match c with
              | Render.Goto href => href = file_href w (tempHtml w cli)
              | Render.SetContent _ => False
              | _ => True
              end) as Hr.
    { intros c Hc. apply RenderFacts.handed_from in Hc.
      rewrite (Hgiven (tempHtml w cli) (Hjoin _ _)) in Hc. destruct c; try exact I.
      - now destruct Hc as (p & [= <-] & ->).
      - now destruct Hc as [[=] _]. }
    split.
    + intros text H.
      assert (In (Render.SetContent text) (trace r)) as Hc.
      { destruct (ending r); destruct (VERBOSE cfg); sift Hp H;
          try (destruct H as (c & [= ->] & H); exact H);
        unfold remove_temporary in H;
          repeat match type of H with
                 | context [match ?c with _ => _ end] => destruct c
                 end; sift Hp H. }
      now apply Hr in Hc.
    + intros href H. exists (tempHtml w cli), html.
      assert (In (Render.Goto href) (trace r)) as Hc.
      { destruct (ending r); destruct (VERBOSE cfg); sift Hp H;
          try (destruct H as (c & [= ->] & H); exact H);
        unfold remove_temporary in H;
          repeat match type of H with
                 | context [match ?c with _ => _ end] => destruct c
                 end; sift Hp H. }
      apply Hr in Hc. split; [|split; [exact Hw | right]].
      * destruct (ending r); cbn [trace ending fst snd]; rewrite !in_app_iff;
          cbn; tauto.
      * split; [reflexivity |]. split; [|exact Hc].
        unfold over_50MB in Hbig. now apply N.ltb_lt in Hbig.
  - rewrite present_outcome. cbv zeta. cbn [trace ending fst snd app].
    set (r := printing w cli cfg frontMatter html None).
    assert (forall c, In c (trace r) ->
              match c with
              | Render.Goto _ => False
              | Render.SetContent text => text = html
              | _ => True
              end) as Hr.
    { intros c Hc. apply RenderFacts.handed_from in Hc. cbn [Render.given] in Hc.
      destruct c; try exact I.
      - now destruct Hc as (p & [=] & _).
      - destruct Hc as [_ Hc]. destruct (String.eqb html ""); congruence. }
    unfold remove_temporary. cbn [Render.given app].
    split.
    + intros text H.
      assert (In (Render.SetContent text) (trace r)) as Hc.
      { destruct (ending r); destruct (VERBOSE cfg); sift Hp H;
          try (destruct H as (c & [= ->] & H); exact H). }
      apply Hr in Hc. subst text. split; [reflexivity |]. split.
      * unfold over_50MB in Hbig. now apply N.ltb_ge in Hbig.
      * intros p x Hx.
        destruct (ending r); destruct (VERBOSE cfg); sift Hp Hx;
          try (now destruct Hx as (c & [=] & _)).
    + intros href H.
      assert (In (Render.Goto href) (trace r)) as Hc.
      { destruct (ending r); destruct (VERBOSE cfg); sift Hp H;
          try (destruct H as (c & [= ->] & H); exact H). }
      now apply Hr in Hc.
Qed.



Lemma calm_inv (l : list effect) (e : effect) :
  Forall calm l -> In e l -> ~ announces e.
Proof. intros H Hin. rewrite Forall_forall in H. now apply (H e Hin). Qed.

(** X26.  The announcement is true: when [main] prints that the PDF file was
    generated, the run ends with exit code 0, the file named is the output
    given on the command line, or the default one, and the browser was asked to
    print to that path and did. *)
Theorem announced_is_printed (argv : list string) (out : string) :
  In (Say (PdfGenerated out)) (fst (main w argv)) ->
  snd (main w argv) = 0
  /\ (exists cli, Cli.parseArgs argv = inr cli /\ out = pdfOut w cli)
  /\ exists o,
       Render.path o = out
       /\ In (Browser (Render.Pdf o)) (fst (main w argv))
       /\ Render.pdf (browser w) o = Render.Done.
Proof.
  destruct (Cli.parseArgs argv) as [e|cli] eqn:Hcli.
  { unfold main. rewrite Hcli. cbn. intuition discriminate. }
  rewrite (main_effects argv cli Hcli). cbv zeta.
  generalize (buildConfig (process_env w) (Number w) cli). intros cfg.
  rewrite convert_outcome.
  pose proof (reading_calm _ (prepare_reading cli cfg)) as Hp.
  destruct (prepare w cli cfg) as [t [f|[frontMatter html]]]; cbn [trace fst] in Hp.
  { cbn [trace ending fst snd]. intros Hin.
    assert (In (Say (PdfGenerated out)) t) as Ht
      by (destruct f; cbn [fst] in Hin;
          now apply in_app_iff in Hin as [Hin|[[=]|[]]]).
    destruct (calm_inv _ _ Hp Ht I). }
  pose proof (store_calm cli cfg html) as Hs.
  destruct (store w cli cfg html) as [t' [f|tmp]]; cbn [trace fst] in Hs.
  { cbn [trace ending fst snd]. intros Hin.
    assert (In (Say (PdfGenerated out)) (t ++ t')) as Ht
      by (destruct f; cbn [fst] in Hin;
          now apply in_app_iff in Hin as [Hin|[[=]|[]]]).
    apply in_app_iff in Ht as [Ht|Ht].
    - destruct (calm_inv _ _ Hp Ht I).
    - destruct (calm_inv _ _ Hs Ht I). }
  rewrite present_outcome. cbv zeta. cbn [trace ending fst snd].
  set (r := printing w cli cfg frontMatter html tmp).
  set (infos := if VERBOSE cfg then _ else []).
  assert (Forall calm infos) as Hi.
  { unfold infos, calm. destruct (VERBOSE cfg); calm_list. }
  pose proof (browser_calm (trace r)) as Hb.
  pose proof (remove_temporary_calm cfg tmp) as Hr.
  destruct (ending r) as [e|[]] eqn:Hend; cbn [fst snd].
  - intros Hin. rewrite !in_app_iff in Hin. exfalso.
    destruct Hin as [[Hin|[Hin|[Hin|[Hin|[Hin|[]]]]]]|[[=]|[]]].
    + destruct (calm_inv _ _ Hp Hin I).
    + destruct (calm_inv _ _ Hs Hin I).
    + destruct (calm_inv _ _ Hi Hin I).
    + destruct (calm_inv _ _ Hb Hin I).
    + destruct (calm_inv _ _ Hr Hin I).
  - intros Hin. rewrite !in_app_iff in Hin.
    assert (out = pdfOut w cli) as ->.
    { destruct Hin as [Hin|[Hin|[Hin|[Hin|[Hin|Hin]]]]].
      + destruct (calm_inv _ _ Hp Hin I).
      + destruct (calm_inv _ _ Hs Hin I).
      + destruct (calm_inv _ _ Hi Hin I).
      + destruct (calm_inv _ _ Hb Hin I).
      + destruct (calm_inv _ _ Hr Hin I).
      + cbn in Hin. destruct Hin as [[= ->]|[[=]|[[=]|[]]]]. reflexivity. }
    split; [reflexivity |]. split; [now exists cli |].
    destruct (RenderFacts.fulfilled_printed _ _ _ _ _ _ _ Hend) as [Hdone Hcall].
    eexists. split; [|split; [|exact Hdone]]; [reflexivity |].
    rewrite !in_app_iff. right. right. right. left.
    apply in_map_iff. eexists. split; [reflexivity | exact Hcall].
Qed.

End Run.

End ProgramFacts.

(** ** Verbosity *)

Module VerboseFacts.

Import Config Program TraceFacts ProgramFacts.

Local Open Scope trace_scope.

Section Verbosity.

Variable w : world.

Let silent (e : effect) : bool := negb (is_info e).

(** Two runs that differ in progress lines only. *)
Let alike {A : Type} (m m' : M effect failure A) : Prop :=
  ending m = ending m' /\ filter silent (trace m) = filter silent (trace m').

Lemma alike_refl {A : Type} (m : M effect failure A) : alike m m.
Proof. now split. Qed.

Lemma alike_bind {A B : Type} (m m' : M effect failure A)
    (k k' : A -> M effect failure B) :
  alike m m' -> (forall a, alike (k a) (k' a)) -> alike (bind m k) (bind m' k').
Proof.
  intros [He Ht] Hk. unfold alike. rewrite !ending_bind, !trace_bind, !filter_app.
  rewrite <- He, Ht. destruct (ending m) as [f|a]; [now split |].
  destruct (Hk a) as [He' Ht']. now rewrite He', Ht'.
Qed.

Lemma alike_info (cfg cfg' : settings) (p : progress) :
  alike (info cfg p) (info cfg' p).
Proof. unfold info. now destruct (VERBOSE cfg), (VERBOSE cfg'). Qed.

(** The settings with another verbose switch. *)
Let with_verbose (v : bool) (cfg : settings) : settings :=
  Settings (page cfg) (SAVE_HTML cfg) v (PDF_FORMAT cfg) (PDF_SCALE cfg)
           (PDF_MARGIN_TOP cfg) (PDF_MARGIN_RIGHT cfg) (PDF_MARGIN_BOTTOM cfg)
           (PDF_MARGIN_LEFT cfg) (PDF_PRINT_BG cfg).

Lemma prepare_alike (cli : Cli.cli) (cfg : settings) (v : bool) :
  alike (prepare w cli cfg) (prepare w cli (with_verbose v cfg)).
Proof.
  unfold prepare.
  repeat first
    [ apply alike_refl
    | apply alike_info
    | apply alike_bind; [|intros ?] ].
Qed.

Lemma store_alike (cli : Cli.cli) (cfg : settings) (v : bool) (html : string) :
  alike (store w cli cfg html) (store w cli (with_verbose v cfg) html).
Proof.
  rewrite !store_outcome. cbn [with_verbose SAVE_HTML VERBOSE]. cbv zeta.
  repeat match goal with
         | |- context [if ?c then _ else _] => destruct c
         end; now split.
Qed.

Lemma printing_settings (cli : Cli.cli) (cfg : settings) (v : bool)
    (frontMatter : value) (html : string) (tempHtmlPath : option string) :
  printing w cli (with_verbose v cfg) frontMatter html tempHtmlPath
  = printing w cli cfg frontMatter html tempHtmlPath.
Proof. reflexivity. Qed.

Lemma filter_browser (calls : list Render.call) :
  filter silent (List.map Browser calls) = List.map Browser calls.
Proof. induction calls as [|c calls IH]; cbn; [reflexivity | now rewrite IH]. Qed.

Lemma present_alike (cli : Cli.cli) (cfg : settings) (v : bool)
    (frontMatter : value) (html : string) (tempHtmlPath : option string) :
  alike (present w cli cfg frontMatter html tempHtmlPath)
        (present w cli (with_verbose v cfg) frontMatter html tempHtmlPath).
Proof.
  rewrite !present_outcome. cbv zeta. rewrite printing_settings.
  unfold alike. cbn [trace ending fst snd]. split; [reflexivity |].
  rewrite !filter_app. f_equal.
  cbn [with_verbose VERBOSE]. now destruct (VERBOSE cfg), v.
Qed.

Lemma convert_alike (cli : Cli.cli) (cfg : settings) (v : bool) :
  alike (convert w cli cfg) (convert w cli (with_verbose v cfg)).
Proof.
  unfold convert. apply alike_bind; [apply prepare_alike |]. intros built.
  apply alike_bind; [apply store_alike |]. intros tmp. apply present_alike.
Qed.

Lemma convert_cli (i : string) (o : option string) (v v' s : bool)
    (cfg : settings) :
  convert w (Cli.Cli i o v s) cfg = convert w (Cli.Cli i o v' s) cfg.
Proof. reflexivity. Qed.

(** X27.  One more [-v] or [--verbose] at the end of the command line changes
    nothing but the progress lines: the exit code is the same, and so are the
    other effects, in the same order. *)
Theorem verbose_only_adds_progress (argv : list string) (flag : string) :
  2 <= List.length argv -> Cli.is_verbose flag = true ->
  snd (main w (argv ++ [flag])) = snd (main w argv)
  /\ filter (fun e => negb (is_info e)) (fst (main w (argv ++ [flag])))
     = filter (fun e => negb (is_info e)) (fst (main w argv)).
Proof.
  intros Hlen Hv. pose proof (CliFacts.parseArgs_verbose argv flag Hlen Hv) as Hp.
  destruct (Cli.parseArgs argv) as [e|[i o v s]] eqn:Hc.
  - unfold main. now rewrite Hp, Hc.
  - cbn [Cli.input Cli.output Cli.saveHtml] in Hp.
    rewrite (main_effects w _ _ Hp), (main_effects w _ _ Hc). cbv zeta.
    rewrite (convert_cli i o true v s).
    set (cfg := buildConfig (process_env w) (Number w) (Cli.Cli i o v s)).
    assert (buildConfig (process_env w) (Number w) (Cli.Cli i o true s)
            = with_verbose true cfg) as -> by reflexivity.
    destruct (convert_alike (Cli.Cli i o v s) cfg true) as [He Ht].
    rewrite <- He. fold silent.
    destruct (ending (convert w (Cli.Cli i o v s) cfg)) as [f|u];
      cbn [fst snd]; [|now split].
    destruct f; cbn [fst snd]; (split; [reflexivity |]);
      now rewrite !filter_app, Ht.
Qed.

End Verbosity.

End VerboseFacts.

(** ** Sample runs *)

Module CaseFacts.

Import Config Images.

(** The conversion of a figure on a machine without Poppler: the shell
    reports that the command is missing and ends with code 127. *)
Lemma failure_is_logged_witness :
  let run :=
    Poppler.convertPdfToSvg Cases.fs_stat Cases.join Cases.basename
      "1700000000000" "/doc/fig.pdf" "/doc/.md2pdf_temp"
      [Poppler.Data "sh: 1: pdftocairo: not found"; Poppler.Close (Some 127%Z)] in
  Poppler.settled run = Some None /\ Poppler.logged run <> [].
Proof.
  split; [reflexivity |].
  apply (PopplerFacts.failure_is_logged Cases.fs_stat Cases.join Cases.basename
           "1700000000000" "/doc/fig.pdf" "/doc/.md2pdf_temp").
  reflexivity.
Defined.

Lemma browser_closed_last_witness :
  Render.launch Cases.browser = Render.Done
  /\ exists work,
       trace (Render.renderPDF Cases.browser Sample.file_href (Some "<p>x</p>")
                None "out-pdf/doc.pdf"
                (buildConfig (fun _ => None) (fun _ => VNum 1)
                   (Cli.Cli "doc.md" None false false))
                "2026/11/2")
       = (Render.Launch :: Render.NewPage :: work
          ++ [Render.ClosePage] ++ [Render.CloseBrowser])%list
       /\ Forall Render.is_work work.
Proof.
  split; [reflexivity |].
  exact (RenderFacts.browser_closed_last Cases.browser Sample.file_href
           (Some "<p>x</p>") None "out-pdf/doc.pdf" _ "2026/11/2" eq_refl).
Defined.

Lemma document_handed_over_witness :
  Render.launch Cases.browser = Render.Done
  /\ Render.newPage Cases.browser = Render.Done
  /\ exists rest,
       trace (Render.renderPDF Cases.browser Sample.file_href (Some "<p>x</p>")
                None "out-pdf/doc.pdf"
                (buildConfig (fun _ => None) (fun _ => VNum 1)
                   (Cli.Cli "doc.md" None false false))
                "2026/11/2")
       = (Render.Launch :: Render.NewPage :: [Render.SetContent "<p>x</p>"]
          ++ rest ++ [Render.ClosePage; Render.CloseBrowser])%list
       /\ Forall Render.is_later rest.
Proof.
  split; [reflexivity |]. split; [reflexivity |].
  exact (RenderFacts.document_handed_over Cases.browser Sample.file_href
           (Some "<p>x</p>") None "out-pdf/doc.pdf" _ "2026/11/2"
           eq_refl eq_refl).
Defined.

(** A run in save mode on a source with a PDF figure: the drawing
    converted from the figure is removed, and nothing else. *)
Lemma temporary_removed_witness :
  let argv := ["node"; "md2pdf.mjs"; "fig.md"; "--save-html"] in
  Cli.parseArgs argv = inr (Cli.Cli "fig.md" None false true)
  /\ In (Program.Unlink Cases.fig_svg) (fst (Program.main Cases.world argv))
  /\ forall p,
       In (Program.Unlink p) (fst (Program.main Cases.world argv)) ->
       exists pdfPath, Cases.convertPdfToSvg pdfPath = Some p.
Proof.
  split; [reflexivity |]. split; [vm_compute; tauto |].
  exact (proj1 (ProgramFacts.temporary_removed Cases.world
                  ["node"; "md2pdf.mjs"; "fig.md"; "--save-html"]
                  (Cli.Cli "fig.md" None false true) eq_refl) eq_refl).
Defined.

(** A run on a source with two images, where the read of the first is
    refused while the second is looked up: the process ends there. *)
Lemma unhandled_rejection_run :
  Program.main Cases.world ["node"; "md2pdf.mjs"; "two.md"]
  = ([Program.Mkdir "out-pdf"; Program.Say (Program.Started "two");
      Program.ReadFile "two.md"; Program.Mkdir "/doc/.md2pdf_temp";
      Program.Stat "/doc/locked.png"; Program.ReadFile "/doc/locked.png";
      Program.Stat "/doc/a.png"; Program.Uncaught], 1).
Proof. vm_compute. reflexivity. Qed.

Lemma browser_document_witness :
  Cli.parseArgs Cases.argv = inr (Cli.Cli "doc.md" None false false)
  /\ (forall p, Cases.resolve p <> "")
  /\ (forall a b, Cases.join a b <> "")
  /\ forall href,
       ~ In (Program.Browser (Render.Goto href))
           (fst (Program.main Cases.world Cases.argv)).
Proof.
  assert (forall p, Cases.resolve p <> "") as Hr.
  { intros p. unfold Cases.resolve. destruct p as [|a p]; [discriminate |].
    cbn. destruct (Ascii.eqb a "/"); discriminate. }
  assert (forall a b, Cases.join a b <> "") as Hj.
  { intros a b. unfold Cases.join. destruct a; discriminate. }
  split; [reflexivity |]. split; [exact Hr |]. split; [exact Hj |].
  intros href Hin.
  destruct (proj2 (ProgramFacts.browser_document Cases.world Cases.argv
                     (Cli.Cli "doc.md" None false false) eq_refl Hr Hj)
              href Hin) as (p & text & Hw & _).
  vm_compute in Hw. intuition discriminate.
Defined.

Lemma verbose_only_adds_progress_witness :
  2 <= List.length Cases.argv
  /\ Cli.is_verbose "-v" = true
  /\ snd (Program.main Cases.world (Cases.argv ++ ["-v"])) = 0
  /\ filter (fun e => negb (Program.is_info e))
        (fst (Program.main Cases.world (Cases.argv ++ ["-v"])))
     = fst (Program.main Cases.world Cases.argv).
Proof.
  split; [cbn; lia |]. split; [reflexivity |].
  destruct (VerboseFacts.verbose_only_adds_progress Cases.world Cases.argv "-v")
    as [Hcode Heffects]; [cbn; lia | reflexivity |].
  split; [rewrite Hcode; reflexivity | rewrite Heffects; reflexivity].
Defined.

Lemma image_match_shape_witness :
  In Sample.hero_match (imageMatches ("<p>" ++ Sample.hero ++ "</p>"))
  /\ exists ws q1 q2,
       fullMatch Sample.hero_match
       = "<img" ++ ws ++ beforeSrc Sample.hero_match ++ "src="
         ++ String q1 (src Sample.hero_match)
         ++ String q2 (afterSrc Sample.hero_match) ++ ">"
       /\ ws <> "" /\ all is_space ws = true
       /\ is_quote q1 = true /\ is_quote q2 = true
       /\ src Sample.hero_match <> ""
       /\ all not_quote (src Sample.hero_match) = true
       /\ all (not_char ">") (beforeSrc Sample.hero_match) = true
       /\ all (not_char ">") (afterSrc Sample.hero_match) = true.
Proof.
  assert (In Sample.hero_match (imageMatches ("<p>" ++ Sample.hero ++ "</p>")))
    as Hin by (vm_compute; now left).
  split; [exact Hin |].
  exact (ElementFacts.image_match_shape _ _ Hin).
Defined.

Lemma element_name_fused_witness :
  In Sample.hero_match (imageMatches ("<p>" ++ Sample.hero ++ "</p>"))
  /\ exists a rest,
       rewritten Sample.hero_match (ImageInfo base64 "data:image/png;base64,UE5H")
       = "<img" ++ String a rest
       /\ is_space a = false.
Proof.
  assert (In Sample.hero_match (imageMatches ("<p>" ++ Sample.hero ++ "</p>")))
    as Hin by (vm_compute; now left).
  split; [exact Hin |].
  exact (proj2 (ElementFacts.element_name_fused _ _ Hin)
           (ImageInfo base64 "data:image/png;base64,UE5H")).
Defined.

Lemma no_image_no_change_witness :
  includes "<img" "<p>x</p>" = false
  /\ Sample.processImages "<p>x</p>"
     = ([Called (Mkdir "/doc/.md2pdf_temp");
         Called (Readdir "/doc/.md2pdf_temp");
         Called (Rmdir "/doc/.md2pdf_temp")], Returned "<p>x</p>").
Proof.
  split; [reflexivity |].
  exact (ResolutionFacts.no_image_no_change Sample.fs_stat Sample.fs_read
           Sample.isAbsolute Sample.resolve Sample.extname Sample.file_href
           Sample.convertPdfToSvg Sample.path_join Sample.mkdir Sample.unlink
           Sample.readdir Sample.interrupts "/doc" true "<p>x</p>" eq_refl).
Defined.

Lemma large_svg_referenced_witness :
  is_remote "huge.svg" = false
  /\ Cases.fs_stat "/doc/huge.svg" = Some (Stats true 2097152)
  /\ toLowerCase (skip 1 (Sample.extname "/doc/huge.svg")) = "svg"
  /\ (1048576 < 2097152)%N
  /\ Cases.resolve_src false "huge.svg"
     = Entry [] (ImageInfo file "file:///doc/huge.svg").
Proof.
  split; [reflexivity |]. split; [reflexivity |]. split; [reflexivity |].
  split; [reflexivity |].
  exact (proj2 (ResolutionFacts.large_svg_referenced Cases.fs_stat Cases.fs_read
                  Sample.isAbsolute Sample.resolve Sample.extname
                  Sample.file_href Sample.convertPdfToSvg "/doc" "huge.svg"
                  (Stats true 2097152) eq_refl eq_refl eq_refl eq_refl
                  eq_refl)).
Defined.

Lemma pdf_figure_witness :
  is_remote "fig.pdf" = false
  /\ Cases.fs_stat "/doc/fig.pdf" = Some (Stats true 1200)
  /\ toLowerCase (skip 1 (Sample.extname "/doc/fig.pdf")) = "pdf"
  /\ Sample.convertPdfToSvg "/doc/fig.pdf" = None
  /\ Cases.resolve_src true "fig.pdf"
     = Deleted [PdfConversionFailed "/doc/fig.pdf"].
Proof.
  split; [reflexivity |]. split; [reflexivity |]. split; [reflexivity |].
  split; [reflexivity |].
  exact (proj1 (proj1 (proj2 (ResolutionFacts.pdf_figure Cases.fs_stat
                                Cases.fs_read Sample.isAbsolute Sample.resolve
                                Sample.extname Sample.file_href
                                Sample.convertPdfToSvg "/doc" "fig.pdf"
                                (Stats true 1200) eq_refl eq_refl eq_refl
                                eq_refl))
                 eq_refl)).
Defined.

Lemma unsupported_left_alone_witness :
  is_remote "photo.bmp" = false
  /\ Cases.fs_stat "/doc/photo.bmp" = Some (Stats true 70)
  /\ toLowerCase (skip 1 (Sample.extname "/doc/photo.bmp")) = "bmp"
  /\ ~ In "bmp" supportedExts
  /\ Cases.resolve_src true "photo.bmp" = Untouched [UnsupportedFormat "bmp"].
Proof.
  assert (~ In "bmp" supportedExts) as Hno
    by (cbn; intuition discriminate).
  split; [reflexivity |]. split; [reflexivity |]. split; [reflexivity |].
  split; [exact Hno |].
  exact (proj1 (ResolutionFacts.unsupported_left_alone Cases.fs_stat
                  Cases.fs_read Sample.isAbsolute Sample.resolve Sample.extname
                  Sample.file_href Sample.convertPdfToSvg "/doc" true
                  "photo.bmp" "bmp" (Stats true 70) eq_refl eq_refl eq_refl
                  eq_refl ltac:(discriminate) Hno)).
Defined.

Lemma unterminated_front_matter_witness :
  includes (nl ++ "---") "a: 1" = false
  /\ parseYamlFrontMatter Sample.yaml_load ("---" ++ nl ++ "a: 1" ++ nl ++ "---")
     = Split empty_object ("---" ++ nl ++ "a: 1" ++ nl ++ "---") [].
Proof.
  split; [reflexivity |].
  exact (DelimiterFacts.unterminated_front_matter Sample.yaml_load "a: 1"
           eq_refl).
Defined.

Lemma remote_source_skipped_witness :
  Str.map fold_char "HTTPS" = "https"
  /\ Sample.resolve_src "HTTPS://example.com/a.png" = Untouched [].
Proof.
  split; [reflexivity |].
  exact (RemoteFacts.remote_source_skipped Sample.fs_stat Sample.fs_read
           Sample.isAbsolute Sample.resolve Sample.extname Sample.file_href
           Sample.convertPdfToSvg "/doc" true "HTTPS" "example.com/a.png"
           (or_intror eq_refl)).
Defined.

Lemma metadata_needs_heading_witness :
  includes "<h1" "<p>x</p>" = false
  /\ insertAfterFirstH1 "<p>x</p>"
       (generateMetaInfo (VObj [("author", VStr "A")]))
     = "<p>x</p>".
Proof.
  split; [reflexivity |].
  exact (HeadingFacts.metadata_needs_heading "<p>x</p>" _ eq_refl).
Defined.

Lemma metadata_after_heading_witness :
  let frontMatter := VObj [("author", VStr "A"); ("student_id", VNum 21008)] in
  forallb (all (not_char "$")) (shown frontMatter) = true
  /\ insertAfterFirstH1 ("<h1 id=" ++ dq ++ "t" ++ dq ++ ">T</h1><p>x</p><h1>U</h1>")
       (generateMetaInfo frontMatter)
     = "<h1 id=" ++ dq ++ "t" ++ dq ++ ">T</h1>"
       ++ generateMetaInfo frontMatter ++ "<p>x</p><h1>U</h1>".
Proof.
  split; [reflexivity |].
  exact (HeadingFacts.metadata_after_heading
           (VObj [("author", VStr "A"); ("student_id", VNum 21008)])
           "" (" id=" ++ dq ++ "t" ++ dq) "T" "<p>x</p><h1>U</h1>"
           eq_refl eq_refl eq_refl eq_refl).
Defined.

Lemma template_without_placeholders_witness :
  includes "{{" "<html></html>" = false
  /\ buildHtml [Some "<html></html>"] "doc" "<p>x</p>"
       (page (buildConfig (fun _ => None) (fun _ => VNum 1)
                (Cli.Cli "doc.md" None false false)))
       None
     = Some "<html></html>".
Proof.
  split; [reflexivity |].
  exact (TemplateFacts.template_without_placeholders [] "<html></html>" "doc"
           "<p>x</p>" _ None eq_refl ltac:(discriminate)).
Defined.

Lemma body_between_witness :
  all (not_char "{") "<p>x</p>" = true
  /\ all (not_char "$") "<p>x</p>" = true
  /\ buildHtml [Some ("<body>" ++ "{{BODY}}" ++ "</body>")] "doc" "<p>x</p>"
       (page (buildConfig (fun _ => None) (fun _ => VNum 1)
                (Cli.Cli "doc.md" None false false)))
       None
     = Some ("<body>" ++ "<p>x</p>" ++ "</body>").
Proof.
  split; [reflexivity |]. split; [reflexivity |].
  exact (TemplateFacts.body_between [] "<body>" "</body>" "doc" "<p>x</p>" _ None
           eq_refl eq_refl eq_refl eq_refl).
Defined.

Lemma body_dollar_pair_witness :
  all (not_char "$") "<pre>echo " = true
  /\ all (not_char "$") "</pre>" = true
  /\ buildHtml [Some ("<body>" ++ "{{BODY}}" ++ "</body>")] "doc"
       ("<pre>echo " ++ "$$" ++ "</pre>")
       (page (buildConfig (fun _ => None) (fun _ => VNum 1)
                (Cli.Cli "doc.md" None false false)))
       None
     = Some ("<body>" ++ ("<pre>echo " ++ "$" ++ "</pre>") ++ "</body>").
Proof.
  split; [reflexivity |]. split; [reflexivity |].
  exact (TemplateFacts.body_dollar_pair [] "<body>" "</body>" "doc"
           "<pre>echo " "</pre>" _ None
           eq_refl eq_refl eq_refl eq_refl eq_refl eq_refl).
Defined.

(** Error output that arrives in two chunks, the message of the shell
    cut in the middle. *)
Lemma failure_report_witness :
  let run :=
    Poppler.convertPdfToSvg Cases.fs_stat Cases.join Cases.basename
      "1700000000000" "/doc/fig.pdf" "/doc/.md2pdf_temp"
      (List.map Poppler.Data
         ["sh: 1: pdftocai"; ("ro: not found" ++ nl)%string]
       ++ [Poppler.Close (Some 127%Z)])%list in
  Poppler.is_zero (Some 127%Z) = false
  /\ Poppler.settled run = Some None
  /\ Poppler.logged run
     = [Poppler.ConversionFailed "/doc/fig.pdf"
          (Poppler.Stderr "sh: 1: pdftocairo: not found");
        Poppler.MaybeNotInstalled; Poppler.MacHint; Poppler.LinuxHint].
Proof.
  split; [reflexivity |].
  exact (PopplerFacts.failure_report Cases.fs_stat Cases.join Cases.basename
           "1700000000000" "/doc/fig.pdf" "/doc/.md2pdf_temp"
           ["sh: 1: pdftocai"; "ro: not found" ++ nl] (Some 127%Z) eq_refl).
Defined.

Lemma announced_is_printed_witness :
  In (Program.Say (Program.PdfGenerated "out-pdf/doc.pdf"))
     (fst (Program.main Cases.world Cases.argv))
  /\ snd (Program.main Cases.world Cases.argv) = 0
  /\ exists o,
       Render.path o = "out-pdf/doc.pdf"
       /\ In (Program.Browser (Render.Pdf o))
            (fst (Program.main Cases.world Cases.argv))
       /\ Render.pdf (Program.browser Cases.world) o = Render.Done.
Proof.
  assert (In (Program.Say (Program.PdfGenerated "out-pdf/doc.pdf"))
             (fst (Program.main Cases.world Cases.argv))) as Hin
    by (vm_compute; do 15 right; left; reflexivity).
  split; [exact Hin |].
  destruct (ProgramFacts.announced_is_printed Cases.world Cases.argv _ Hin)
    as (Hcode & _ & Hprinted).
  split; [exact Hcode | exact Hprinted].
Defined.

End CaseFacts.
